(** * SvnMonitor: change detection and notification delivery

    A shallow embedding of the core of [src/svn_monitor.py] (class
    [SVNMonitor]): the log parser, the paginated log retrieval, the
    lock-recovery wrapper around the svn command line, recipient
    resolution, the mail dispatcher and the polling cycle with its
    revision watermarks.

    Conventions.  Python [str] is [string] (ASCII text), [int] is [Z],
    [dict] is a [gmap] (or an association list where the iteration order
    is observable), [None] is [None].  A call that may raise returns a
    sum or an option; a function that swallows every exception is total.
    Library and operating-system services the script consumes
    ([xml.etree.ElementTree], [datetime], the wall clock, [subprocess],
    [smtplib]) are section variables, so every theorem holds for any
    behaviour of theirs; small executable instances are given to run the
    embedding on concrete documents. *)

From Stdlib Require Import ZArith Lia List Bool Ascii String.
From stdpp Require Import base option list gmap strings fin_maps.
Import ListNotations.
Local Open Scope string_scope.
Local Open Scope Z_scope.

(** ** Python string primitives used by the script *)

Module Py.

(** [str.isspace] on ASCII: TAB..CR, FS..US and the blank. *)
Definition isspace (c : ascii) : bool :=
  let n := nat_of_ascii c in
  ((9 <=? n)%nat && (n <=? 13)%nat) || ((28 <=? n)%nat && (n <=? 32)%nat).

Fixpoint lstrip (s : string) : string :=
  match s with
  | String c s' => if isspace c then lstrip s' else s
  | EmptyString => EmptyString
  end.

Fixpoint rev_onto (s acc : string) : string :=
  match s with
  | String c s' => rev_onto s' (String c acc)
  | EmptyString => acc
  end.

Definition reverse (s : string) : string := rev_onto s EmptyString.

Definition rstrip (s : string) : string := reverse (lstrip (reverse s)).

(** [s.strip()] *)
Definition strip (s : string) : string := rstrip (lstrip s).

(** Truthiness of a [str]. *)
Definition truthy (s : string) : bool :=
  match s with EmptyString => false | _ => true end.

Definition lower_char (c : ascii) : ascii :=
  let n := nat_of_ascii c in
  if ((65 <=? n)%nat && (n <=? 90)%nat)%bool then ascii_of_nat (n + 32) else c.

Fixpoint lower (s : string) : string :=
  match s with
  | String c s' => String (lower_char c) (lower s')
  | EmptyString => EmptyString
  end.

(** [s.startswith(p)] *)
Definition startswith (s p : string) : bool := String.prefix p s.

(** [sub in s] *)
Fixpoint contains (sub s : string) : bool :=
  String.prefix sub s ||
  match s with
  | String _ s' => contains sub s'
  | EmptyString => false
  end.

(** [s.find(c)] for a one-character needle: the first index, or -1. *)
Fixpoint find_from (c : ascii) (s : string) (i : Z) : Z :=
  match s with
  | String d s' => if Ascii.eqb c d then i else find_from c s' (i + 1)
  | EmptyString => -1
  end.

Definition find (c : ascii) (s : string) : Z := find_from c s 0.

(** [s[n:]] for [n >= 0]. *)
Fixpoint drop (n : nat) (s : string) : string :=
  match n, s with
  | S n', String _ s' => drop n' s'
  | _, _ => s
  end.

(** [s.replace(c, r)] for a one-character pattern. *)
Fixpoint replace_char (c : ascii) (r s : string) : string :=
  match s with
  | String d s' =>
      if Ascii.eqb c d then r ++ replace_char c r s'
      else String d (replace_char c r s')
  | EmptyString => EmptyString
  end.

(** [sep.join(l)] *)
Fixpoint join (sep : string) (l : list string) : string :=
  match l with
  | [] => ""
  | [x] => x
  | x :: l' => x ++ sep ++ join sep l'
  end.

Definition digit_val (c : ascii) : option Z :=
  let n := nat_of_ascii c in
  if ((48 <=? n)%nat && (n <=? 57)%nat)%bool then Some (Z.of_nat (n - 48)) else None.

(** The digits of a decimal literal: a digit first, then digits with
    single underscores allowed between them. *)
Fixpoint int_digits (s : string) (acc : Z) (after_digit : bool) : option Z :=
  match s with
  | EmptyString => if after_digit then Some acc else None
  | String c s' =>
      match digit_val c with
      | Some d => int_digits s' (10 * acc + d) true
      | None =>
          if (Ascii.eqb c "_" && after_digit)%bool
          then match s' with
               | String c' _ =>
                   match digit_val c' with
                   | Some _ => int_digits s' acc false
                   | None => None
                   end
               | EmptyString => None
               end
          else None
      end
  end.

(** [int(s)] on a [str]: surrounding blanks are dropped, one sign is
    allowed; [None] stands for [ValueError]. *)
Definition int (s : string) : option Z :=
  match strip s with
  | String "+" s' => int_digits s' 0 false
  | String "-" s' => Z.opp <$> int_digits s' 0 false
  | s' => int_digits s' 0 false
  end.

Fixpoint str_pos_fuel (fuel : nat) (n : Z) (acc : string) : string :=
  match fuel with
  | O => acc
  | S f =>
      let acc' := String (ascii_of_nat (48 + Z.to_nat (n mod 10))) acc in
      if n <? 10 then acc' else str_pos_fuel f (n / 10) acc'
  end.

(** [str(n)] for an [int]. *)
Definition str (n : Z) : string :=
  if n <? 0 then String "-" (str_pos_fuel (S (Z.to_nat (Z.log2 (- n)))) (- n) "")
  else str_pos_fuel (S (Z.to_nat (Z.log2 n))) n "".

(** [range(a, b)] *)
Definition range (a b : Z) : list Z :=
  List.map (fun i => a + Z.of_nat i) (List.seq 0 (Z.to_nat (b - a))).

(** [s.split(c)] for a one-character separator. *)
Fixpoint split (c : ascii) (s : string) : list string :=
  match s with
  | EmptyString => [""]
  | String d s' =>
      if Ascii.eqb c d then "" :: split c s'
      else match split c s' with
           | w :: ws => String d w :: ws
           | [] => [String d ""]
           end
  end.

(** [d.get(k, dflt)] on a dict of strings. *)
Definition get (d : gmap string string) (k dflt : string) : string :=
  default dflt (d !! k).

End Py.

(** ** ElementTree: the part of the interface the script uses *)

Module ET.

#[local] Set Warnings "-register-all".

(** An [Element]: tag, attributes, text before the first child, the
    children in document order, and the tail text after the end tag. *)
Inductive Element : Type :=
  Elem (tag : string) (attrib : list (string * string))
       (text : option string) (children : list Element)
       (tail : option string).

Definition tag (e : Element) : string := let 'Elem t _ _ _ _ := e in t.
Definition attrib (e : Element) := let 'Elem _ a _ _ _ := e in a.
Definition text (e : Element) : option string := let 'Elem _ _ x _ _ := e in x.
Definition children (e : Element) : list Element := let 'Elem _ _ _ c _ := e in c.
Definition tail (e : Element) : option string := let 'Elem _ _ _ _ x := e in x.

(** [e.get(key)] *)
Fixpoint assoc (key : string) (l : list (string * string)) : option string :=
  match l with
  | [] => None
  | (k, v) :: l' => if String.eqb k key then Some v else assoc key l'
  end.

Definition get (e : Element) (key : string) : option string :=
  assoc key (attrib e).

Definition has_tag (t : string) (e : Element) : bool := String.eqb (tag e) t.

(** Every element strictly below [e], in document order. *)
Fixpoint descendants (e : Element) : list Element :=
  let 'Elem _ _ _ cs _ := e in
  (fix below (l : list Element) : list Element :=
     match l with
     | [] => []
     | c :: l' => c :: descendants c ++ below l'
     end) cs.

(** [e.findall('.//t')] *)
Definition findall_below (e : Element) (t : string) : list Element :=
  List.filter (has_tag t) (descendants e).

(** [e.findall('t')] and [[c for c in e if c.tag == t]] *)
Definition findall (e : Element) (t : string) : list Element :=
  List.filter (has_tag t) (children e).

(** [e.find('t')] *)
Definition find (e : Element) (t : string) : option Element :=
  List.find (has_tag t) (children e).

(** [ET.Element(t)] followed by [append] of each element of [cs]. *)
Definition Element_with (t : string) (cs : list Element) : Element :=
  Elem t [] None cs None.

(** The outcome of [ET.fromstring]. *)
Inductive Parse : Type :=
| Parsed (root : Element)
| ParseError (msg : string).

End ET.

(** ** Change records *)

Record PathChange : Type := mkPathChange {
  path : string;
  action : string
}.

(** The dict built by [_parse_svn_log] for one log entry.  [author] is
    [None] when the [author] element carries no text. *)
Record ChangeRecord : Type := mkChange {
  revision : Z;
  author : option string;
  date : string;
  message : string;
  changed_paths : list PathChange;
  repository : string
}.

(** ** LogParser: [SVNMonitor._parse_svn_log] *)

Section LogParser.

(** [ET.fromstring]. *)
Variable fromstring : string -> ET.Parse.

(** [datetime.datetime.fromisoformat] ([None] when it raises) and
    [strftime('%Y-%m-%d %H:%M:%S')]. *)
Context {datetime : Type}.
Variable fromisoformat : string -> option datetime.
Variable strftime : datetime -> string.

(** The wall clock: [get_beijing_time_str()] as read while entry [i]
    is being handled, and [get_beijing_time().isoformat()] as read
    when the whole parse fails. *)
Variable get_beijing_time_str : nat -> string.
Variable get_beijing_time_iso : string.

(** How the [try] around [ET.fromstring] leaves the local [root]. *)
Inductive Root : Type :=
| Bound (root : ET.Element)
| Raised           (* an [ET.ParseError] escaped a fallback *)
| Unbound.         (* no fallback applied: [root] was never assigned *)

Definition wrap_log (xml_log : string) : string :=
  "<log>" ++ xml_log ++ "</log>".

Definition parse_or_raise (xml_log : string) : Root :=
  match fromstring xml_log with
  | ET.Parsed root => Bound root
  | ET.ParseError _ => Raised
  end.

(** Lines 1370-1396, on the stripped input. *)
Definition recover_root (xml_log : string) : Root :=
  match fromstring xml_log with
  | ET.Parsed root => Bound root
  | ET.ParseError e =>
      if Py.contains "XML or text declaration not at start of entity" e then
        let first_tag_pos := Py.find "<" xml_log in
        if 0 <? first_tag_pos then
          let xml_log := Py.drop (Z.to_nat first_tag_pos) xml_log in
          match fromstring xml_log with
          | ET.Parsed root => Bound root
          | ET.ParseError _ =>
              parse_or_raise
                (if negb (Py.startswith xml_log "<log")
                 then wrap_log xml_log else xml_log)
          end
        else
          parse_or_raise
            (if negb (Py.startswith xml_log "<log>")
             then wrap_log xml_log else xml_log)
      else Unbound
  end.

(** Lines 1402-1414. *)
Definition find_logentries (root : ET.Element) : list ET.Element :=
  match ET.findall_below root "logentry" with
  | [] => ET.findall root "logentry"
  | logentries => logentries
  end.

(** Lines 1424-1437: the display date of an entry. *)
Definition entry_date (i : nat) (logentry : ET.Element) : string :=
  match ET.find logentry "date" with
  | Some date_elem =>
      match ET.text date_elem with
      | Some t =>
          if Py.truthy t then
            match fromisoformat (Py.replace_char "Z" "+00:00" t) with
            | Some date_obj => strftime date_obj
            | None => get_beijing_time_str i
            end
          else get_beijing_time_str i
      | None => get_beijing_time_str i
      end
  | None => get_beijing_time_str i
  end.

(** Lines 1442-1465. *)
Definition entry_paths (logentry : ET.Element) : list PathChange :=
  match ET.find logentry "paths" with
  | Some paths_elem =>
      omap (fun p =>
              let action := default "M" (ET.get p "action") in
              let path_name := default "" (ET.text p) in
              if Py.truthy (Py.strip path_name)
              then Some (mkPathChange path_name action) else None)
           (ET.findall paths_elem "path")
  | None => []
  end.

(** The body of the loop over the entries (lines 1420-1485): [None]
    when the body raises, which the [except] turns into a skip. *)
Definition parse_entry (repo_name : string) (i : nat) (logentry : ET.Element)
  : option ChangeRecord :=
  revision ← match ET.get logentry "revision" with
             | Some r => Py.int r
             | None => Some 0
             end;
  let author := match ET.find logentry "author" with
                | Some author_elem => ET.text author_elem
                | None => Some "unknown"
                end in
  let date := entry_date i logentry in
  let message := match ET.find logentry "msg" with
                 | Some msg_elem =>
                     match ET.text msg_elem with
                     | Some t => if Py.truthy t then Py.strip t else ""
                     | None => ""
                     end
                 | None => ""
                 end in
  Some (mkChange revision author date message (entry_paths logentry) repo_name).

(** [for i, logentry in enumerate(logentries)] from index [i]. *)
Fixpoint parse_entries (repo_name : string) (i : nat) (logentries : list ET.Element)
  : list ChangeRecord :=
  match logentries with
  | [] => []
  | logentry :: rest =>
      match parse_entry repo_name i logentry with
      | Some change_record => change_record :: parse_entries repo_name (S i) rest
      | None => parse_entries repo_name (S i) rest
      end
  end.

(** The record returned by the two outer [except] clauses. *)
Definition failure_record (msg repo_name : string) : ChangeRecord :=
  mkChange 0 (Some "unknown") get_beijing_time_iso msg [] repo_name.

Definition _parse_svn_log (xml_log repo_name : string) : list ChangeRecord :=
  if negb (Py.truthy xml_log) || negb (Py.truthy (Py.strip xml_log)) then []
  else
    match recover_root (Py.strip xml_log) with
    | Bound root => parse_entries repo_name 0 (find_logentries root)
    | Raised => [failure_record "XML parsing error" repo_name]
    | Unbound => [failure_record "Unknown error parsing log" repo_name]
    end.

(** The root the parser works on, when there is one. *)
Definition recovered (xml_log : string) : option ET.Element :=
  if Py.truthy (Py.strip xml_log) then
    match recover_root (Py.strip xml_log) with
    | Bound root => Some root
    | _ => None
    end
  else None.

(** An entry is parseable when the loop body does not raise for it:
    its [revision] attribute, if present, reads as an integer. *)
Definition parseable (logentry : ET.Element) : bool :=
  match ET.get logentry "revision" with
  | Some r => bool_decide (is_Some (Py.int r))
  | None => true
  end.

(** An entry whose [date] element decodes. *)
Definition decodable (logentry : ET.Element) : bool :=
  match ET.find logentry "date" with
  | Some date_elem =>
      match ET.text date_elem with
      | Some t =>
          Py.truthy t &&
          bool_decide (is_Some (fromisoformat (Py.replace_char "Z" "+00:00" t)))
      | None => false
      end
  | None => false
  end.

(** The entries with their position in the log. *)
Definition indexed (logentries : list ET.Element) : list (nat * ET.Element) :=
  List.combine (List.seq 0 (length logentries)) logentries.

End LogParser.

Definition without_date (c : ChangeRecord) : ChangeRecord :=
  mkChange (revision c) (author c) "" (message c) (changed_paths c) (repository c).

(** ** RepositoryClient: [SVNMonitor._get_paginated_svn_log] *)

Section PaginatedLog.

Variable fromstring : string -> ET.Parse.

(** [ET.tostring(root, encoding='unicode')]. *)
Variable tostring : ET.Element -> string.

(** [self._run_svn_command(cmd, repo_config)] as seen by this caller:
    the output of the command, [Some ""] when it failed and the
    failure was swallowed, [None] when the call raised. *)
Variable _run_svn_command : list string -> option string.

Definition page_size : Z := 500.

Definition log_range_cmd (repo_url : string) (first last : Z) : list string :=
  ["svn"; "log"; repo_url; "--xml"; "--verbose"; "-r";
   Py.str first ++ ":" ++ Py.str last].

Definition log_single_cmd (repo_url : string) (rev : Z) : list string :=
  ["svn"; "log"; repo_url; "--xml"; "--verbose"; "-r"; Py.str rev].

(** The per-revision fallback for a page whose query came back empty
    (lines 1206-1217): a revision whose query raises or is empty adds
    nothing. *)
Definition fetch_singly (repo_url : string) (current_start current_end : Z)
  : list string :=
  omap (fun rev =>
          match _run_svn_command (log_single_cmd repo_url rev) with
          | Some single_log => if Py.truthy single_log then Some single_log else None
          | None => None
          end)
       (Py.range current_start (current_end + 1)).

(** What one page adds to [combined_logs] (lines 1198-1219). *)
Definition fetch_page (repo_url : string) (current_start current_end : Z)
  : list string :=
  match _run_svn_command (log_range_cmd repo_url current_start current_end) with
  | Some log_output =>
      if Py.truthy log_output then [log_output]
      else fetch_singly repo_url current_start current_end
  | None => []
  end.

(** The [while current_start <= to_revision] loop; [None] only when
    [fuel] iterations were not enough. *)
Fixpoint page_loop (fuel : nat) (repo_url : string)
         (current_start to_revision : Z) (combined_logs : list string)
  : option (list string) :=
  if current_start <=? to_revision then
    match fuel with
    | O => None
    | S fuel' =>
        let current_end := Z.min (current_start + page_size - 1) to_revision in
        page_loop fuel' repo_url (current_end + 1) to_revision
                  (combined_logs ++ fetch_page repo_url current_start current_end)
    end
  else Some combined_logs.

(** Lines 1232-1237: the entries of one fetched document, none when it
    does not parse. *)
Definition logentries_of (log_xml : string) : list ET.Element :=
  match fromstring log_xml with
  | ET.Parsed log_root => ET.findall_below log_root "logentry"
  | ET.ParseError _ => []
  end.

(** Lines 1228-1242: every [logentry] of every page under one root. *)
Definition combine_logs (combined_logs : list string) : string :=
  match combined_logs with
  | [] => ""
  | _ => tostring (ET.Element_with "log" (List.flat_map logentries_of combined_logs))
  end.

Definition repo_url_of (repo_config : gmap string string) : string :=
  Py.get repo_config "repository_path" (Py.get repo_config "url" "").

Definition _get_paginated_svn_log (repo_config : gmap string string)
           (from_revision to_revision : Z) : string :=
  let repo_url := repo_url_of repo_config in
  if negb (Py.truthy repo_url) then ""
  else
    match page_loop (Z.to_nat (to_revision + 1 - from_revision)) repo_url
                    from_revision to_revision [] with
    | Some combined_logs => combine_logs combined_logs
    | None => ""
    end.

(** The page boundaries the loop walks through, as the spec words
    them: consecutive pages of [page_size] revisions, the last one cut
    at [to_revision]. *)
Fixpoint pages (n : nat) (first to_revision : Z) : list (Z * Z) :=
  match n with
  | O => []
  | S n' =>
      (first, Z.min (first + page_size - 1) to_revision)
        :: pages n' (first + page_size) to_revision
  end.

Definition page_count (from_revision to_revision : Z) : nat :=
  Z.to_nat ((to_revision - from_revision + page_size) / page_size).

(** The single hypothetical non-paginated query the spec compares
    with: one log command over the whole range. *)
Definition single_query_svn_log (repo_config : gmap string string)
           (from_revision to_revision : Z) : string :=
  default "" (_run_svn_command
                (log_range_cmd (repo_url_of repo_config) from_revision to_revision)).

(** The log entries a repository holds for the revisions [first..last],
    [history r] being those of revision [r] (none when [r] does not
    touch the path). *)
Definition entries_between (history : Z -> list ET.Element) (first last : Z)
  : list ET.Element :=
  List.flat_map history (Py.range first (last + 1)).

(** [output] is a non-empty, well-formed log document that lists
    exactly [entries]. *)
Definition lists (output : string) (entries : list ET.Element) : Prop :=
  Py.truthy output = true /\
  exists root, fromstring output = ET.Parsed root /\
               ET.findall_below root "logentry" = entries.

(** The remote answered for the page [first..last]: its query returned
    the log of the page, or it came back empty and every per-revision
    query of the page returned the log of its revision. *)
Definition page_answered (history : Z -> list ET.Element) (repo_url : string)
           (first last : Z) : Prop :=
  (exists output,
      _run_svn_command (log_range_cmd repo_url first last) = Some output /\
      lists output (entries_between history first last)) \/
  (_run_svn_command (log_range_cmd repo_url first last) = Some "" /\
   forall rev, first <= rev <= last ->
     exists output,
       _run_svn_command (log_single_cmd repo_url rev) = Some output /\
       lists output (history rev)).

End PaginatedLog.

(** ** RepositoryClient: [_run_svn_command] and [_try_svn_cleanup] *)

(** What [subprocess.run(..., check=True)] does. *)
Inductive Proc : Type :=
| Completed (stdout : string)
| CalledProcessError (stderr : string)
| OSError.                     (* any other exception *)

(** A call either returns or lets an exception escape. *)
Inductive Outcome (A : Type) : Type :=
| Return (a : A)
| Raise.
Arguments Return {A} a.
Arguments Raise {A}.

(** The commands handed to [subprocess.run] so far, oldest first. *)
Record Shell : Type := mkShell { invoked : list (list string) }.

Section SvnCommand.

(** The outcome of the process started after [n] earlier ones. *)
Variable subprocess_run : nat -> list string -> Proc.

(** [os.path.exists]. *)
Variable path_exists : string -> bool.

(** [self._remove_svn_locks_manually(working_dir)], after [n] processes. *)
Variable _remove_svn_locks_manually : nat -> string -> bool.

(** [self.config['SVN']], when the section exists. *)
Variable svn_config : option (gmap string string).

Definition exec (command : list string) (sh : Shell) : Proc * Shell :=
  (subprocess_run (length (invoked sh)) command,
   mkShell (invoked sh ++ [command])%list).

(** Lines 949-960 and 804-815: the repository's pair if it has both
    keys, else the global pair. *)
Definition credentials (repo_config : option (gmap string string))
  : option (string * string) :=
  let global :=
    match svn_config with
    | Some svn =>
        let u := Py.get svn "username" "" in
        let p := Py.get svn "password" "" in
        if Py.truthy u && Py.truthy p then Some (u, p) else None
    | None => None
    end in
  match repo_config with
  | Some rc =>
      match rc !! "username", rc !! "password" with
      | Some u, Some p => if Py.truthy u && Py.truthy p then Some (u, p) else None
      | _, _ => global
      end
  | None => global
  end.

Definition has_arg (x : string) (l : list string) : bool :=
  List.existsb (String.eqb x) l.

Definition trust_flags : list string :=
  ["--trust-server-cert-failures"; "unknown-ca,cn-mismatch,expired,not-yet-valid,other"].

(** Lines 963-975: each credential argument is added unless present. *)
Definition add_credentials (repo_config : option (gmap string string))
           (command : list string) : list string :=
  match credentials repo_config with
  | Some (username, password) =>
      let c1 := if has_arg "--username" command then command
                else (command ++ ["--username"; username])%list in
      let c2 := if has_arg "--password" c1 then c1 else (c1 ++ ["--password"; password])%list in
      let c3 := if has_arg "--non-interactive" c2 then c2 else (c2 ++ ["--non-interactive"])%list in
      let c4 := if has_arg "--trust-server-cert" c3 then c3 else (c3 ++ ["--trust-server-cert"])%list in
      if has_arg "--trust-server-cert-failures" c4 then c4 else (c4 ++ trust_flags)%list
  | None => command
  end.

Definition cleanup_command (repo_config : option (gmap string string))
           (working_dir : string) : list string :=
  (["svn"; "cleanup"; working_dir] ++
   match credentials repo_config with
   | Some (username, password) =>
       ["--username"; username; "--password"; password;
        "--non-interactive"; "--trust-server-cert"] ++ trust_flags
   | None => []
   end)%list.

(** Lines 779-877.  A lock failure of the cleanup itself is answered
    by removing the lock files and running the cleanup once more,
    inline. *)
Definition _try_svn_cleanup (working_dir : option string)
           (repo_config : option (gmap string string)) (sh : Shell)
  : Outcome bool * Shell :=
  match working_dir with
  | None => (Return false, sh)
  | Some wd =>
      if negb (Py.truthy wd) then (Return false, sh)
      else if negb (path_exists wd) then (Return false, sh)
      else if negb (path_exists (wd ++ "/.svn")) then (Return false, sh)
      else
        let '(r, sh1) := exec (cleanup_command repo_config wd) sh in
        match r with
        | Completed _ => (Return true, sh1)
        | CalledProcessError error_message =>
            if Py.contains "locked" (Py.lower error_message) then
              if _remove_svn_locks_manually (length (invoked sh1)) wd then
                let '(r2, sh2) := exec (cleanup_command repo_config wd) sh1 in
                match r2 with
                | Completed _ => (Return true, sh2)
                | CalledProcessError _ => (Return false, sh2)
                | OSError => (Raise, sh2)
                end
              else (Return false, sh1)
            else (Return false, sh1)
        | OSError => (Return false, sh1)
        end
  end.

(** Lines 935-1052.  [depth] is the number of nested activations the
    interpreter's recursion limit leaves room for: with none left the
    call raises [RecursionError]. *)
Fixpoint _run_svn_command (depth : nat) (command : list string)
         (repo_config : option (gmap string string))
         (working_dir : option string) (is_retry : bool) (sh : Shell)
  : Outcome string * Shell :=
  match depth with
  | O => (Raise, sh)
  | S depth' =>
      let command := if is_retry then command
                     else add_credentials repo_config command in
      let '(r, sh1) := exec command sh in
      match r with
      | Completed stdout => (Return (Py.strip stdout), sh1)
      | CalledProcessError error_message =>
          if Py.contains "locked" (Py.lower error_message)
             || Py.contains "cleanup" (Py.lower error_message)
          then
            let '(cleanup_success, sh2) := _try_svn_cleanup working_dir repo_config sh1 in
            match cleanup_success with
            | Raise => (Raise, sh2)
            | Return _ =>
                (* both branches retry the original command *)
                let '(retried, sh3) :=
                  _run_svn_command depth' command repo_config working_dir true sh2 in
                match retried with
                | Return output => (Return output, sh3)
                | Raise => (Return "", sh3)
                end
            end
          else (Return "", sh1)
      | OSError => (Return "", sh1)
      end
  end.

(** How often [command] was handed to [subprocess.run]. *)
Definition executions (command : list string) (sh : Shell) : nat :=
  length (List.filter (fun c => bool_decide (c = command)) (invoked sh)).

End SvnCommand.

(** ** ChangeAggregator and NotificationDispatcher *)

(** What the dispatcher leaves behind: log lines, operation records,
    SMTP connections (numbered by [retry_count]) and pauses. *)
Inductive Event : Type :=
| Log (level msg : string)
| Operation (operation_type msg : string)
| Connect (attempt : nat)
| Sleep (seconds : Z).

(** How one step of an SMTP conversation ends. *)
Inductive Step : Type :=
| Done
| SMTPAuthenticationError
| SMTPException
| OtherError.

(** The steps of one delivery attempt through [smtplib]. *)
Record Attempt : Type := mkAttempt {
  connect : Step;
  starttls : Step;
  login : Step;
  send_message : Step;
  quit : Step
}.

(** The message handed to the transport. *)
Record Message : Type := mkMessage {
  msg_from : string;
  msg_to : string;
  msg_payload : list (string * list ChangeRecord)
}.

(** Lines 584-588 and 640-644 of [_load_recipients_from_excel]: the
    addresses of one row, and the mapping built from the rows that
    carry a repository and a recipients cell. *)
Definition row_recipients (recipients_str : string) : list string :=
  List.filter Py.truthy (List.map Py.strip (Py.split ";" recipients_str)).

Definition load_row (mapping : gmap string (list string)) (row : string * string)
  : gmap string (list string) :=
  match row_recipients (snd row) with
  | [] => mapping
  | recipients => <[fst row := recipients]> mapping
  end.

Definition _load_recipients_from_excel (rows : list (string * string))
  : gmap string (list string) :=
  List.fold_left load_row rows ∅.

(** What the loader guarantees: every entry lists at least one address
    and no address is empty. *)
Definition well_formed_recipients (mapping : gmap string (list string)) : Prop :=
  map_Forall (fun _ recipients => recipients <> [] /\ Forall (fun r => r <> "") recipients)
             mapping.

Section Notification.

(** [self.recipients_mapping], [self.repo_name_mapping] and
    [self.config['EMAIL']] (when the section exists). *)
Variable recipients_mapping : gmap string (list string).
Variable repo_name_mapping : gmap string string.
Variable config_EMAIL : option (gmap string string).

(** The order in which a [set] of strings is iterated. *)
Variable set_order : gset string -> list string.

(** Attempt number [n] (counting from 0) at delivering a message. *)
Variable smtp : nat -> Message -> Attempt.

(** Lines 694-697. *)
Definition all_excel_recipients : gset string :=
  map_fold (fun _ (recipients : list string) (acc : gset string) =>
              list_to_set recipients ∪ acc) ∅ recipients_mapping.

Definition joined (recipients : list string) : string :=
  Py.join ", " recipients.

(** Lines 653-705; [Raise] is the [KeyError] of [self.config['EMAIL']]. *)
Definition _get_recipients_for_repository (repo_name : string) : Outcome string :=
  match recipients_mapping !! repo_name with
  | Some recipients => Return (joined recipients)
  | None =>
  let aliased :=
    match repo_name_mapping !! repo_name with
    | Some mapped_repo_name =>
        if Py.truthy mapped_repo_name then recipients_mapping !! mapped_repo_name
        else None
    | None => None
    end in
  match aliased with
  | Some recipients => Return (joined recipients)
  | None =>
  match recipients_mapping !! ("REPO_" ++ repo_name) with
  | Some recipients => Return (joined recipients)
  | None =>
  match (if Py.startswith repo_name "REPO_"
         then recipients_mapping !! Py.drop 5 repo_name else None) with
  | Some recipients => Return (joined recipients)
  | None =>
      if negb (bool_decide (recipients_mapping = ∅))
         && negb (bool_decide (all_excel_recipients = ∅))
      then Return (joined (set_order all_excel_recipients))
      else match config_EMAIL with
           | Some email => Return (Py.get email "to_emails" "")
           | None => Raise
           end
  end end end end.

(** The six sources in the order the spec lists them, each giving the
    recipient string it yields ([""] when it yields nothing), and the
    first non-empty one of them. *)
Definition from_key (key : string) : string :=
  match recipients_mapping !! key with
  | Some recipients => joined recipients
  | None => ""
  end.

Definition recipient_sources (email : gmap string string) (repo_name : string)
  : list string :=
  [ from_key repo_name;
    match repo_name_mapping !! repo_name with
    | Some alias => if Py.truthy alias then from_key alias else ""
    | None => ""
    end;
    from_key ("REPO_" ++ repo_name);
    if Py.startswith repo_name "REPO_" then from_key (Py.drop 5 repo_name) else "";
    joined (set_order all_excel_recipients);
    Py.get email "to_emails" "" ].

Definition first_nonempty (l : list string) : string :=
  default "" (List.find Py.truthy l).

(** Lines 1582-1589: [changes_by_repo], keys in first-seen order. *)
Fixpoint add_change (change : ChangeRecord)
         (changes_by_repo : list (string * list ChangeRecord))
  : list (string * list ChangeRecord) :=
  match changes_by_repo with
  | [] => [(repository change, [change])]
  | (repo_name, l) :: rest =>
      if String.eqb repo_name (repository change)
      then (repo_name, (l ++ [change])%list) :: rest
      else (repo_name, l) :: add_change change rest
  end.

Definition group_by_repo (changes : list ChangeRecord)
  : list (string * list ChangeRecord) :=
  List.fold_left (fun acc change => add_change change acc) changes [].

(** Lines 1605-1609: the addresses in a recipient string. *)
Definition addresses (recipients_str : string) : list string :=
  List.filter (fun r => Py.truthy r && negb (String.eqb (Py.lower r) "nan"))
              (List.map Py.strip (Py.split "," (Py.replace_char ";" "," recipients_str))).

Definition credentials_configured (email : gmap string string) : bool :=
  match email !! "username", email !! "password" with
  | Some username, Some password =>
      Py.truthy (Py.strip username) && Py.truthy (Py.strip password)
  | _, _ => false
  end.

(** One pass through the body of the retry loop (lines 1963-2003). *)
Inductive AttemptResult : Type :=
| Sent
| Retry          (* [SMTPAuthenticationError] at login or any [SMTPException] *)
| Abort.         (* any other exception: [break] *)

Definition after (s : Step) (k : AttemptResult) : AttemptResult :=
  match s with
  | Done => k
  | SMTPAuthenticationError | SMTPException => Retry
  | OtherError => Abort
  end.

Definition attempt_result (use_ssl has_credentials : bool) (a : Attempt)
  : AttemptResult :=
  after (connect a)
    (after (if use_ssl then Done else starttls a)
       (after (if has_credentials then login a else Done)
          (after (send_message a) (after (quit a) Sent)))).

Definition max_retries : nat := 2.

(** [while retry_count <= max_retries and not success]; [None] only
    when [fuel] iterations were not enough. *)
Fixpoint send_loop (fuel : nat) (use_ssl has_credentials : bool) (msg : Message)
         (retry_count : nat) (events : list Event)
  : option (bool * list Event) :=
  if (retry_count <=? max_retries)%nat then
    match fuel with
    | O => None
    | S fuel' =>
        match attempt_result use_ssl has_credentials (smtp retry_count msg) with
        | Sent =>
            Some (true, (events ++ [Connect retry_count;
                                    Operation "SUCCESS" (msg_to msg)])%list)
        | Retry =>
            send_loop fuel' use_ssl has_credentials msg (S retry_count)
                      (events ++ [Connect retry_count;
                                  Log "ERROR" "SMTP error sending email";
                                  Sleep 2])%list
        | Abort =>
            Some (false, (events ++ [Connect retry_count;
                                     Log "ERROR" "Unexpected error sending email";
                                     Log "ERROR" "Failed to send email after multiple attempts"])%list)
        end
    end
  else Some (false, (events ++ [Log "ERROR" "Failed to send email after multiple attempts"])%list).

Definition use_ssl_of (email : gmap string string) : bool :=
  String.eqb (Py.lower (Py.get email "use_ssl" "True")) "true".

(** Lines 1937-2016.  A missing [smtp_server], a port that is not a
    number: every exception ends in the outer [except], as [False]. *)
Definition _send_email (msg : Message) : bool * list Event :=
  match config_EMAIL with
  | None => (false, [Log "ERROR" "Error in _send_email"])
  | Some email =>
      let has_credentials := credentials_configured email in
      match email !! "smtp_server", Py.int (Py.get email "smtp_port" "465") with
      | Some _, Some _ =>
          let use_ssl := use_ssl_of email in
          match send_loop (S max_retries) use_ssl has_credentials msg 0 [] with
          | Some r => r
          | None => (false, [])
          end
      | _, _ => (false, [Log "ERROR" "Error in _send_email"])
      end
  end.

(** Lines 1599-1620: the recipients of every repository with changes,
    the global default when there are none. *)
Definition collect_recipients (email : gmap string string)
           (changes_by_repo : list (string * list ChangeRecord))
  : Outcome (gset string) :=
  let collected :=
    List.fold_left
      (fun acc '(repo_name, _) =>
         match acc, _get_recipients_for_repository repo_name with
         | Return all_recipients, Return repo_recipients =>
             Return (all_recipients ∪ list_to_set (addresses repo_recipients))
         | _, _ => Raise
         end)
      changes_by_repo (Return ∅) in
  match collected with
  | Return all_recipients =>
      if bool_decide (all_recipients = ∅)
      then Return (list_to_set (addresses (Py.get email "to_emails" "")))
      else Return all_recipients
  | Raise => Raise
  end.

Definition skipped_incomplete : list Event :=
  [Log "WARNING" "Email notification skipped: incomplete email configuration";
   Operation "WARNING" "Email notification skipped: incomplete email configuration"].

Definition skipped_no_credentials : list Event :=
  [Log "INFO" "Email notification skipped: No valid SMTP credentials configured";
   Operation "INFO" "Email notification skipped: No valid SMTP credentials configured"].

(** Lines 1550-1779. *)
Definition send_email_notification (changes : list ChangeRecord)
  : bool * list Event :=
  match changes with
  | [] => (false, [])
  | _ =>
      let attempt := [Operation "NOTIFICATION" "Attempting to send email notification"] in
      match config_EMAIL with
      | None => (false, (attempt ++ skipped_incomplete)%list)
      | Some email =>
          if negb (bool_decide (is_Some (email !! "smtp_server"))
                   && bool_decide (is_Some (email !! "from_email"))
                   && bool_decide (is_Some (email !! "to_emails")))
          then (false, (attempt ++ skipped_incomplete)%list)
          else if negb (credentials_configured email)
          then (false, (attempt ++ skipped_no_credentials)%list)
          else
            let changes_by_repo := group_by_repo changes in
            match collect_recipients email changes_by_repo with
            | Return all_recipients =>
                let msg := mkMessage (Py.get email "from_email" "")
                                     (joined (set_order all_recipients))
                                     changes_by_repo in
                let '(sent, events) := _send_email msg in
                (sent, (attempt ++ events)%list)
            | Raise =>
                (false, (attempt ++ [Operation "ERROR" "Failed to send email notification"])%list)
            end
      end
  end.

(** The SMTP connections among the events. *)
Definition connections (events : list Event) : list nat :=
  omap (fun e => match e with Connect n => Some n | _ => None end) events.

Definition pauses (events : list Event) : list Z :=
  omap (fun e => match e with Sleep t => Some t | _ => None end) events.

End Notification.

(** ** RevisionStore and Scheduler *)

(** The monitor process and the store: [self.last_revisions], and the
    content of [last_revisions.json] ([None] when there is no readable
    file). *)
Record Monitor : Type := mkMonitor {
  last_revisions : gmap string Z;
  stored : option (gmap string Z)
}.

(** What the surroundings answer during one operation:
    [get_latest_revision] of a repository ([None] when it raises),
    [get_changes] (which never raises), the outcome of
    [send_email_notification], and whether a write of the store goes
    through ([Some r]: the immediate write for repository [r]; [None]:
    the write after a delivered notification). *)
Record Env : Type := mkEnv {
  get_latest_revision : string -> option Z;
  get_changes : string -> Z -> Z -> list ChangeRecord;
  deliver : list ChangeRecord -> bool;
  write_ok : option string -> bool
}.

(** What one polling cycle found and did. *)
Record CycleReport : Type := mkReport {
  all_changes : list ChangeRecord;
  changes_to_update : list (string * (Z * Z));
  errors : list string;
  email_success : option bool          (* [None]: nothing was dispatched *)
}.

(** What one hook invocation did. *)
Record CommitReport : Type := mkCommitReport {
  commit_repo : option string;
  commit_changes : list ChangeRecord;
  commit_dispatch : option bool        (* [None]: nothing was dispatched *)
}.

Section Scheduler.

(** [self.repositories], in the order of the dict. *)
Variable repositories : list (string * gmap string string).

(** Lines 431-454. *)
Definition _get_last_recorded_revisions (file : option (gmap string Z))
  : gmap string Z :=
  List.fold_right
    (fun '(repo_name, _) revisions =>
       <[repo_name := default 0 (file ≫= (.!! repo_name))]> revisions)
    ∅ repositories.

(** Lines 474-483: a failed write is logged and forgotten. *)
Definition _save_last_revisions (ok : bool) (revisions : gmap string Z)
           (m : Monitor) : Monitor :=
  if ok then mkMonitor (last_revisions m) (Some revisions) else m.

Definition notify_on_changes (repo_config : gmap string string) : bool :=
  String.eqb (Py.lower (Py.get repo_config "notify_on_changes" "True")) "true".

(** [d[k] = v] on a dict kept in insertion order. *)
Fixpoint dict_set {V : Type} (k : string) (v : V) (d : list (string * V))
  : list (string * V) :=
  match d with
  | [] => [(k, v)]
  | (k', v') :: d' =>
      if String.eqb k' k then (k, v) :: d' else (k', v') :: dict_set k v d'
  end.

(** The body of [for repo_name, repo_config in self.repositories.items()]
    (lines 2435-2470). *)
Definition check_repository (env : Env) (repo_name : string)
           (repo_config : gmap string string) (st : Monitor * CycleReport)
  : Monitor * CycleReport :=
  let '(m, rep) := st in
  match get_latest_revision env repo_name with
  | None =>
      (m, mkReport (all_changes rep) (changes_to_update rep)
                   (errors rep ++ [repo_name]) (email_success rep))
  | Some latest_revision =>
      let last_revision := default 0 (last_revisions m !! repo_name) in
      if last_revision <? latest_revision then
        let changes := get_changes env repo_name last_revision latest_revision in
        if notify_on_changes repo_config then
          (m, mkReport (all_changes rep ++ changes)
                       (dict_set repo_name (last_revision, latest_revision)
                                 (changes_to_update rep))
                       (errors rep) (email_success rep))
        else
          let revisions := <[repo_name := latest_revision]> (last_revisions m) in
          (_save_last_revisions (write_ok env (Some repo_name)) revisions
                                (mkMonitor revisions (stored m)),
           rep)
      else (m, rep)
  end.

Fixpoint check_all (env : Env) (repos : list (string * gmap string string))
         (st : Monitor * CycleReport) : Monitor * CycleReport :=
  match repos with
  | [] => st
  | (repo_name, repo_config) :: rest =>
      check_all env rest (check_repository env repo_name repo_config st)
  end.

(** Lines 2426-2470: the store is read afresh, then every repository
    is checked. *)
Definition check_phase (env : Env) (m : Monitor) : Monitor * CycleReport :=
  check_all env repositories
            (mkMonitor (_get_last_recorded_revisions (stored m)) (stored m),
             mkReport [] [] [] None).

(** Lines 2477-2493. *)
Definition dispatch_phase (env : Env) (st : Monitor * CycleReport)
  : Monitor * CycleReport :=
  let '(m, rep) := st in
  match all_changes rep with
  | [] => (m, rep)
  | _ =>
      if deliver env (all_changes rep) then
        let temp_revisions :=
          List.fold_left (fun temp '(repo_name, info) => <[repo_name := snd info]> temp)
                         (changes_to_update rep) (last_revisions m) in
        (_save_last_revisions (write_ok env None) temp_revisions
                              (mkMonitor temp_revisions (stored m)),
         mkReport (all_changes rep) (changes_to_update rep) (errors rep) (Some true))
      else
        (mkMonitor (_get_last_recorded_revisions (stored m)) (stored m),
         mkReport (all_changes rep) (changes_to_update rep) (errors rep) (Some false))
  end.

(** Lines 2426-2493: the check of the watermarks followed by the
    dispatch of what was found, the part of a pass of [run] that reads
    and moves the watermarks.  (A pass ends with its status report,
    lines 2495-2511: see [pass] below.) *)
Definition cycle (env : Env) (m : Monitor) : Monitor * CycleReport :=
  dispatch_phase env (check_phase env m).

(** Lines 722-739: the configuration a hook path belongs to. *)
Definition matching (repository_path : string)
  : option (string * gmap string string) :=
  match List.find
          (fun '(_, repo_config) =>
             match repo_config !! "repository_path" with
             | Some p => Py.contains repository_path p || Py.contains p repository_path
             | None => false
             end) repositories with
  | Some found => Some found
  | None => List.head repositories
  end.

(** Lines 707-777. *)
Definition process_commit (env : Env) (repository_path revision : string)
           (m : Monitor) : Monitor * CommitReport :=
  match Py.int revision with
  | None => (m, mkCommitReport None [] None)
  | Some revision =>
      match matching repository_path with
      | None => (m, mkCommitReport None [] None)
      | Some (matching_repo_name, matching_repo) =>
          let last_revision := default 0 (last_revisions m !! matching_repo_name) in
          if last_revision <? revision then
            let changes := get_changes env matching_repo_name last_revision revision in
            let revisions := <[matching_repo_name := revision]> (last_revisions m) in
            let recorded :=
              _save_last_revisions (write_ok env (Some matching_repo_name)) revisions
                                   (mkMonitor revisions (stored m)) in
            if notify_on_changes matching_repo
               && match changes with [] => false | _ => true end
            then
              if deliver env changes
              then (recorded, mkCommitReport (Some matching_repo_name) changes (Some true))
              else (m, mkCommitReport (Some matching_repo_name) changes (Some false))
            else (recorded, mkCommitReport (Some matching_repo_name) changes None)
          else (m, mkCommitReport (Some matching_repo_name) [] None)
      end
  end.

(** The two ways the watermarks are driven: a pass of the polling
    loop, and a hook invocation, which is a process of its own that
    reads the store when it starts ([__init__]) and handles one
    commit. *)
Inductive Op : Type :=
| ScheduledCycle (env : Env)
| HookCommit (env : Env) (repository_path revision : string).

Definition hook (env : Env) (repository_path revision : string) (m : Monitor)
  : Monitor * CommitReport :=
  let '(h, rep) :=
    process_commit env repository_path revision
                   (mkMonitor (_get_last_recorded_revisions (stored m)) (stored m)) in
  (mkMonitor (last_revisions m) (stored h), rep).

Definition step (op : Op) (m : Monitor) : Monitor :=
  match op with
  | ScheduledCycle env => fst (cycle env m)
  | HookCommit env repository_path revision =>
      fst (hook env repository_path revision m)
  end.

Definition run_ops (ops : list Op) (m : Monitor) : Monitor :=
  List.fold_left (fun m op => step op m) ops m.

(** The pending set a pass of the check loop arrives at from the
    watermarks [revisions]: every notification-enabled repository whose
    latest revision is above its watermark, with both revisions. *)
Definition pending_in (env : Env) (revisions : gmap string Z)
           (repos : list (string * gmap string string)) : list (string * (Z * Z)) :=
  omap (fun '(repo_name, repo_config) =>
          if notify_on_changes repo_config then
            match get_latest_revision env repo_name with
            | Some latest_revision =>
                let last_revision := default 0 (revisions !! repo_name) in
                if last_revision <? latest_revision
                then Some (repo_name, (last_revision, latest_revision))
                else None
            | None => None
            end
          else None)
       repos.

(** A repository listed with notifications switched off. *)
Definition disabled_in (repos : list (string * gmap string string)) (r : string) : Prop :=
  exists repo_config, In (r, repo_config) repos /\ notify_on_changes repo_config = false.

(** [revisions'] is [revisions] with some watermarks of repositories in
    [D] moved forward, and nothing else changed. *)
Definition advanced_at (D : string -> Prop) (revisions revisions' : gmap string Z) : Prop :=
  (forall r, ~ D r -> revisions' !! r = revisions !! r) /\
  (forall r z, revisions !! r = Some z ->
               exists z', revisions' !! r = Some z' /\ z <= z').

(** The persisted watermark of a repository, 0 when none is recorded. *)
Definition persisted (m : Monitor) (repo_name : string) : Z :=
  default 0 (stored m ≫= (.!! repo_name)).

Definition config_of (repo_name : string) : option (gmap string string) :=
  snd <$> List.find (fun '(name, _) => String.eqb name repo_name) repositories.

(** Whether notifications are enabled for a configured repository. *)
Definition notifies (repo_name : string) : bool :=
  match config_of repo_name with
  | Some repo_config => notify_on_changes repo_config
  | None => false
  end.

End Scheduler.

(** ** Command logging: [_get_safe_command_string] *)

(** Lines 922-932: the loop over [command].  The argument that follows
    a credential option is skipped and shown as three stars (also when
    the option is the last argument and there is nothing to skip). *)
Fixpoint safe_command (command : list string) : list string :=
  match command with
  | [] => []
  | arg :: rest =>
      if String.eqb arg "--username" || String.eqb arg "--password" then
        arg :: "***" :: match rest with
                        | [] => []
                        | _ :: rest' => safe_command rest'
                        end
      else arg :: safe_command rest
  end.

Definition _get_safe_command_string (command : list string) : string :=
  Py.join " " (safe_command command).

(** The four arguments that follow the credentials on the command
    line, none of which is a secret. *)
Definition public_flags : list string :=
  ["--non-interactive"; "--trust-server-cert"; "--trust-server-cert-failures";
   "unknown-ca,cn-mismatch,expired,not-yet-valid,other"].

(** A record of the log that shows the command line: the string of
    [_get_safe_command_string], or the argument list as it is. *)
Inductive CommandRecord : Type :=
| Masked (level shown : string)
| Verbatim (level : string) (command : list string).

(** Lines 992-996, 1012-1015 and 1048 of [_run_svn_command]: the
    records one activation writes about the command line it ran, given
    how the process ended. *)
Definition command_records (output_raw_log : bool) (command : list string) (r : Proc)
  : list CommandRecord :=
  match r with
  | Completed stdout =>
      if Py.truthy stdout && output_raw_log
      then [Masked "INFO" (_get_safe_command_string command)] else []
  | CalledProcessError error_message =>
      Masked "INFO" (_get_safe_command_string command) ::
      (if Py.contains "locked" (Py.lower error_message)
          || Py.contains "cleanup" (Py.lower error_message)
       then [] else [Verbatim "ERROR" command])
  | OSError => []
  end.

(** ** Configuration: sections, repositories, detection mode *)

(** Lines 365-372.  [config] lists the sections of [self.config] in
    order, each with its options (the parser's [DEFAULT] section, from
    which every section would inherit, is empty: the loader fills it
    only if the sheet names it); the result is the dict
    [self.repositories], in insertion order. *)
Definition _get_repositories (config : list (string * gmap string string))
  : list (string * gmap string string) :=
  List.fold_left
    (fun repositories '(section, options) =>
       if Py.startswith section "REPO_"
       then dict_set (Py.drop 5 section) options repositories
       else repositories)
    config [].

(** Lines 456-461, [config_SYSTEM] being [self.config['SYSTEM']] when
    the section exists. *)
Definition _get_remote_check_setting (config_SYSTEM : option (gmap string string))
  : bool :=
  match config_SYSTEM with
  | Some system =>
      match system !! "use_remote_check" with
      | Some value => bool_decide (Py.lower value ∈ ["true"; "1"; "yes"; "on"])
      | None => false
      end
  | None => false
  end.

(** Lines 2299-2302: [min(int(...) for repo_config in ...)], which
    raises on an empty dict and on an interval that is not a number. *)
Definition DEFAULT_CHECK_INTERVAL : Z := 300.

Definition check_interval (repo_config : gmap string string) : option Z :=
  Py.int (Py.get repo_config "check_interval" (Py.str DEFAULT_CHECK_INTERVAL)).

Fixpoint min_check_interval (repositories : list (string * gmap string string))
  : Outcome Z :=
  match repositories with
  | [] => Raise
  | (_, repo_config) :: rest =>
      match check_interval repo_config with
      | None => Raise
      | Some first =>
          match rest with
          | [] => Return first
          | _ =>
              match min_check_interval rest with
              | Return least => Return (Z.min first least)
              | Raise => Raise
              end
          end
      end
  end.

(** ** RepositoryClient: [get_latest_revision] and [get_changes] *)

(** What [get_changes] returns: the parsed records, or the single
    record of its outer [except], which alone carries [ai_analysis]. *)
Inductive Fetched : Type :=
| Records (changes : list ChangeRecord)
| Fallback (change : ChangeRecord) (ai_analysis : string).

Definition changes_of (f : Fetched) : list ChangeRecord :=
  match f with
  | Records changes => changes
  | Fallback change _ => [change]
  end.

Definition outcome_value {A : Type} (o : Outcome A) : option A :=
  match o with
  | Return a => Some a
  | Raise => None
  end.

Module RepositoryClient.

Section Client.

Variable fromstring : string -> ET.Parse.
Variable tostring : ET.Element -> string.
Context {datetime : Type}.
Variable fromisoformat : string -> option datetime.
Variable strftime : datetime -> string.

(** The wall clock as read by the parser (see above) and by
    [get_changes] itself: [get_beijing_time_str()] on an early return,
    [get_beijing_time().isoformat()] in its outer [except]. *)
Variable get_beijing_time_str : nat -> string.
Variable get_beijing_time_iso : string.
Variable early_time_str : string.
Variable fallback_time_iso : string.

(** [self.use_remote_check]. *)
Variable use_remote_check : bool.

(** [self._run_svn_command(cmd, repo_config, working_dir=...)]: the
    output, [Some ""] for a swallowed failure, [None] when it raises. *)
Variable _run_svn_command
  : list string -> gmap string string -> option string -> option string.

(** [self._ensure_working_copy(repo_config)]: whether it returns. *)
Variable _ensure_working_copy : gmap string string -> bool.

(** Lines 1125-1157. *)
Definition get_latest_revision (repo_config : gmap string string) : Outcome Z :=
  if use_remote_check then
    let repo_url := repo_url_of repo_config in
    if negb (Py.truthy repo_url) then Raise
    else
      match _run_svn_command ["svn"; "info"; repo_url; "--show-item"; "revision"]
                             repo_config None with
      | Some output =>
          if negb (Py.truthy output) then Return 0
          else match Py.int output with
               | Some n => Return n
               | None => Raise
               end
      | None => Raise
      end
  else
    if _ensure_working_copy repo_config then
      match repo_config !! "local_working_copy" with
      | Some working_copy =>
          match _run_svn_command ["svn"; "info"; "--show-item"; "revision"]
                                 repo_config (Some working_copy) with
          | Some output =>
              match Py.int output with
              | Some n => Return n
              | None => Raise
              end
          | None => Raise
          end
      | None => Raise
      end
    else Raise.

Definition early_record (to_revision : Z) (msg repo_name : string) : ChangeRecord :=
  mkChange to_revision (Some "unknown") early_time_str msg [] repo_name.

(** Lines 1303-1313: the command of the local mode. *)
Definition local_log_cmd (from_revision to_revision : Z) : list string :=
  let revision_gap := to_revision - from_revision in
  let limit_option :=
    if 0 <? revision_gap then "-l " ++ Py.str revision_gap else "-l 1" in
  let revision_range :=
    if 1 <? from_revision
    then "-r" ++ Py.str (from_revision + 1) ++ ":" ++ Py.str to_revision
    else "-r1:" ++ Py.str to_revision in
  ["svn"; "log"; revision_range; limit_option; "--xml"; "--verbose"].

(** Lines 1248-1353. *)
Definition get_changes (from_revision to_revision : Z)
           (repo_config : gmap string string) : Fetched :=
  if bool_decide (repo_config = ∅) then
    Records [early_record to_revision "Invalid repository configuration"
                          "Unknown Repository"]
  else
    let repo_name := Py.get repo_config "name" "Unnamed Repository" in
    let parse := _parse_svn_log fromstring fromisoformat strftime
                                get_beijing_time_str get_beijing_time_iso in
    let failed :=
      Fallback (mkChange to_revision (Some "unknown") fallback_time_iso
                         "Unable to parse commit details" [] repo_name)
               "Unable to parse commit details" in
    if use_remote_check then
      if negb (Py.truthy (repo_url_of repo_config)) then
        Records [early_record to_revision "Missing repository URL configuration"
                              repo_name]
      else
        Records (parse (_get_paginated_svn_log
                          fromstring tostring
                          (fun cmd => _run_svn_command cmd repo_config None)
                          repo_config from_revision to_revision)
                       repo_name)
    else
      match repo_config !! "local_working_copy" with
      | None =>
          Records [early_record to_revision "Missing local_working_copy configuration"
                                repo_name]
      | Some working_copy =>
          if _ensure_working_copy repo_config then
            match _run_svn_command (local_log_cmd from_revision to_revision)
                                   repo_config (Some working_copy) with
            | Some output => Records (parse output repo_name)
            | None => failed
            end
          else failed
      end.

(** The answers of one operation when they come from the repository
    client: the scheduler asks by repository name, the client is handed
    the configuration listed under that name. *)
Definition env_of (repositories : list (string * gmap string string))
           (deliver : list ChangeRecord -> bool)
           (write_ok : option string -> bool) : Env :=
  mkEnv (fun repo_name =>
           config_of repositories repo_name ≫=
             (fun repo_config => outcome_value (get_latest_revision repo_config)))
        (fun repo_name last_revision latest_revision =>
           match config_of repositories repo_name with
           | Some repo_config =>
               changes_of (get_changes last_revision latest_revision repo_config)
           | None => []
           end)
        deliver write_ok.

End Client.

End RepositoryClient.

(** ** Notification: change type, envelope recipients, name mapping *)

(** Lines 1700-1736 (and 1858-1897): the label and the colour of one
    revision in the message body, from the set of its actions. *)
Definition change_type (changed_paths : list PathChange) : string * string :=
  match changed_paths with
  | [] => ("None", "grey")
  | _ =>
      let actions : gset string := list_to_set (action <$> changed_paths) in
      if bool_decide ("D" ∈ actions) then ("Deleted", "red")
      else if (1 <? size actions)%nat then ("Mixed", "orange")
      else if bool_decide ("M" ∈ actions) then ("Modified", "blue")
      else if bool_decide ("A" ∈ actions) then ("Added", "green")
      else ("Other", "black")
  end.

(** Lines 1986-1988 of [_send_email]: the envelope recipients, read
    back from the [To] header. *)
Definition recipients_list (msg : Message) : list string :=
  List.filter Py.truthy (List.map Py.strip (Py.split "," (msg_to msg))).

(** Lines 485-551.  A row of the sheet is the text of its
    [Repository ID] and [Repository Name] cells ([None] for a cell that
    [pd.notna] rejects); there is no row when one of the two columns is
    missing, and the sheet is [None] when there is no file or reading
    it raises.  The texts that are not ASCII are the UTF-8 bytes of
    the source's literals. *)
Definition warehouse : string := "仓库".

Definition _get_default_repo_mapping : gmap string string :=
  list_to_map
    [("REPO_1", "采购仓库"); ("REPO_2", "生产仓库"); ("REPO_3", "研发仓库");
     ("REPO_4", "质量仓库"); ("REPO_5", "售后仓库");
     ("采购仓库", "REPO_1"); ("生产仓库", "REPO_2"); ("研发仓库", "REPO_3");
     ("质量仓库", "REPO_4"); ("售后仓库", "REPO_5");
     ("采购", "REPO_1"); ("生产", "REPO_2"); ("研发", "REPO_3");
     ("质量", "REPO_4"); ("售后", "REPO_5");
     ("Procurement", "采购仓库"); ("Production", "生产仓库")].

Definition add_name_row (mapping : gmap string string)
           (row : option string * option string) : gmap string string :=
  match row with
  | (Some repo_id, Some repo_name) =>
      let repo_id_str := Py.strip repo_id in
      let repo_name_str := Py.strip repo_name in
      <[repo_name_str := repo_id_str]>
        (<[repo_name_str ++ warehouse := repo_id_str]>
           (<[repo_id_str := repo_name_str ++ warehouse]> mapping))
  | _ => mapping
  end.

Definition _load_repo_name_mapping
           (sheet : option (list (option string * option string)))
  : gmap string string :=
  match sheet with
  | Some rows =>
      <["Production" := "生产仓库"]>
        (<["Procurement" := "采购仓库"]> (List.fold_left add_name_row rows ∅))
  | None => _get_default_repo_mapping
  end.

(** ** Configuration: [_validate_config] *)

Section Validation.

(** [os.path.join(os.getcwd(), 'svn_wc', 'repo_1')], and the default
    working copy of a repository,
    [os.path.join(<script directory>, 'svn_wc', repo_name)]. *)
Variable cwd_working_copy : string.
Variable default_working_copy : string -> string.

(** [self.config[section][key] = value] (the section exists wherever
    the validator writes). *)
Definition set_option (section key value : string)
           (config : list (string * gmap string string))
  : list (string * gmap string string) :=
  match config_of config section with
  | Some options => dict_set section (<[key := value]> options) config
  | None => config
  end.

(** [if key not in self.config[section]: self.config[section][key] = value] *)
Definition set_missing (section key value : string)
           (config : list (string * gmap string string))
  : list (string * gmap string string) :=
  match config_of config section with
  | Some options =>
      if bool_decide (is_Some (options !! key)) then config
      else set_option section key value config
  | None => config
  end.

(** [if section not in self.config: self.config[section] = {}] *)
Definition ensure_section (config : list (string * gmap string string))
           (section : string) : list (string * gmap string string) :=
  match config_of config section with
  | Some _ => config
  | None => dict_set section ∅ config
  end.

(** Lines 410-421. *)
Definition default_repository : gmap string string :=
  list_to_map
    [("name", "Demo Repository");
     ("repository_path", "https://svn.apache.org/repos/asf/subversion/trunk");
     ("username", ""); ("password", "");
     ("check_interval", Py.str DEFAULT_CHECK_INTERVAL);
     ("local_working_copy", cwd_working_copy);
     ("enable_notifications", "False"); ("enable_backup", "False")].

(** Lines 2232-2273.  The result is the validated [self.config] and,
    when a default repository was created, the configuration that
    [_create_default_repository_config] tries to write to the
    configuration file. *)
Definition _validate_config (config : list (string * gmap string string))
  : list (string * gmap string string) * option (list (string * gmap string string)) :=
  let config := List.fold_left ensure_section ["EMAIL"; "LOGGING"; "SYSTEM"] config in
  let config := set_missing "SYSTEM" "auto_startup" "True" config in
  let config := set_missing "SYSTEM" "use_remote_check" "True" config in
  match _get_repositories config with
  | [] =>
      let config := dict_set "REPO_1" default_repository config in
      (config, Some config)
  | repositories =>
      (List.fold_left
         (fun config '(repo_name, repo_config) =>
            if bool_decide (is_Some (repo_config !! "local_working_copy")) then config
            else set_option ("REPO_" ++ repo_name) "local_working_copy"
                            (default_working_copy repo_name) config)
         repositories config,
       None)
  end.

End Validation.

(** ** The status report of a pass: [send_status_email] *)

(** [check_result], the dict [run] hands to [send_status_email]. *)
Record CheckResult : Type := mkCheckResult {
  check_time : string;
  total_repos : nat;
  repos_with_changes : nat;
  total_changes : nat;
  repos_checked : list string;
  check_errors : list string
}.

(** What the body of the report shows: the subject, the four counts of
    the overview (repositories monitored, repositories checked,
    repositories with changes, changes), one row per checked
    repository (identifier, display name, status) and one row per
    error. *)
Record StatusReport : Type := mkStatusReport {
  status_subject : string;
  status_counts : nat * nat * nat * nat;
  status_rows : list (string * string * string);
  status_errors : list string
}.

Definition status_recipient : string := "pyc@lektec.com".

Section StatusMail.

Variable repo_name_mapping : gmap string string.
Variable config_EMAIL : option (gmap string string).
Variable smtp : nat -> Message -> Attempt.

(** [self.repo_name_mapping.items()], in the order of the dict. *)
Variable items_order : gmap string string -> list (string * string).

(** Lines 2105-2132: the row of one repository.  [has_change] is
    [False] on every path, so the status is always the same. *)
Definition status_row (repo_name : string) : string * string * string :=
  let chinese_repo_name := default repo_name (repo_name_mapping !! repo_name) in
  let repo_id :=
    match List.find
            (fun '(key, value) =>
               Py.startswith key "REPO_"
               && (String.eqb value chinese_repo_name || String.eqb key repo_name))
            (items_order repo_name_mapping) with
    | Some (key, _) => key
    | None => repo_name
    end in
  (repo_id, chinese_repo_name, "正常").

(** Lines 2059-2166. *)
Definition status_report (check_result : CheckResult) : StatusReport :=
  mkStatusReport
    ("SVN监控程序运行状态报告 - " ++ check_time check_result)
    (total_repos check_result, length (repos_checked check_result),
     repos_with_changes check_result, total_changes check_result)
    (List.map status_row (repos_checked check_result))
    (check_errors check_result).

Definition status_skipped_incomplete : list Event :=
  [Log "WARNING" "状态邮件发送跳过：邮件配置不完整";
   Operation "WARNING" "状态邮件发送跳过：邮件配置不完整"].

Definition status_skipped_no_credentials : list Event :=
  [Log "INFO" "状态邮件发送跳过：未配置有效的SMTP凭证";
   Operation "INFO" "状态邮件发送跳过：未配置有效的SMTP凭证"].

(** Lines 2020-2192: the outcome, what is logged and done on the way,
    and the report that was composed, if any.  The message goes from
    [from_email] to the fixed status address; it carries no change
    group, its body is the report. *)
Definition send_status_email (check_result : CheckResult)
  : bool * list Event * option StatusReport :=
  match config_EMAIL with
  | None => (false, status_skipped_incomplete, None)
  | Some email =>
      if negb (bool_decide (is_Some (email !! "smtp_server"))
               && bool_decide (is_Some (email !! "from_email")))
      then (false, status_skipped_incomplete, None)
      else if negb (credentials_configured email)
      then (false, status_skipped_no_credentials, None)
      else
        let msg := mkMessage (Py.get email "from_email" "") status_recipient [] in
        let '(success, events) := _send_email config_EMAIL smtp msg in
        (success,
         (events ++
          if success
          then [Log "INFO" "程序运行状态邮件发送成功";
                Operation "SUCCESS" "程序运行状态邮件发送成功"]
          else [Log "WARNING" "程序运行状态邮件发送失败";
                Operation "WARNING" "程序运行状态邮件发送失败"])%list,
         Some (status_report check_result))
  end.

End StatusMail.

(** ** One pass of the polling loop *)

Section Pass.

Variable repositories : list (string * gmap string string).
Variable repo_name_mapping : gmap string string.
Variable config_EMAIL : option (gmap string string).
Variable smtp : nat -> Message -> Attempt.
Variable items_order : gmap string string -> list (string * string).

(** [get_beijing_time_str()] when the check result is put together. *)
Variable check_time_str : string.

(** Lines 2497-2505. *)
Definition check_result_of (rep : CycleReport) : CheckResult :=
  mkCheckResult check_time_str (length repositories)
                (length (changes_to_update rep)) (length (all_changes rep))
                (repositories.*1) (errors rep).

(** Lines 2426-2511, the body of the loop of [run] once the interval
    has elapsed: the watermarks are checked and the changes dispatched
    ([cycle]), then the status report of the pass is sent, whatever
    the pass found.  The result lists what the pass did to the
    monitor, what it found, and the outcome of [send_status_email]. *)
Definition pass (env : Env) (m : Monitor)
  : Monitor * CycleReport * (bool * list Event * option StatusReport) :=
  let '(m', rep) := cycle repositories env m in
  (m', rep,
   send_status_email repo_name_mapping config_EMAIL smtp items_order (check_result_of rep)).

End Pass.

(** ** Notions used to state the properties *)

(** [config'] has the sections and the options of [config], and
    possibly more. *)
Definition extends (config config' : list (string * gmap string string)) : Prop :=
  forall section options,
    config_of config section = Some options ->
    exists options', config_of config' section = Some options' /\ options ⊆ options'.

(** What holds of every record made for the repository [repo_name]:
    it is tagged with that name, none of its paths is blank, and its
    message has no surrounding blanks. *)
Definition well_formed_record (repo_name : string) (c : ChangeRecord) : Prop :=
  repository c = repo_name /\
  Forall (fun p => Py.truthy (Py.strip (path p)) = true) (changed_paths c) /\
  Py.strip (message c) = message c.

(** What [_get_repositories] keeps of one section. *)
Definition repository_of (entry : string * gmap string string)
  : option (string * gmap string string) :=
  if Py.startswith entry.1 "REPO_" then Some (Py.drop 5 entry.1, entry.2) else None.

(** The characters of a string. *)
Fixpoint occurs (c : ascii) (s : string) : Prop :=
  match s with
  | String d s' => c = d \/ occurs c s'
  | EmptyString => False
  end.

(** An address as the dispatcher keeps it: not blank, not the text of
    an empty cell, trimmed, and free of separators. *)
Definition clean_address (a : string) : Prop :=
  a <> "" /\ Py.lower a <> "nan" /\ Py.strip a = a /\
  ~ occurs "," a /\ ~ occurs ";" a.

(** The changes of one repository. *)
Definition of_repo (repo_name : string) (c : ChangeRecord) : bool :=
  String.eqb (repository c) repo_name.

(** The keys a row of the sheet writes. *)
Definition name_keys (row : option string * option string) : list string :=
  match row with
  | (Some repo_id, Some repo_name) =>
      [Py.strip repo_id; Py.strip repo_name ++ warehouse; Py.strip repo_name]
  | _ => []
  end.

(** The revision number an entry carries: that of its [revision]
    attribute, 0 without the attribute, none when the attribute does
    not read as an integer. *)
Definition revision_number (logentry : ET.Element) : option Z :=
  match ET.get logentry "revision" with
  | Some r => Py.int r
  | None => Some 0
  end.

(** The [logentry] elements of a document, in document order. *)
Definition log_entries (root : ET.Element) : list ET.Element :=
  List.filter (ET.has_tag "logentry") (ET.descendants root).

(** The recipients listed under [key], as one string; [""] when [key]
    has no entry. *)
Definition listed (recipients_mapping : gmap string (list string)) (key : string) : string :=
  match recipients_mapping !! key with
  | Some recipients => Py.join ", " recipients
  | None => ""
  end.

(** The six sources of a repository's recipients, in the order they
    are tried: the identifier itself, its alias in the name mapping, the
    identifier with [REPO_] added, the identifier with [REPO_] removed,
    the addresses [union] of all repositories, and the default list. *)
Definition sources_in_order (recipients_mapping : gmap string (list string))
           (repo_name_mapping : gmap string string)
           (union : list string) (default_recipients : string) (repo_name : string)
  : list string :=
  [ listed recipients_mapping repo_name;
    match repo_name_mapping !! repo_name with
    | Some alias => if Py.truthy alias then listed recipients_mapping alias else ""
    | None => ""
    end;
    listed recipients_mapping ("REPO_" ++ repo_name);
    if Py.startswith repo_name "REPO_"
    then listed recipients_mapping (Py.drop 5 repo_name) else "";
    Py.join ", " union;
    default_recipients ].



(** ** An executable instance of the ElementTree interface

    A small well-formedness checker, tree builder and serializer for the
    fragment of XML that [svn log --xml] emits (declaration, elements,
    quoted attributes, character data, the five predefined entities),
    reporting expat's message for each failure.  It serves to evaluate
    the embedding on concrete documents; the general theorems are stated
    for an arbitrary [fromstring]. *)

Module ETModel.

Import ET.

Definition dquote : ascii := ascii_of_nat 34.

Inductive Token : Type :=
| TOpen (name : string) (attrs : list (string * string)) (selfclose : bool)
| TClose (name : string)
| TText (s : string)
| TPI (target : string) (at_start : bool)
| TBad (msg : string).

(** [s] up to the first occurrence of [stop], and what follows it. *)
Fixpoint split_on (stop s : string) : option (string * string) :=
  if String.prefix stop s then Some ("", Py.drop (String.length stop) s)
  else match s with
       | String c s' =>
           match split_on stop s' with
           | Some (a, b) => Some (String c a, b)
           | None => None
           end
       | EmptyString => None
       end.

(** The character data up to the next ["<"]. *)
Fixpoint span_text (s : string) : string * string :=
  match s with
  | String c s' =>
      if Ascii.eqb c "<" then ("", s)
      else let '(a, b) := span_text s' in (String c a, b)
  | EmptyString => ("", "")
  end.

Definition entities : list (string * string) :=
  [("lt;", "<"); ("gt;", ">"); ("amp;", "&");
   ("quot;", String dquote ""); ("apos;", "'")].

Definition entity (s : string) : option (string * string) :=
  (fix go (l : list (string * string)) :=
     match l with
     | [] => None
     | (name, c) :: l' =>
         if String.prefix name s
         then Some (c, Py.drop (String.length name) s) else go l'
     end) entities.

(** Character data with its entity references replaced. *)
Fixpoint unescape (fuel : nat) (s : string) : option string :=
  match fuel, s with
  | _, EmptyString => Some ""
  | O, _ => None
  | S f, String c s' =>
      if Ascii.eqb c "&" then
        match entity s' with
        | Some (r, rest) => String.append r <$> unescape f rest
        | None => None
        end
      else String c <$> unescape f s'
  end.

Inductive TagMode : Type :=
| InName | Between | InAttrName | AfterEq | InValue (q : ascii) | AfterSlash.

(** The inside of a start tag, after ["<"]: element name, attributes,
    whether it closes itself, and the text after [">"]. *)
Fixpoint scan_tag (s : string) (m : TagMode) (name : string)
         (attrs : list (string * string)) (k v : string)
  : option (string * list (string * string) * bool * string) :=
  match s with
  | EmptyString => None
  | String c s' =>
      match m with
      | InName =>
          if Ascii.eqb c ">" then Some (name, attrs, false, s')
          else if Ascii.eqb c "/" then scan_tag s' AfterSlash name attrs k v
          else if Py.isspace c then scan_tag s' Between name attrs k v
          else scan_tag s' InName (name ++ String c "") attrs k v
      | Between =>
          if Ascii.eqb c ">" then Some (name, attrs, false, s')
          else if Ascii.eqb c "/" then scan_tag s' AfterSlash name attrs k v
          else if Py.isspace c then scan_tag s' Between name attrs k v
          else scan_tag s' InAttrName name attrs (String c "") ""
      | InAttrName =>
          if Ascii.eqb c "=" then scan_tag s' AfterEq name attrs k v
          else if Py.isspace c then scan_tag s' InAttrName name attrs k v
          else scan_tag s' InAttrName name attrs (k ++ String c "") v
      | AfterEq =>
          if Ascii.eqb c dquote || Ascii.eqb c "'"
          then scan_tag s' (InValue c) name attrs k ""
          else if Py.isspace c then scan_tag s' AfterEq name attrs k v
          else None
      | InValue q =>
          if Ascii.eqb c q then
            match unescape (String.length v) v with
            | Some v' => scan_tag s' Between name (attrs ++ [(k, v')]) "" ""
            | None => None
            end
          else if Ascii.eqb c "<" then None
          else scan_tag s' (InValue q) name attrs k (v ++ String c "")
      | AfterSlash =>
          if Ascii.eqb c ">" then Some (name, attrs, true, s') else None
      end
  end.

Definition invalid_token : string := "not well-formed (invalid token)".
Definition unclosed_token : string := "unclosed token".

Fixpoint tokenize (fuel : nat) (s : string) (at_start : bool) : list Token :=
  match fuel, s with
  | _, EmptyString => []
  | O, _ => [TBad unclosed_token]
  | S f, String c rest =>
      if Ascii.eqb c "<" then
        match rest with
        | String "?" r =>
            match split_on "?>" r with
            | Some (body, after) =>
                let target := fst (default (body, "") (split_on " " body)) in
                TPI target at_start :: tokenize f after false
            | None => [TBad unclosed_token]
            end
        | String "/" r =>
            match split_on ">" r with
            | Some (name, after) => TClose (Py.strip name) :: tokenize f after false
            | None => [TBad unclosed_token]
            end
        | String "!" _ => [TBad invalid_token]
        | _ =>
            match scan_tag rest InName "" [] "" "" with
            | Some (EmptyString, _, _, _) => [TBad invalid_token]
            | Some (name, attrs, sc, after) =>
                TOpen name attrs sc :: tokenize f after false
            | None => [TBad invalid_token]
            end
        end
      else
        let '(txt, after) := span_text s in
        match unescape (String.length txt) txt with
        | Some t => TText t :: tokenize f after false
        | None => [TBad invalid_token]
        end
  end.

(** An element under construction: character data seen so far goes to
    [f_text] until the first child, then to the tail of the last child. *)
Record Frame : Type := mkFrame {
  f_tag : string;
  f_attrs : list (string * string);
  f_text : string;
  f_children : list Element       (* most recent first *)
}.

Definition opt_text (s : string) : option string :=
  match s with EmptyString => None | _ => Some s end.

Definition add_text (t : string) (f : Frame) : Frame :=
  match f_children f with
  | [] => mkFrame (f_tag f) (f_attrs f) (f_text f ++ t) []
  | Elem tg a x cs tl :: r =>
      mkFrame (f_tag f) (f_attrs f) (f_text f)
              (Elem tg a x cs (opt_text (default "" tl ++ t)) :: r)
  end.

Definition add_child (e : Element) (f : Frame) : Frame :=
  mkFrame (f_tag f) (f_attrs f) (f_text f) (e :: f_children f).

Definition close_frame (f : Frame) : Element :=
  Elem (f_tag f) (f_attrs f) (opt_text (f_text f)) (List.rev (f_children f)) None.

Fixpoint build (toks : list Token) (stack : list Frame) (root : option Element)
  : Parse :=
  match toks with
  | [] =>
      match stack, root with
      | [], Some r => Parsed r
      | _, _ => ParseError "no element found"
      end
  | TBad msg :: _ => ParseError msg
  | TPI target at_start :: rest =>
      if String.eqb target "xml" && negb at_start
      then ParseError "XML or text declaration not at start of entity"
      else build rest stack root
  | TText t :: rest =>
      match stack with
      | f :: st => build rest (add_text t f :: st) root
      | [] =>
          if Py.truthy (Py.strip t) then
            ParseError (match root with
                        | Some _ => "junk after document element"
                        | None => "syntax error"
                        end)
          else build rest [] root
      end
  | TOpen name attrs sc :: rest =>
      match stack, root with
      | [], Some _ => ParseError "junk after document element"
      | [], None =>
          if sc then build rest [] (Some (Elem name attrs None [] None))
          else build rest [mkFrame name attrs "" []] None
      | f :: st, _ =>
          if sc then build rest (add_child (Elem name attrs None [] None) f :: st) root
          else build rest (mkFrame name attrs "" [] :: f :: st) root
      end
  | TClose name :: rest =>
      match stack with
      | [] => ParseError "syntax error"
      | f :: st =>
          if String.eqb name (f_tag f) then
            match st with
            | [] => build rest [] (Some (close_frame f))
            | parent :: st' => build rest (add_child (close_frame f) parent :: st') root
            end
          else ParseError "mismatched tag"
      end
  end.

Definition fromstring (s : string) : Parse :=
  build (tokenize (String.length s) s true) [] None.

Fixpoint escape (attr : bool) (s : string) : string :=
  match s with
  | EmptyString => ""
  | String c s' =>
      (if Ascii.eqb c "&" then "&amp;"
       else if Ascii.eqb c "<" then "&lt;"
       else if Ascii.eqb c ">" then "&gt;"
       else if attr && Ascii.eqb c dquote then "&quot;"
       else String c "") ++ escape attr s'
  end.

Definition attr_string (kv : string * string) : string :=
  " " ++ fst kv ++ "=" ++ String dquote (escape true (snd kv)) ++ String dquote "".

(** [ET.tostring(e, encoding='unicode')] *)
Fixpoint tostring (e : Element) : string :=
  let 'Elem tg a x cs tl := e in
  "<" ++ tg ++ String.concat "" (List.map attr_string a) ++
  match x, cs with
  | None, [] => " />"
  | _, _ =>
      ">" ++ escape false (default "" x) ++
      (fix each (l : list Element) : string :=
         match l with
         | [] => ""
         | c :: l' => tostring c ++ each l'
         end) cs ++
      "</" ++ tg ++ ">"
  end ++ escape false (default "" tl).

End ETModel.

(** ** An executable instance of the [datetime] interface

    [fromisoformat] for the layout
    [YYYY-MM-DD[*HH[:MM[:SS[.fff[fff]]]][+HH:MM]]] and
    [strftime('%Y-%m-%d %H:%M:%S')]. *)

Module DateModel.

Record datetime : Type := mkDatetime {
  year : nat; month : nat; day : nat;
  hour : nat; minute : nat; second : nat
}.

(** Exactly [n] decimal digits. *)
Fixpoint num (n : nat) (acc : nat) (s : string) : option (nat * string) :=
  match n with
  | O => Some (acc, s)
  | S n' =>
      match s with
      | String c s' =>
          match Py.digit_val c with
          | Some d => num n' (10 * acc + Z.to_nat d)%nat s'
          | None => None
          end
      | EmptyString => None
      end
  end.

Definition expect (c : ascii) (s : string) : option string :=
  match s with
  | String d s' => if Ascii.eqb c d then Some s' else None
  | EmptyString => None
  end.

Definition leap (y : nat) : bool :=
  ((y mod 4 =? 0) && negb (y mod 100 =? 0) || (y mod 400 =? 0))%nat.

Definition days_in_month (y m : nat) : nat :=
  match m with
  | 2 => if leap y then 29 else 28
  | 4 | 6 | 9 | 11 => 30
  | _ => 31
  end%nat.

(** A UTC offset [+HH:MM] or [-HH:MM], or nothing. *)
Definition offset_ok (s : string) : bool :=
  match s with
  | EmptyString => true
  | String c s' =>
      (Ascii.eqb c "+" || Ascii.eqb c "-") &&
      match num 2 0 s' with
      | Some (h, s1) =>
          match expect ":" s1 with
          | Some s2 =>
              match num 2 0 s2 with
              | Some (m, EmptyString) => (h <? 24)%nat && (m <? 60)%nat
              | _ => false
              end
          | None => false
          end
      | None => false
      end
  end.

Definition fraction_ok (s : string) : option string :=
  match expect "." s with
  | Some s1 =>
      match num 6 0 s1 with
      | Some (_, s2) => Some s2
      | None => snd <$> num 3 0 s1
      end
  | None => Some s
  end.

Definition time_of (y m d : nat) (s : string) : option datetime :=
  '(hh, s) ← num 2 0 s;
  '(mi, ss, s) ← match expect ":" s with
                 | Some s1 =>
                     '(mi, s2) ← num 2 0 s1;
                     match expect ":" s2 with
                     | Some s3 =>
                         '(ss, s4) ← num 2 0 s3;
                         s5 ← fraction_ok s4; Some (mi, ss, s5)
                     | None => Some (mi, 0%nat, s2)
                     end
                 | None => Some (0%nat, 0%nat, s)
                 end;
  if ((hh <? 24) && (mi <? 60) && (ss <? 60))%nat && offset_ok s
  then Some (mkDatetime y m d hh mi ss) else None.

Definition fromisoformat (s : string) : option datetime :=
  '(y, s) ← num 4 0 s; s ← expect "-" s;
  '(m, s) ← num 2 0 s; s ← expect "-" s;
  '(d, s) ← num 2 0 s;
  if ((1 <=? y) && (1 <=? m) && (m <=? 12) && (1 <=? d)
      && (d <=? days_in_month y m))%nat
  then match s with
       | EmptyString => Some (mkDatetime y m d 0 0 0)
       | String _ s' => time_of y m d s'
       end
  else None.

Definition digit (n : nat) : string :=
  String (ascii_of_nat (48 + n mod 10)) "".

Definition pad2 (n : nat) : string := digit (n / 10) ++ digit n.
Definition pad4 (n : nat) : string := pad2 (n / 100) ++ pad2 (n mod 100).

Definition strftime (t : datetime) : string :=
  pad4 (year t) ++ "-" ++ pad2 (month t) ++ "-" ++ pad2 (day t) ++ " " ++
  pad2 (hour t) ++ ":" ++ pad2 (minute t) ++ ":" ++ pad2 (second t).

End DateModel.

(** ** Sample inputs *)

Module Samples.

(** [_parse_svn_log] over the executable instances, at a given time. *)
Definition parse_at (now_str now_iso : string) : string -> string -> list ChangeRecord :=
  _parse_svn_log ETModel.fromstring DateModel.fromisoformat DateModel.strftime
                 (fun _ => now_str) now_iso.

Definition morning := parse_at "2024-05-01 08:00:00" "2024-05-01T08:00:00+08:00".
Definition evening := parse_at "2024-05-01 20:00:00" "2024-05-01T20:00:00+08:00".

(** Two valid entries around one whose revision is not a number. *)
Definition mixed_log : string :=
"<?xml version='1.0' encoding='UTF-8'?>
<log>
<logentry revision='41'><author>alice</author><date>2024-03-01T09:15:00.000000Z</date><msg>first</msg><paths><path action='A'>/trunk/a.c</path></paths></logentry>
<logentry revision='4x2'><author>bob</author><date>2024-03-01T09:20:00.000000Z</date><msg>broken</msg></logentry>
<logentry revision='43'><author>carol</author><date>2024-03-01T09:30:00.000000Z</date><msg>third</msg><paths><path action='M'>/trunk/a.c</path></paths></logentry>
</log>".

Definition mixed_root : ET.Element :=
  Eval vm_compute in
    default (ET.Element_with "log" []) (recovered ETModel.fromstring mixed_log).

(** An entry whose timestamp does not decode. *)
Definition undated_log : string :=
  "<log><logentry revision='7'><author>dave</author><date>yesterday</date><msg>fix</msg></logentry></log>".

(** A document cut short. *)
Definition truncated_log : string := "<log><logentry revision='7'>".

(** A working copy that stays locked: every process, the command and
the cleanup alike, fails with svn's lock error, and there is no lock
file to remove by hand. *)
Definition lock_error : string := "svn: E155004: Working copy '/wc' locked".

Definition always_locked (n : nat) (command : list string) : Proc :=
  CalledProcessError lock_error.

Definition run_locked (depth : nat) (command : list string) (is_retry : bool)
           (sh : Shell) : Outcome string * Shell :=
  _run_svn_command always_locked (fun _ => true) (fun _ _ => false) None
                   depth command None (Some "/wc") is_retry sh.

(** A mail configuration that is complete but has a blank password. *)
Definition email_without_password : gmap string string :=
  list_to_map [("smtp_server", "smtp.example.org"); ("smtp_port", "465");
               ("from_email", "svn@example.org"); ("to_emails", "team@example.org");
               ("username", "svn@example.org"); ("password", "   ")].

Definition email_complete : gmap string string :=
  <["password" := "secret"]> email_without_password.

Definition one_change : ChangeRecord :=
  mkChange 43 (Some "carol") "2024-03-01 09:30:00" "third"
           [mkPathChange "/trunk/a.c" "M"] "Procurement".

Definition recipients_by_repo : gmap string (list string) :=
  _load_recipients_from_excel
    [("REPO_1", "ann@example.org; bob@example.org"); ("Sales", "cat@example.org")].

Definition name_mapping : gmap string string :=
  list_to_map [("Procurement", "REPO_1")].

(** A transport that refuses the first two attempts and then accepts. *)
Definition flaky_smtp (n : nat) (msg : Message) : Attempt :=
  if (n <? 2)%nat then mkAttempt Done Done Done SMTPException Done
  else mkAttempt Done Done Done Done Done.

(** Two repositories: [A] notifies, [B] does not. *)
Definition repos : list (string * gmap string string) :=
  [("A", list_to_map [("repository_path", "/repos/a"); ("notify_on_changes", "True")]);
   ("B", list_to_map [("repository_path", "/repos/b"); ("notify_on_changes", "False")])].

Definition change_of (repo_name : string) (rev : Z) : ChangeRecord :=
  mkChange rev (Some "carol") "2024-03-01 09:30:00" "work" [] repo_name.

(** [A] is at revision 5 and [B] at 9; the mail server is down. *)
Definition mail_down : Env :=
  mkEnv (fun r => if String.eqb r "A" then Some 5 else Some 9)
        (fun r _ latest => [change_of r latest])
        (fun _ => false)
        (fun _ => true).

(** The log of the commit cannot be fetched: the change list is empty. *)
Definition no_log : Env :=
  mkEnv (fun _ => Some 5) (fun _ _ _ => []) (fun _ => false) (fun _ => true).

(** A monitor that has recorded nothing yet. *)
Definition fresh : Monitor := mkMonitor ∅ None.

(** A repository whose path is touched by revisions 1 and 501 only. *)
Definition repo_url : string := "https://svn.example.org/repo".

Definition remote_repo : gmap string string :=
  list_to_map [("repository_path", repo_url); ("notify_on_changes", "True")].

Definition entry (rev author_name when what : string) : ET.Element :=
  ET.Elem "logentry" [("revision", rev)] None
          [ET.Elem "author" [] (Some author_name) [] None;
           ET.Elem "date" [] (Some when) [] None;
           ET.Elem "msg" [] (Some what) [] None] None.

Definition entry_1 := entry "1" "alice" "2024-03-01T09:15:00.000000Z" "first".
Definition entry_501 := entry "501" "carol" "2024-03-02T10:00:00.000000Z" "later".

Definition history (rev : Z) : list ET.Element :=
  if rev =? 1 then [entry_1] else if rev =? 501 then [entry_501] else [].

Definition document (entries : list ET.Element) : string :=
  ETModel.tostring (ET.Element_with "log" entries).

(** A remote that answers the queries for 1:501, 1:500 and 501:501. *)
Definition healthy_remote (command : list string) : option string :=
  if bool_decide (command = log_range_cmd repo_url 1 501)
  then Some (document [entry_1; entry_501])
  else if bool_decide (command = log_range_cmd repo_url 1 500)
  then Some (document [entry_1])
  else if bool_decide (command = log_range_cmd repo_url 501 501)
  then Some (document [entry_501])
  else Some "".

(** The same remote while the queries for the second page, and for its
    single revision, time out. *)
Definition flaky_remote (command : list string) : option string :=
  if bool_decide (command = log_range_cmd repo_url 1 501)
  then Some (document [entry_1; entry_501])
  else if bool_decide (command = log_range_cmd repo_url 1 500)
  then Some (document [entry_1])
  else Some "".

(** A repository with its own login. *)
Definition repo_with_login : gmap string string :=
  list_to_map [("repository_path", "https://svn.example.org/repo");
               ("username", "alice"); ("password", "s3cret")].

(** The recipients collected for [one_change]. *)
Definition collected : gset string :=
  Eval vm_compute in
    match collect_recipients recipients_by_repo name_mapping
                             (Some email_complete) elements email_complete
                             (group_by_repo [one_change]) with
    | Return all_recipients => all_recipients
    | Raise => ∅
    end.

(** Two rows of the [Repository Configs] sheet: identifier and name. *)
Definition name_rows : list (option string * option string) :=
  [(Some "REPO_1", Some "Purchasing "); (Some " REPO_2", Some "Support"); (None, Some "Spare")].

(** Both repositories answer, the mail goes out and the store can be
    written. *)
Definition mail_up : Env :=
  mkEnv (fun r => if String.eqb r "A" then Some 5 else Some 9)
        (fun r _ latest => [change_of r latest])
        (fun _ => true)
        (fun _ => true).

(** Nothing new anywhere; the check of [B] raises. *)
Definition idle : Env :=
  mkEnv (fun r => if String.eqb r "A" then Some 0 else None)
        (fun r _ latest => [change_of r latest])
        (fun _ => true)
        (fun _ => true).

(** A single repository with notifications switched off. *)
Definition archive : list (string * gmap string string) :=
  [("B", list_to_map [("repository_path", "/repos/b"); ("notify_on_changes", "False")])].

(** The sections of a configuration that names one repository, without
    a working copy, and the mail server. *)
Definition sections : list (string * gmap string string) :=
  [("EMAIL", list_to_map [("smtp_server", "smtp.example.org")]);
   ("REPO_main", list_to_map [("repository_path", "https://svn.example.org/repo");
                              ("check_interval", "60")])].

(** A remote that cannot be reached: every query comes back empty. *)
Definition unreachable (cmd : list string) (repo_config : gmap string string)
           (working_dir : option string) : option string := Some "".

(** A repository polled over its URL. *)
Definition remote_repos : list (string * gmap string string) :=
  [("main", remote_repo)].

(** Detect-only operation: the outcome of a notification is that of
    the dispatcher without a password. *)
Definition detect_only : Env :=
  mkEnv (fun r => if String.eqb r "A" then Some 5 else Some 9)
        (fun r _ latest => [change_of r latest])
        (fun changes =>
           fst (send_email_notification recipients_by_repo name_mapping
                                        (Some email_without_password) elements
                                        flaky_smtp changes))
        (fun _ => true).

(** A lock that clears: the first two processes fail on it, every
    later one completes. *)
Definition clears_after_two (n : nat) (command : list string) : Proc :=
  if (n <? 2)%nat then CalledProcessError lock_error else Completed " 42 ".

(** Two valid entries around one that is not well-formed XML: its
    [msg] element is not closed. *)
Definition broken_log : string :=
"<?xml version='1.0' encoding='UTF-8'?>
<log>
<logentry revision='41'><author>alice</author><date>2024-03-01T09:15:00.000000Z</date><msg>first</msg><paths><path action='A'>/trunk/a.c</path></paths></logentry>
<logentry revision='42'><author>bob</author><date>2024-03-01T09:20:00.000000Z</date><msg>broken</logentry>
<logentry revision='43'><author>carol</author><date>2024-03-01T09:30:00.000000Z</date><msg>third</msg><paths><path action='M'>/trunk/a.c</path></paths></logentry>
</log>".

(** Two repositories that both notify. *)
Definition both_notify : list (string * gmap string string) :=
  [("A", list_to_map [("repository_path", "/repos/a"); ("notify_on_changes", "True")]);
   ("C", list_to_map [("repository_path", "/repos/c"); ("notify_on_changes", "True")])].

(** [A] is at revision 5 and [C] at 7; the log of [C] cannot be
    fetched, so its change list is empty; the mail goes out. *)
Definition log_of_c_missing : Env :=
  mkEnv (fun r => if String.eqb r "A" then Some 5 else Some 7)
        (fun r _ latest => if String.eqb r "A" then [change_of r latest] else [])
        (fun _ => true)
        (fun _ => true).


End Samples.

(** * Properties *)

(** ** The log parser *)

Lemma children_descendants e c : In c (ET.children e) -> In c (ET.descendants e).
Proof.
  destruct e as [t a x cs tl]. cbn [ET.children ET.descendants].
  induction cs as [|c' cs IH]; intros Hin; [destruct Hin|].
  destruct Hin as [->|Hin]; [now left|].
  right. apply List.in_or_app. right. now apply IH.
Qed.

(** The fallback of [find_logentries] never finds more: the entries
    are the [logentry] elements below the root. *)
Lemma find_logentries_below root :
  find_logentries root = ET.findall_below root "logentry".
Proof.
  unfold find_logentries.
  destruct (ET.findall_below root "logentry") as [|e l] eqn:Hb; [|reflexivity].
  unfold ET.findall. destruct (List.filter _ (ET.children root)) as [|c l] eqn:Hc; [reflexivity|].
  assert (Hin : In c (List.filter (ET.has_tag "logentry") (ET.children root)))
    by (rewrite Hc; now left).
  apply List.filter_In in Hin as [Hin Htag].
  assert (Hin' : In c (ET.findall_below root "logentry")).
  { apply List.filter_In. split; [now apply children_descendants | assumption]. }
  rewrite Hb in Hin'. destruct Hin'.
Qed.

Section LogParserFacts.

Variable fromstring : string -> ET.Parse.
Context {datetime : Type}.
Variable fromisoformat : string -> option datetime.
Variable strftime : datetime -> string.

Lemma truthy_strip_empty s : Py.truthy s = false -> Py.truthy (Py.strip s) = false.
Proof. destruct s; [reflexivity | discriminate]. Qed.

Lemma blank_parses_to_nothing clock iso xml_log repo_name :
  Py.truthy (Py.strip xml_log) = false ->
  _parse_svn_log fromstring fromisoformat strftime clock iso xml_log repo_name = [].
Proof.
  intros Hb. unfold _parse_svn_log. rewrite Hb.
  now rewrite orb_true_r.
Qed.

Lemma nonblank_parse clock iso xml_log repo_name :
  Py.truthy (Py.strip xml_log) = true ->
  _parse_svn_log fromstring fromisoformat strftime clock iso xml_log repo_name =
  match recover_root fromstring (Py.strip xml_log) with
  | Bound root =>
      parse_entries fromisoformat strftime clock repo_name 0 (find_logentries root)
  | Raised => [failure_record iso "XML parsing error" repo_name]
  | Unbound => [failure_record iso "Unknown error parsing log" repo_name]
  end.
Proof.
  intros Hb. unfold _parse_svn_log. rewrite Hb.
  destruct (Py.truthy xml_log) eqn:Hx; [reflexivity|].
  apply truthy_strip_empty in Hx. congruence.
Qed.

(** C5 (as amended).  When no fallback recovers the top-level
    structure of a non-blank input, the parser returns exactly one
    synthetic record describing the failure (revision 0, author
    [unknown], no paths, the repository name, one of the two failure
    messages); on an empty or blank input it returns the empty
    sequence.  In both cases it returns: no exception escapes. *)
Theorem parse_failure_single_record clock iso xml_log repo_name :
  recovered fromstring xml_log = None ->
  if Py.truthy (Py.strip xml_log) then
    exists msg,
      (msg = "XML parsing error" \/ msg = "Unknown error parsing log") /\
      _parse_svn_log fromstring fromisoformat strftime clock iso xml_log repo_name
      = [mkChange 0 (Some "unknown") iso msg [] repo_name]
  else
    _parse_svn_log fromstring fromisoformat strftime clock iso xml_log repo_name = [].
Proof.
  unfold recovered. intros Hrec.
  destruct (Py.truthy (Py.strip xml_log)) eqn:Hb.
  - rewrite nonblank_parse by assumption.
    destruct (recover_root fromstring (Py.strip xml_log)) as [root| |].
    + discriminate.
    + exists "XML parsing error". split; [now left | reflexivity].
    + exists "Unknown error parsing log". split; [now right | reflexivity].
  - now apply blank_parses_to_nothing.
Qed.

Lemma parse_entry_parseable clock repo_name i e :
  parseable e = true ->
  is_Some (parse_entry fromisoformat strftime clock repo_name i e).
Proof.
  unfold parseable, parse_entry. intros Hp.
  destruct (ET.get e "revision") as [r|]; simpl.
  - apply bool_decide_eq_true in Hp. destruct Hp as [z ->]. simpl. eauto.
  - eauto.
Qed.

Lemma parse_entry_unparseable clock repo_name i e :
  parseable e = false ->
  parse_entry fromisoformat strftime clock repo_name i e = None.
Proof.
  unfold parseable, parse_entry. intros Hp.
  destruct (ET.get e "revision") as [r|]; [|discriminate].
  apply bool_decide_eq_false in Hp.
  destruct (Py.int r) as [z|]; [|reflexivity].
  exfalso. apply Hp. eauto.
Qed.

Lemma parse_entries_one_per_parseable clock repo_name logentries : forall i,
  Forall2 (fun ie r => parse_entry fromisoformat strftime clock repo_name ie.1 ie.2 = Some r)
          (List.filter (fun ie => parseable ie.2)
                       (List.combine (List.seq i (length logentries)) logentries))
          (parse_entries fromisoformat strftime clock repo_name i logentries).
Proof.
  induction logentries as [|e rest IH]; intros i; simpl.
  - constructor.
  - destruct (parseable e) eqn:Hp.
    + destruct (parse_entry_parseable clock repo_name i e Hp) as [r Hr].
      rewrite Hr. constructor; [exact Hr | apply IH].
    + rewrite (parse_entry_unparseable clock repo_name i e Hp). apply IH.
Qed.

Lemma parse_entry_revision clock repo_name i e r :
  parse_entry fromisoformat strftime clock repo_name i e = Some r ->
  revision_number e = Some (revision r) /\ repository r = repo_name.
Proof.
  unfold parse_entry, revision_number.
  destruct (match ET.get e "revision" with Some r0 => Py.int r0 | None => Some 0 end) as [z|];
    [|discriminate].
  cbn. intros [= <-]. split; reflexivity.
Qed.

Lemma parse_entry_skipped clock repo_name i e :
  revision_number e = None ->
  parse_entry fromisoformat strftime clock repo_name i e = None.
Proof.
  unfold parse_entry, revision_number. intros ->. reflexivity.
Qed.

Lemma parse_entries_numbered clock repo_name logentries : forall i,
  List.map revision (parse_entries fromisoformat strftime clock repo_name i logentries)
  = omap revision_number logentries /\
  Forall (fun r => repository r = repo_name)
         (parse_entries fromisoformat strftime clock repo_name i logentries) /\
  Forall2 (fun ie r => parse_entry fromisoformat strftime clock repo_name ie.1 ie.2 = Some r)
          (List.filter (fun ie => bool_decide (is_Some (revision_number ie.2)))
                       (List.combine (List.seq i (length logentries)) logentries))
          (parse_entries fromisoformat strftime clock repo_name i logentries).
Proof.
  induction logentries as [|e rest IH]; intros i.
  - repeat split; constructor.
  - destruct (IH (S i)) as (Hrev & Hrepo & Hall).
    cbn [parse_entries omap list_omap length List.seq List.combine List.filter snd].
    destruct (parse_entry fromisoformat strftime clock repo_name i e) as [r|] eqn:Hr.
    + destruct (parse_entry_revision clock repo_name i e r Hr) as [Hn Hname].
      rewrite Hn. rewrite bool_decide_eq_true_2 by eauto.
      cbn [List.map]. rewrite Hrev.
      repeat split; [now constructor | now constructor].
    + assert (Hn : revision_number e = None).
      { destruct (revision_number e) as [z|] eqn:Hz; [|reflexivity].
        exfalso. revert Hr. unfold parse_entry. unfold revision_number in Hz.
        rewrite Hz. discriminate. }
      rewrite Hn. rewrite bool_decide_eq_false_2 by (intros [z Hz]; discriminate).
      repeat split; assumption.
Qed.

(** C6 (as amended).  Once the top-level structure is recovered, which
    takes a document that is well-formed XML, entries included, the
    records returned are, one for one and in document order, those of
    the [logentry] elements whose revision reads as an integer: their
    revision numbers are the revision numbers of these entries, every
    record is tagged with the repository name, and each record is what
    the loop body makes of its entry.  An entry whose [revision]
    attribute is not an integer is skipped and the entries after it
    are still processed. *)
Theorem parse_skips_unparseable_entries clock iso xml_log repo_name root :
  recovered fromstring xml_log = Some root ->
  List.map revision
           (_parse_svn_log fromstring fromisoformat strftime clock iso xml_log repo_name)
  = omap revision_number (log_entries root) /\
  Forall (fun r => repository r = repo_name)
         (_parse_svn_log fromstring fromisoformat strftime clock iso xml_log repo_name) /\
  Forall2 (fun ie r => parse_entry fromisoformat strftime clock repo_name ie.1 ie.2 = Some r)
          (List.filter (fun ie => bool_decide (is_Some (revision_number ie.2)))
                       (indexed (log_entries root)))
          (_parse_svn_log fromstring fromisoformat strftime clock iso xml_log repo_name).
Proof.
  unfold recovered. intros Hrec.
  destruct (Py.truthy (Py.strip xml_log)) eqn:Hb; [|discriminate].
  rewrite nonblank_parse by assumption.
  destruct (recover_root fromstring (Py.strip xml_log)) as [r| |]; try discriminate.
  injection Hrec as ->. rewrite find_logentries_below.
  apply parse_entries_numbered.
Qed.

Lemma parse_entry_clock_only_date c1 c2 repo_name i e :
  without_date <$> parse_entry fromisoformat strftime c1 repo_name i e =
  without_date <$> parse_entry fromisoformat strftime c2 repo_name i e.
Proof.
  unfold parse_entry.
  destruct (match ET.get e "revision" with Some r => Py.int r | None => Some 0 end);
    reflexivity.
Qed.

Lemma parse_entries_clock_only_date c1 c2 repo_name logentries : forall i,
  without_date <$> parse_entries fromisoformat strftime c1 repo_name i logentries =
  without_date <$> parse_entries fromisoformat strftime c2 repo_name i logentries.
Proof.
  induction logentries as [|e rest IH]; intros i; simpl; [reflexivity|].
  pose proof (parse_entry_clock_only_date c1 c2 repo_name i e) as He.
  destruct (parse_entry fromisoformat strftime c1 repo_name i e),
           (parse_entry fromisoformat strftime c2 repo_name i e);
    simpl in He; try discriminate.
  - rewrite !fmap_cons. f_equal; [congruence | apply IH].
  - apply IH.
Qed.

Lemma entry_date_decodable c1 c2 i e :
  decodable fromisoformat e = true ->
  entry_date fromisoformat strftime c1 i e = entry_date fromisoformat strftime c2 i e.
Proof.
  unfold decodable, entry_date.
  destruct (ET.find e "date") as [d|]; [|discriminate].
  destruct (ET.text d) as [t|]; [|discriminate].
  destruct (Py.truthy t); [|discriminate]. simpl.
  destruct (fromisoformat _); [reflexivity|].
  intros H. apply bool_decide_eq_true in H. destruct H; discriminate.
Qed.

Lemma parse_entries_decodable c1 c2 repo_name logentries : forall i,
  (forall e, In e logentries -> parseable e = true -> decodable fromisoformat e = true) ->
  parse_entries fromisoformat strftime c1 repo_name i logentries =
  parse_entries fromisoformat strftime c2 repo_name i logentries.
Proof.
  induction logentries as [|e rest IH]; intros i Hd; simpl; [reflexivity|].
  rewrite (IH (S i)) by (intros; apply Hd; [now right | assumption]).
  destruct (parseable e) eqn:Hp.
  - unfold parse_entry.
    rewrite (entry_date_decodable c1 c2 i e) by (apply Hd; [now left | assumption]).
    reflexivity.
  - now rewrite !parse_entry_unparseable.
Qed.

(** C10 (as amended).  Two runs on the same raw log and repository
    name, at whatever times, return sequences that agree in length,
    order and every field except [date]; they are identical when the
    top-level structure is recovered and every parseable entry has a
    decodable timestamp.  (An entry without a decodable timestamp, and
    the record of a failed parse, carry the wall-clock time of the
    run.) *)
Theorem parse_deterministic_up_to_clock c1 iso1 c2 iso2 xml_log repo_name :
  without_date <$> _parse_svn_log fromstring fromisoformat strftime c1 iso1 xml_log repo_name
  = without_date <$> _parse_svn_log fromstring fromisoformat strftime c2 iso2 xml_log repo_name
  /\
  forall root,
    recovered fromstring xml_log = Some root ->
    (forall e, In e (find_logentries root) -> parseable e = true ->
               decodable fromisoformat e = true) ->
    _parse_svn_log fromstring fromisoformat strftime c1 iso1 xml_log repo_name
    = _parse_svn_log fromstring fromisoformat strftime c2 iso2 xml_log repo_name.
Proof.
  destruct (Py.truthy (Py.strip xml_log)) eqn:Hb.
  - rewrite !nonblank_parse by assumption. split.
    + destruct (recover_root fromstring (Py.strip xml_log)); try reflexivity.
      apply parse_entries_clock_only_date.
    + unfold recovered. rewrite Hb. intros root Hrec Hd.
      destruct (recover_root fromstring (Py.strip xml_log)); try discriminate.
      injection Hrec as ->. now apply parse_entries_decodable.
  - rewrite !blank_parses_to_nothing by assumption. split; [reflexivity|].
    unfold recovered. rewrite Hb. discriminate.
Qed.

End LogParserFacts.

(** C5: on the empty log the parser returns no record at all, although
    no top-level structure was recovered. *)
Lemma empty_log_yields_no_record :
  ~ (recovered ETModel.fromstring "" = None ->
     exists r, Samples.morning "" "Repo" = [r]).
Proof.
  intros H. destruct (H eq_refl) as [r Hr]. vm_compute in Hr. discriminate.
Qed.

Lemma parse_failure_single_record_witness :
  recovered ETModel.fromstring Samples.truncated_log = None /\
  exists msg,
    (msg = "XML parsing error" \/ msg = "Unknown error parsing log") /\
    Samples.morning Samples.truncated_log "Repo"
    = [mkChange 0 (Some "unknown") "2024-05-01T08:00:00+08:00" msg [] "Repo"].
Proof.
  split; [vm_compute; reflexivity|].
  exact (parse_failure_single_record ETModel.fromstring DateModel.fromisoformat
           DateModel.strftime (fun _ => "2024-05-01 08:00:00")
           "2024-05-01T08:00:00+08:00" Samples.truncated_log "Repo" eq_refl).
Defined.

(** C6: one entry that is not well-formed XML between two valid ones
    makes the whole document unparseable, and the records of the two
    valid entries are not returned. *)
Lemma xml_malformed_entry_fails_whole_log :
  ~ (List.map revision (Samples.morning Samples.broken_log "Repo") = [41; 43]).
Proof. vm_compute. discriminate. Qed.

(** What is returned instead is the single record of a failed parse. *)
Example xml_malformed_entry_single_record :
  Samples.morning Samples.broken_log "Repo"
  = [mkChange 0 (Some "unknown") "2024-05-01T08:00:00+08:00" "Unknown error parsing log"
              [] "Repo"].
Proof. vm_compute. reflexivity. Qed.

Lemma parse_skips_unparseable_entries_witness :
  recovered ETModel.fromstring Samples.mixed_log = Some Samples.mixed_root /\
  List.map revision (Samples.morning Samples.mixed_log "Repo") = [41; 43] /\
  Samples.morning Samples.mixed_log "Repo" =
  [ mkChange 41 (Some "alice") "2024-03-01 09:15:00" "first"
             [mkPathChange "/trunk/a.c" "A"] "Repo";
    mkChange 43 (Some "carol") "2024-03-01 09:30:00" "third"
             [mkPathChange "/trunk/a.c" "M"] "Repo" ].
Proof.
  split; [vm_compute; reflexivity|].
  destruct (parse_skips_unparseable_entries ETModel.fromstring DateModel.fromisoformat
              DateModel.strftime (fun _ => "2024-05-01 08:00:00")
              "2024-05-01T08:00:00+08:00" Samples.mixed_log "Repo" Samples.mixed_root
              eq_refl) as (Hrev & _ & Hall).
  split; [exact Hrev|].
  change (_parse_svn_log ETModel.fromstring DateModel.fromisoformat DateModel.strftime
            (fun _ => "2024-05-01 08:00:00") "2024-05-01T08:00:00+08:00"
            Samples.mixed_log "Repo")
    with (Samples.morning Samples.mixed_log "Repo") in Hall.
  revert Hall. generalize (Samples.morning Samples.mixed_log "Repo") as records.
  intros records Hall.
  set (kept := List.filter _ _) in Hall. vm_compute in kept. subst kept.
  apply Forall2_cons_inv_l in Hall as (r1 & rest1 & H1 & Hall & ->).
  apply Forall2_cons_inv_l in Hall as (r2 & rest2 & H2 & Hall & ->).
  apply Forall2_nil_inv_l in Hall as ->.
  vm_compute in H1, H2. injection H1 as <-. injection H2 as <-. reflexivity.
Defined.

(** A concrete document: the entry in the middle, whose revision is
    not a number, is dropped, the two valid ones come out in their
    order. *)
Example malformed_entry_between_two_valid :
  Samples.morning Samples.mixed_log "Repo" =
  [ mkChange 41 (Some "alice") "2024-03-01 09:15:00" "first"
             [mkPathChange "/trunk/a.c" "A"] "Repo";
    mkChange 43 (Some "carol") "2024-03-01 09:30:00" "third"
             [mkPathChange "/trunk/a.c" "M"] "Repo" ].
Proof. vm_compute. reflexivity. Qed.

(** C10: the same log parsed in the morning and in the evening gives
    two different sequences when a timestamp does not decode. *)
Lemma undecodable_timestamp_differs_between_runs :
  ~ (Samples.morning Samples.undated_log "Repo"
     = Samples.evening Samples.undated_log "Repo").
Proof. vm_compute. discriminate. Qed.

Lemma parse_deterministic_up_to_clock_witness :
  recovered ETModel.fromstring Samples.mixed_log = Some Samples.mixed_root /\
  (forall e, In e (find_logentries Samples.mixed_root) -> parseable e = true ->
             decodable DateModel.fromisoformat e = true) /\
  Samples.morning Samples.mixed_log "Repo" = Samples.evening Samples.mixed_log "Repo".
Proof.
  assert (Hd : forall e, In e (find_logentries Samples.mixed_root) ->
                         parseable e = true ->
                         decodable DateModel.fromisoformat e = true).
  { intros e Hin _. vm_compute in Hin.
    destruct Hin as [<-|[<-|[<-|[]]]]; vm_compute; reflexivity. }
  split; [vm_compute; reflexivity|]. split; [exact Hd|].
  exact (proj2 (parse_deterministic_up_to_clock ETModel.fromstring
                  DateModel.fromisoformat DateModel.strftime
                  (fun _ => "2024-05-01 08:00:00") "2024-05-01T08:00:00+08:00"
                  (fun _ => "2024-05-01 20:00:00") "2024-05-01T20:00:00+08:00"
                  Samples.mixed_log "Repo")
               Samples.mixed_root eq_refl Hd).
Defined.

(** ** The svn command wrapper *)

Section SvnCommandFacts.

Variable subprocess_run : nat -> list string -> Proc.
Variable path_exists : string -> bool.
Variable _remove_svn_locks_manually : nat -> string -> bool.
Variable svn_config : option (gmap string string).

Lemma executions_app command l1 l2 :
  executions command (mkShell (l1 ++ l2)) =
  (executions command (mkShell l1) + executions command (mkShell l2))%nat.
Proof. unfold executions. simpl. now rewrite List.filter_app, length_app. Qed.

(** The cleanup itself is bounded: it starts the cleanup command at
    most twice (once, and once more after removing the lock files). *)
Lemma try_svn_cleanup_at_most_twice working_dir repo_config sh :
  exists started,
    invoked (snd (_try_svn_cleanup subprocess_run path_exists
                    _remove_svn_locks_manually svn_config
                    working_dir repo_config sh)) = (invoked sh ++ started)%list
    /\ (length started <= 2)%nat.
Proof.
  unfold _try_svn_cleanup, exec.
  destruct working_dir as [wd|]; [|exists []; rewrite app_nil_r; split; [reflexivity | simpl; lia]].
  repeat (match goal with
          | |- context [if ?b then _ else _] => destruct b
          | |- context [match subprocess_run ?n ?c with _ => _ end] =>
              destruct (subprocess_run n c)
          end; simpl);
    first [ exists []; rewrite app_nil_r; split; [reflexivity | simpl; lia]
          | eexists [_]; split; [reflexivity | simpl; lia]
          | eexists [_; _]; split; [now rewrite <- app_assoc | simpl; lia] ].
Qed.

End SvnCommandFacts.

Lemma lock_error_detected :
  Py.contains "locked" (Py.lower Samples.lock_error) = true.
Proof. vm_compute. reflexivity. Qed.

Lemma run_locked_step depth command sh :
  Samples.run_locked (S depth) command true sh =
  let '(retried, sh3) :=
    Samples.run_locked depth command true
      (mkShell (invoked sh ++ [command; ["svn"; "cleanup"; "/wc"]])) in
  match retried with
  | Return output => (Return output, sh3)
  | Raise => (Return "", sh3)
  end.
Proof.
  unfold Samples.run_locked at 1. cbn [_run_svn_command exec fst snd].
  unfold Samples.always_locked at 1. rewrite lock_error_detected. cbn [orb].
  unfold _try_svn_cleanup, exec. cbn [Py.truthy negb invoked].
  unfold Samples.always_locked at 1. rewrite lock_error_detected.
  cbn [invoked]. rewrite <- app_assoc. reflexivity.
Qed.

Lemma run_locked_executions depth : forall sh,
  executions ["svn"; "info"] (snd (Samples.run_locked depth ["svn"; "info"] true sh))
  = (executions ["svn"; "info"] sh + depth)%nat.
Proof.
  induction depth as [|depth IH]; intros sh.
  - simpl. lia.
  - rewrite run_locked_step.
    specialize (IH (mkShell (invoked sh ++ [["svn"; "info"]; ["svn"; "cleanup"; "/wc"]]))).
    destruct (Samples.run_locked depth ["svn"; "info"] true _) as [[out|] sh3];
      simpl in *; rewrite IH, executions_app; destruct sh; vm_compute executions at 2;
      simpl; lia.
Qed.

(** C8 (the code at the failing input).  On a working copy whose lock
    never clears, the retry re-enters the lock handler: the command is
    started once per nested activation, [depth] times in all, so the
    number of retries is bounded by the interpreter's recursion limit
    only, not by one. *)
Theorem persistent_lock_retries_unbounded : forall depth,
  executions ["svn"; "info"]
    (snd (Samples.run_locked depth ["svn"; "info"] false (mkShell []))) = depth.
Proof.
  intros depth.
  assert (H : Samples.run_locked depth ["svn"; "info"] false (mkShell [])
              = Samples.run_locked depth ["svn"; "info"] true (mkShell [])).
  { destruct depth; reflexivity. }
  rewrite H, run_locked_executions. reflexivity.
Qed.

(** ** Recipients and the dispatcher *)

Lemma truthy_false_empty s : Py.truthy s = false -> s = "".
Proof. destruct s; [reflexivity | discriminate]. Qed.

Lemma truthy_nonempty s : s <> "" -> Py.truthy s = true.
Proof. destruct s; [congruence | reflexivity]. Qed.

Lemma truthy_append s t : Py.truthy t = true -> Py.truthy (s ++ t) = true.
Proof. destruct s; [trivial | reflexivity]. Qed.

Lemma joined_truthy recipients :
  recipients <> [] -> Forall (fun r => r <> "") recipients ->
  Py.truthy (joined recipients) = true.
Proof.
  intros Hne Hall. destruct recipients as [|x [|y l]]; [congruence| |].
  - simpl. apply truthy_nonempty. now inversion Hall.
  - unfold joined. cbn [Py.join]. apply truthy_append. reflexivity.
Qed.

Lemma load_row_well_formed mapping row :
  well_formed_recipients mapping -> well_formed_recipients (load_row mapping row).
Proof.
  intros Hwf. unfold load_row.
  destruct (row_recipients row.2) as [|r rs] eqn:Hrow; [assumption|].
  apply map_Forall_insert_2; [|assumption].
  split; [discriminate|]. rewrite <- Hrow. unfold row_recipients.
  apply List.Forall_forall. intros x Hx. apply List.filter_In in Hx as [_ Hx].
  intros ->. discriminate.
Qed.

(** The mapping the loader builds is well formed, whatever the rows. *)
Lemma loaded_recipients_well_formed rows :
  well_formed_recipients (_load_recipients_from_excel rows).
Proof.
  unfold _load_recipients_from_excel.
  assert (H : forall m, well_formed_recipients m ->
                        well_formed_recipients (List.fold_left load_row rows m)).
  { induction rows as [|row rows IH]; intros m Hm; simpl; [assumption|].
    apply IH. now apply load_row_well_formed. }
  apply H. apply map_Forall_empty.
Qed.

Ltac conjuncts := repeat match goal with |- _ /\ _ => split end.

Ltac solve_bound :=
  solve [ exact I | simpl; exact (List.Forall_nil _) | reflexivity | lia | discriminate
        | cbn; lia | intros; lia | intros; discriminate ].

Section NotificationFacts.

Variable recipients_mapping : gmap string (list string).
Variable repo_name_mapping : gmap string string.
Variable config_EMAIL : option (gmap string string).
Variable set_order : gset string -> list string.
Variable smtp : nat -> Message -> Attempt.

Lemma all_excel_recipients_elem x :
  x ∈ all_excel_recipients recipients_mapping <->
  exists k recipients, recipients_mapping !! k = Some recipients /\ x ∈ recipients.
Proof.
  unfold all_excel_recipients.
  apply (map_fold_weak_ind
           (fun (acc : gset string) (m : gmap string (list string)) =>
              x ∈ acc <-> exists k l, m !! k = Some l /\ x ∈ l)).
  - split; [set_solver|]. intros (k & l & Hk & _). now rewrite lookup_empty in Hk.
  - intros k l m acc Hk IH. rewrite elem_of_union, elem_of_list_to_set, IH. split.
    + intros [Hx|(k' & l' & Hk' & Hx)].
      * exists k, l. now rewrite lookup_insert_eq.
      * exists k', l'. split; [|assumption].
        rewrite lookup_insert_ne; [assumption|]. intros ->. congruence.
    + intros (k' & l' & Hk' & Hx).
      destruct (decide (k = k')) as [->|Hne].
      * rewrite lookup_insert_eq in Hk'. injection Hk' as ->. now left.
      * rewrite lookup_insert_ne in Hk' by assumption. right. eauto.
Qed.

Lemma from_key_found key recipients :
  well_formed_recipients recipients_mapping ->
  recipients_mapping !! key = Some recipients ->
  from_key recipients_mapping key = joined recipients /\
  Py.truthy (joined recipients) = true.
Proof.
  intros Hwf Hk. unfold from_key. rewrite Hk. split; [reflexivity|].
  destruct (Hwf key recipients Hk). now apply joined_truthy.
Qed.

Lemma from_key_missing key :
  recipients_mapping !! key = None -> from_key recipients_mapping key = "".
Proof. intros Hk. unfold from_key. now rewrite Hk. Qed.

Lemma union_truthy :
  well_formed_recipients recipients_mapping ->
  (forall s x, x ∈ set_order s <-> x ∈ s) ->
  Py.truthy (joined (set_order (all_excel_recipients recipients_mapping)))
  = negb (bool_decide (recipients_mapping = ∅))
    && negb (bool_decide (all_excel_recipients recipients_mapping = ∅)).
Proof.
  intros Hwf Hord.
  destruct (decide (all_excel_recipients recipients_mapping = ∅)) as [He|Hne].
  - rewrite (bool_decide_eq_true_2 _ He), andb_false_r.
    destruct (set_order _) as [|x l] eqn:Hs; [reflexivity|].
    exfalso. assert (Hx : x ∈ set_order (all_excel_recipients recipients_mapping))
      by (rewrite Hs; left).
    apply Hord in Hx. rewrite He in Hx. set_solver.
  - rewrite (bool_decide_eq_false_2 _ Hne), andb_true_r.
    assert (Hm : recipients_mapping <> ∅).
    { intros Hm. apply Hne. unfold all_excel_recipients. rewrite Hm.
      apply map_fold_empty. }
    rewrite (bool_decide_eq_false_2 _ Hm). simpl.
    apply joined_truthy.
    + apply set_choose_L in Hne as [x Hx]. apply Hord in Hx.
      intros Hs. rewrite Hs in Hx. inversion Hx.
    + apply List.Forall_forall. intros x Hx.
      apply list_elem_of_In, Hord, all_excel_recipients_elem in Hx as (k & l & Hk & Hx).
      destruct (Hwf k l Hk) as [_ Hall].
      rewrite List.Forall_forall in Hall. apply Hall. now apply list_elem_of_In.
Qed.

(** The resolver returns the first non-empty one of its six sources. *)
Lemma resolved_first_nonempty email repo_name :
  config_EMAIL = Some email ->
  well_formed_recipients recipients_mapping ->
  (forall s x, x ∈ set_order s <-> x ∈ s) ->
  _get_recipients_for_repository recipients_mapping repo_name_mapping
                                 config_EMAIL set_order repo_name
  = Return (first_nonempty
              (recipient_sources recipients_mapping repo_name_mapping
                                 set_order email repo_name)).
Proof.
  intros Hcfg Hwf Hord.
  unfold _get_recipients_for_repository, recipient_sources, first_nonempty.
  (* exact identifier *)
  destruct (recipients_mapping !! repo_name) as [l|] eqn:H1.
  { destruct (from_key_found _ _ Hwf H1) as [-> Ht]. cbn [List.find]. now rewrite Ht. }
  rewrite (from_key_missing _ H1). cbn [List.find Py.truthy].
  (* alias *)
  set (aliased := match repo_name_mapping !! repo_name with
                  | Some m => if Py.truthy m then recipients_mapping !! m else None
                  | None => None
                  end).
  assert (H2 : match aliased with
               | Some l =>
                   match repo_name_mapping !! repo_name with
                   | Some alias =>
                       if Py.truthy alias then from_key recipients_mapping alias else ""
                   | None => ""
                   end = joined l /\ Py.truthy (joined l) = true
               | None =>
                   match repo_name_mapping !! repo_name with
                   | Some alias =>
                       if Py.truthy alias then from_key recipients_mapping alias else ""
                   | None => ""
                   end = ""
               end).
  { subst aliased. destruct (repo_name_mapping !! repo_name) as [m|]; [|reflexivity].
    destruct (Py.truthy m); [|reflexivity].
    destruct (recipients_mapping !! m) as [l|] eqn:Hm.
    - now apply from_key_found.
    - now apply from_key_missing. }
  destruct aliased as [l|].
  { destruct H2 as [-> Ht]. now rewrite Ht. }
  rewrite H2. cbn [Py.truthy].
  (* prefix added *)
  destruct (recipients_mapping !! ("REPO_" ++ repo_name)) as [l|] eqn:H3.
  { destruct (from_key_found _ _ Hwf H3) as [-> Ht]. now rewrite Ht. }
  rewrite (from_key_missing _ H3). cbn [Py.truthy].
  (* prefix stripped *)
  destruct (Py.startswith repo_name "REPO_").
  - destruct (recipients_mapping !! Py.drop 5 repo_name) as [l|] eqn:H4.
    { destruct (from_key_found _ _ Hwf H4) as [-> Ht]. now rewrite Ht. }
    rewrite (from_key_missing _ H4). cbn [Py.truthy].
    rewrite (union_truthy Hwf Hord), Hcfg.
    destruct (_ && _); [reflexivity|].
    destruct (Py.truthy (Py.get email "to_emails" "")) eqn:Ht; [reflexivity|].
    now rewrite (truthy_false_empty _ Ht).
  - cbn [Py.truthy].
    rewrite (union_truthy Hwf Hord), Hcfg.
    destruct (_ && _); [reflexivity|].
    destruct (Py.truthy (Py.get email "to_emails" "")) eqn:Ht; [reflexivity|].
    now rewrite (truthy_false_empty _ Ht).
Qed.

(** C7.  With a mail section and a recipients mapping as the loader
    builds it, the resolver returns the first non-empty result among,
    in this order: the recipients of the exact identifier, those of the
    alias given by the name mapping, those of the identifier with
    [REPO_] added, those of the identifier with [REPO_] stripped, the
    union of the recipients of all repositories (every address listed
    for some repository, each once), and the global default list. *)
Theorem recipients_resolved_in_order email repo_name :
  config_EMAIL = Some email ->
  well_formed_recipients recipients_mapping ->
  (forall s, NoDup (set_order s)) ->
  (forall s x, x ∈ set_order s <-> x ∈ s) ->
  exists union,
    NoDup union /\
    (forall x, x ∈ union <->
               exists key recipients,
                 recipients_mapping !! key = Some recipients /\ x ∈ recipients) /\
    _get_recipients_for_repository recipients_mapping repo_name_mapping
                                   config_EMAIL set_order repo_name
    = Return (first_nonempty
                (sources_in_order recipients_mapping repo_name_mapping union
                                  (Py.get email "to_emails" "") repo_name)).
Proof.
  intros Hcfg Hwf Hnd Hord.
  exists (set_order (all_excel_recipients recipients_mapping)).
  split; [apply Hnd|]. split.
  - intros x. rewrite Hord. apply all_excel_recipients_elem.
  - rewrite (resolved_first_nonempty email repo_name Hcfg Hwf Hord). reflexivity.
Qed.

Lemma connections_app (a b : list Event) :
  connections (a ++ b) = (connections a ++ connections b)%list.
Proof. apply omap_app. Qed.

Lemma pauses_app (a b : list Event) :
  pauses (a ++ b) = (pauses a ++ pauses b)%list.
Proof. apply omap_app. Qed.

(** The retry loop from any point: it ends within the fuel, the
    attempts are numbered consecutively and stop at [max_retries], each
    pause lasts 2 seconds, and only a transport failure is followed by
    another attempt. *)
Lemma send_loop_bounded use_ssl has_credentials msg : forall fuel retry_count events,
  (retry_count <= S max_retries)%nat ->
  (S max_retries <= retry_count + fuel)%nat ->
  exists ok k events',
    send_loop smtp fuel use_ssl has_credentials msg retry_count events
    = Some (ok, (events ++ events')%list) /\
    connections events' = List.seq retry_count k /\
    (retry_count + k <= S max_retries)%nat /\
    Forall (eq 2) (pauses events') /\
    (k - 1 <= length (pauses events') <= k)%nat /\
    (forall n, (retry_count <= n)%nat -> (S n < retry_count + k)%nat ->
               attempt_result use_ssl has_credentials (smtp n msg) = Retry) /\
    (ok = true ->
     (1 <= k)%nat /\
     attempt_result use_ssl has_credentials (smtp (retry_count + k - 1) msg) = Sent).
Proof.
  unfold max_retries.
  induction fuel as [|fuel IH]; intros rc ev Hrc Hfuel.
  - assert (rc = 3)%nat as -> by lia. simpl.
    eexists false, 0%nat, [_]. conjuncts; simpl; solve_bound.
  - cbn [send_loop]. unfold max_retries.
    destruct (rc <=? 2)%nat eqn:Hle.
    + apply Nat.leb_le in Hle.
      destruct (attempt_result use_ssl has_credentials (smtp rc msg)) eqn:Hres.
      * eexists true, 1%nat, [_; _]. conjuncts; simpl; try solve_bound.
        intros _. split; [lia|]. now replace (rc + 1 - 1)%nat with rc by lia.
      * destruct (IH (S rc) (ev ++ [Connect rc; Log "ERROR" "SMTP error sending email"; Sleep 2])%list)
          as (ok & k & ev' & Heq & Hconn & Hk & Hp & Hlen & Hretry & Hok); [lia | lia |].
        exists ok, (S k), ([Connect rc; Log "ERROR" "SMTP error sending email"; Sleep 2] ++ ev')%list.
        rewrite Heq, <- app_assoc. split; [reflexivity|].
        rewrite connections_app, pauses_app, Hconn. cbn.
        conjuncts; try lia.
        -- reflexivity.
        -- constructor; [reflexivity | assumption].
        -- intros n Hn1 Hn2. destruct (decide (n = rc)) as [->|Hne]; [assumption|].
           apply Hretry; lia.
        -- intros Ht. destruct (Hok Ht) as [Hk1 Hsent]. split; [lia|].
           now replace (rc + S k - 1)%nat with (S rc + k - 1)%nat by lia.
      * eexists false, 1%nat, [_; _; _]. conjuncts; simpl; solve_bound.
    + apply Nat.leb_gt in Hle. assert (rc = 3)%nat as -> by lia.
      eexists false, 0%nat, [_]. conjuncts; simpl; solve_bound.
Qed.









(** The early return of lines 1576-1579. *)
Lemma skipped_without_credentials email changes :
  config_EMAIL = Some email ->
  is_Some (email !! "smtp_server") ->
  is_Some (email !! "from_email") ->
  is_Some (email !! "to_emails") ->
  credentials_configured email = false ->
  changes <> [] ->
  send_email_notification recipients_mapping repo_name_mapping config_EMAIL
                          set_order smtp changes
  = (false,
     [Operation "NOTIFICATION" "Attempting to send email notification";
      Log "INFO" "Email notification skipped: No valid SMTP credentials configured";
      Operation "INFO" "Email notification skipped: No valid SMTP credentials configured"]).
Proof.
  intros Hcfg H1 H2 H3 Hcred Hne.
  unfold send_email_notification. destruct changes as [|c cs]; [congruence|].
  rewrite Hcfg, !bool_decide_eq_true_2 by assumption. cbn [andb negb].
  rewrite Hcred. reflexivity.
Qed.

(** C3 (as amended).  With a complete mail section but no usable
    credential pair, a non-empty payload is not delivered: no SMTP
    connection is opened, the skip is recorded at INFO level, and the
    call returns [False], the value a failed dispatch returns. *)
Theorem no_credentials_skips_delivery email changes :
  config_EMAIL = Some email ->
  is_Some (email !! "smtp_server") ->
  is_Some (email !! "from_email") ->
  is_Some (email !! "to_emails") ->
  credentials_configured email = false ->
  changes <> [] ->
  send_email_notification recipients_mapping repo_name_mapping config_EMAIL
                          set_order smtp changes
  = (false,
     [Operation "NOTIFICATION" "Attempting to send email notification";
      Log "INFO" "Email notification skipped: No valid SMTP credentials configured";
      Operation "INFO" "Email notification skipped: No valid SMTP credentials configured"])
  /\ connections (snd (send_email_notification recipients_mapping repo_name_mapping
                         config_EMAIL set_order smtp changes)) = [].
Proof.
  intros Hcfg H1 H2 H3 Hcred Hne.
  rewrite (skipped_without_credentials email changes Hcfg H1 H2 H3 Hcred Hne).
  split; reflexivity.
Qed.

End NotificationFacts.

(** C3: with a blank password the dispatcher reports the skipped
    notification as not sent, exactly as it reports a failure. *)
Lemma missing_credentials_reported_as_failure :
  ~ (fst (send_email_notification Samples.recipients_by_repo Samples.name_mapping
            (Some Samples.email_without_password) elements Samples.flaky_smtp
            [Samples.one_change]) = true).
Proof. vm_compute. discriminate. Qed.

Lemma no_credentials_skips_delivery_witness :
  credentials_configured Samples.email_without_password = false /\
  fst (send_email_notification Samples.recipients_by_repo Samples.name_mapping
         (Some Samples.email_without_password) elements Samples.flaky_smtp
         [Samples.one_change]) = false.
Proof.
  split; [vm_compute; reflexivity|].
  rewrite (proj1 (no_credentials_skips_delivery
                    Samples.recipients_by_repo Samples.name_mapping
                    (Some Samples.email_without_password) elements Samples.flaky_smtp
                    Samples.email_without_password [Samples.one_change]
                    eq_refl
                    (ltac:(vm_compute; eauto)) (ltac:(vm_compute; eauto))
                    (ltac:(vm_compute; eauto)) eq_refl ltac:(discriminate))).
  reflexivity.
Defined.

Lemma sample_recipients :
  Samples.recipients_by_repo
  = <["REPO_1" := ["ann@example.org"; "bob@example.org"] ]>
      (<["Sales" := ["cat@example.org"] ]> ∅).
Proof. vm_compute. reflexivity. Qed.

Lemma recipients_resolved_in_order_witness :
  well_formed_recipients Samples.recipients_by_repo /\
  exists union,
    NoDup union /\
    (forall x, x ∈ union <->
               x ∈ ["ann@example.org"; "bob@example.org"; "cat@example.org"]) /\
    _get_recipients_for_repository Samples.recipients_by_repo Samples.name_mapping
      (Some Samples.email_complete) elements "Unlisted"
    = Return (Py.join ", " union).
Proof.
  split; [apply loaded_recipients_well_formed|].
  destruct (recipients_resolved_in_order Samples.recipients_by_repo Samples.name_mapping
              (Some Samples.email_complete) elements Samples.email_complete "Unlisted"
              eq_refl (loaded_recipients_well_formed _)
              (fun s => NoDup_elements s) (fun s x => elem_of_elements s x))
    as (union & Hnd & Hunion & Heq).
  assert (Hmem : forall x, x ∈ union <->
                           x ∈ ["ann@example.org"; "bob@example.org"; "cat@example.org"]).
  { intros x. rewrite Hunion, sample_recipients. split.
    - intros (key & recipients & Hkey & Hx).
      apply lookup_insert_Some in Hkey as [[_ <-]|[_ Hkey]].
      + apply elem_of_cons in Hx as [->|Hx]; [left|].
        apply elem_of_cons in Hx as [->|Hx]; [right; left | inversion Hx].
      + apply lookup_insert_Some in Hkey as [[_ <-]|[_ Hkey]].
        * apply elem_of_cons in Hx as [->|Hx]; [right; right; left | inversion Hx].
        * now rewrite lookup_empty in Hkey.
    - intros Hx.
      apply elem_of_cons in Hx as [->|Hx];
        [exists "REPO_1", ["ann@example.org"; "bob@example.org"];
         split; [apply lookup_insert_eq | left]|].
      apply elem_of_cons in Hx as [->|Hx];
        [exists "REPO_1", ["ann@example.org"; "bob@example.org"];
         split; [apply lookup_insert_eq | right; left]|].
      apply elem_of_cons in Hx as [->|Hx]; [|inversion Hx].
      exists "Sales", ["cat@example.org"].
      split; [|left]. rewrite lookup_insert_ne by discriminate. apply lookup_insert_eq. }
  exists union. split; [exact Hnd|]. split; [exact Hmem|].
  rewrite Heq. f_equal.
  assert (Ht : Py.truthy (Py.join ", " union) = true).
  { apply joined_truthy.
    - intros ->. assert (H : "ann@example.org" ∈ @nil string) by (apply Hmem; left).
      inversion H.
    - apply List.Forall_forall. intros x Hx. apply list_elem_of_In, Hmem in Hx.
      apply elem_of_cons in Hx as [->|Hx]; [discriminate|].
      apply elem_of_cons in Hx as [->|Hx]; [discriminate|].
      apply elem_of_cons in Hx as [->|Hx]; [discriminate | inversion Hx]. }
  unfold first_nonempty, sources_in_order.
  change (listed Samples.recipients_by_repo "Unlisted") with "".
  cbn [List.find Py.truthy].
  change (Samples.name_mapping !! "Unlisted") with (@None string).
  cbn [List.find Py.truthy].
  change (listed Samples.recipients_by_repo ("REPO_" ++ "Unlisted")) with "".
  cbn [List.find Py.truthy].
  change (Py.startswith "Unlisted" "REPO_") with false.
  cbn [List.find Py.truthy]. now rewrite Ht.
Defined.


(** The alias of the sample resolves to the recipients of [REPO_1]. *)
Example alias_resolution :
  _get_recipients_for_repository Samples.recipients_by_repo Samples.name_mapping
    (Some Samples.email_complete) elements "Procurement"
  = Return "ann@example.org, bob@example.org".
Proof. vm_compute. reflexivity. Qed.

(** Two refused attempts, two pauses, the third attempt accepted. *)
Example flaky_transport_third_attempt :
  _send_email (Some Samples.email_complete) Samples.flaky_smtp
              (mkMessage "svn@example.org" "ann@example.org" [])
  = (true, [Connect 0; Log "ERROR" "SMTP error sending email"; Sleep 2;
            Connect 1; Log "ERROR" "SMTP error sending email"; Sleep 2;
            Connect 2; Operation "SUCCESS" "ann@example.org"]).
Proof. vm_compute. reflexivity. Qed.

(** ** The scheduler and the revision store *)

Section SchedulerFacts.

Variable repositories : list (string * gmap string string).

Abbreviation load := (_get_last_recorded_revisions repositories).
Abbreviation names := (repositories.*1).

Lemma load_lookup file : forall r,
  load file !! r =
  if bool_decide (r ∈ names) then Some (default 0 (file ≫= (.!! r))) else None.
Proof.
  unfold _get_last_recorded_revisions.
  induction repositories as [|[n c] rest IH]; intros r; simpl.
  - rewrite lookup_empty. reflexivity.
  - destruct (decide (n = r)) as [->|Hne].
    + rewrite lookup_insert_eq, bool_decide_eq_true_2 by left. reflexivity.
    + rewrite lookup_insert_ne by assumption. rewrite IH.
      destruct (decide (r ∈ rest.*1)) as [Hin|Hnin].
      * rewrite (bool_decide_eq_true_2 _ Hin).
        rewrite bool_decide_eq_true_2; [reflexivity | now right].
      * rewrite (bool_decide_eq_false_2 _ Hnin).
        rewrite bool_decide_eq_false_2; [reflexivity|].
        intros Hin. apply elem_of_cons in Hin as [Heq|Hin]; [|contradiction].
        apply Hne. now symmetry.
Qed.

Lemma load_configured file r :
  r ∈ names -> load file !! r = Some (default 0 (file ≫= (.!! r))).
Proof. intros Hr. now rewrite load_lookup, bool_decide_eq_true_2. Qed.

Lemma persisted_same_store m1 m2 r :
  stored m1 = stored m2 -> persisted m1 r = persisted m2 r.
Proof. unfold persisted. now intros ->. Qed.

Lemma persisted_stored m revs r z :
  stored m = Some revs -> revs !! r = Some z -> persisted m r = z.
Proof. unfold persisted. intros -> Hz. simpl. now rewrite Hz. Qed.

Lemma persisted_mk (revisions revs : gmap string Z) r :
  persisted (mkMonitor revisions (Some revs)) r = default 0 (revs !! r).
Proof. reflexivity. Qed.

Lemma persisted_load m r :
  r ∈ names -> load (stored m) !! r = Some (persisted m r).
Proof. apply load_configured. Qed.

Lemma dict_set_fresh {V} k (v : V) d :
  k ∉ d.*1 -> dict_set k v d = (d ++ [(k, v)])%list.
Proof.
  induction d as [|[k' v'] d IH]; intros Hk; simpl; [reflexivity|].
  destruct (String.eqb_spec k' k) as [->|Hne].
  - exfalso. apply Hk. left.
  - rewrite IH; [reflexivity|]. intros Hin. apply Hk. now right.
Qed.

Lemma pending_in_ext env L1 L2 repos :
  (forall r, r ∈ repos.*1 -> L1 !! r = L2 !! r) ->
  pending_in env L1 repos = pending_in env L2 repos.
Proof.
  induction repos as [|[n c] rest IH]; intros Heq; [reflexivity|].
  unfold pending_in in *. cbn [omap list_omap].
  rewrite (Heq n) by left.
  rewrite IH; [reflexivity|]. intros r Hr. apply Heq. now right.
Qed.

Lemma pending_in_app env L repos1 repos2 :
  pending_in env L (repos1 ++ repos2)
  = (pending_in env L repos1 ++ pending_in env L repos2)%list.
Proof. apply omap_app. Qed.

Lemma pending_in_keys env L repos r info :
  In (r, info) (pending_in env L repos) ->
  r ∈ repos.*1 /\
  (exists c, In (r, c) repos /\ notify_on_changes c = true) /\
  info.1 = default 0 (L !! r) /\ info.1 < info.2.
Proof.
  induction repos as [|[n c] rest IH]; [intros []|].
  unfold pending_in in *. cbn [omap list_omap].
  destruct (notify_on_changes c) eqn:Hn.
  - destruct (get_latest_revision env n) as [l|].
    + destruct (default 0 (L !! n) <? l) eqn:Hlt.
      * intros [[= <- <-]|Hin].
        -- split; [left|]. split; [exists c; split; [now left | assumption]|].
           split; [reflexivity|]. now apply Z.ltb_lt in Hlt.
        -- destruct (IH Hin) as (H1 & (c' & H2 & H3) & H4). split; [now right|].
           split; [exists c'; split; [now right | assumption] | assumption].
      * intros Hin. destruct (IH Hin) as (H1 & (c' & H2 & H3) & H4). split; [now right|].
        split; [exists c'; split; [now right | assumption] | assumption].
    + intros Hin. destruct (IH Hin) as (H1 & (c' & H2 & H3) & H4). split; [now right|].
      split; [exists c'; split; [now right | assumption] | assumption].
  - intros Hin. destruct (IH Hin) as (H1 & (c' & H2 & H3) & H4). split; [now right|].
    split; [exists c'; split; [now right | assumption] | assumption].
Qed.

Lemma advanced_refl D L : advanced_at D L L.
Proof. split; [reflexivity|]. intros r z Hz. exists z. split; [assumption | lia]. Qed.

Lemma advanced_trans (D1 D2 D : string -> Prop) L1 L2 L3 :
  (forall r, D1 r -> D r) -> (forall r, D2 r -> D r) ->
  advanced_at D1 L1 L2 -> advanced_at D2 L2 L3 -> advanced_at D L1 L3.
Proof.
  intros H1 H2 [Ha1 Ha2] [Hb1 Hb2]. split.
  - intros r Hr. rewrite Hb1, Ha1; [reflexivity | |]; intros Hd; apply Hr; auto.
  - intros r z Hz. destruct (Ha2 r z Hz) as (z1 & Hz1 & Hle1).
    destruct (Hb2 r z1 Hz1) as (z2 & Hz2 & Hle2). exists z2. split; [assumption | lia].
Qed.

Lemma advanced_weaken (D1 D : string -> Prop) L1 L2 :
  (forall r, D1 r -> D r) -> advanced_at D1 L1 L2 -> advanced_at D L1 L2.
Proof.
  intros H [Ha Hb]. split; [|assumption].
  intros r Hr. apply Ha. intros Hd. apply Hr. auto.
Qed.

Lemma advanced_insert (D : string -> Prop) L n l :
  D n -> default 0 (L !! n) < l -> advanced_at D L (<[n := l]> L).
Proof.
  intros Hn Hlt. split.
  - intros r Hr. rewrite lookup_insert_ne; [reflexivity|]. intros ->. auto.
  - intros r z Hz. destruct (decide (n = r)) as [->|Hne].
    + rewrite lookup_insert_eq. exists l. rewrite Hz in Hlt. simpl in Hlt.
      split; [reflexivity | lia].
    + rewrite lookup_insert_ne by assumption. exists z. split; [assumption | lia].
Qed.

(** What the loop over the repositories does to the monitor and to the
    pending set. *)
Lemma check_all_inv env : forall repos m rep,
  NoDup (repos.*1) ->
  (forall k, k ∈ (changes_to_update rep).*1 -> k ∉ repos.*1) ->
  changes_to_update (check_all env repos (m, rep)).2
  = (changes_to_update rep ++ pending_in env (last_revisions m) repos)%list /\
  email_success (check_all env repos (m, rep)).2 = email_success rep /\
  advanced_at (disabled_in repos) (last_revisions m)
              (last_revisions (check_all env repos (m, rep)).1) /\
  (stored (check_all env repos (m, rep)).1 = stored m \/
   exists revs, stored (check_all env repos (m, rep)).1 = Some revs /\
                advanced_at (disabled_in repos) (last_revisions m) revs /\
                advanced_at (disabled_in repos) revs
                            (last_revisions (check_all env repos (m, rep)).1)).
Proof.
  induction repos as [|[n c] rest IH]; intros m rep Hnd Hkeys.
  - simpl. rewrite app_nil_r. conjuncts; [reflexivity | reflexivity | apply advanced_refl | now left].
  - cbn [check_all]. apply NoDup_cons in Hnd as [Hn Hnd].
    assert (Hsub : forall r, disabled_in rest r -> disabled_in ((n, c) :: rest) r).
    { intros r (c' & Hin & Hc'). exists c'. split; [now right | assumption]. }
    assert (Hfresh : n ∉ (changes_to_update rep).*1).
    { intros Hin. apply (Hkeys n Hin). left. }
    (* the step for the repository at the head *)
    assert (Hstep : exists m1 rep1,
      check_repository env n c (m, rep) = (m1, rep1) /\
      changes_to_update rep1
      = (changes_to_update rep ++ pending_in env (last_revisions m) [(n, c)])%list /\
      email_success rep1 = email_success rep /\
      advanced_at (disabled_in ((n, c) :: rest)) (last_revisions m) (last_revisions m1) /\
      (forall r, r ∈ rest.*1 -> last_revisions m1 !! r = last_revisions m !! r) /\
      (stored m1 = stored m \/ stored m1 = Some (last_revisions m1))).
    { unfold check_repository, pending_in. cbn [omap list_omap].
      destruct (get_latest_revision env n) as [l|].
      2:{ eexists _, _. split; [reflexivity|]. cbn.
          destruct (notify_on_changes c); rewrite app_nil_r;
            conjuncts; try reflexivity; try apply advanced_refl; now left. }
      destruct (default 0 (last_revisions m !! n) <? l) eqn:Hlt.
      2:{ eexists _, _. split; [reflexivity|]. cbn.
          destruct (notify_on_changes c); rewrite app_nil_r;
            conjuncts; try reflexivity; try apply advanced_refl; now left. }
      apply Z.ltb_lt in Hlt.
      destruct (notify_on_changes c) eqn:Hnotify.
      - eexists _, _. split; [reflexivity|]. cbn.
        rewrite dict_set_fresh by assumption.
        conjuncts; try reflexivity; try apply advanced_refl; now left.
      - eexists _, _. split; [reflexivity|].
        assert (Hmem : last_revisions
                         (_save_last_revisions (write_ok env (Some n))
                            (<[n := l]> (last_revisions m))
                            (mkMonitor (<[n := l]> (last_revisions m)) (stored m)))
                       = <[n := l]> (last_revisions m)).
        { unfold _save_last_revisions. now destruct (write_ok env (Some n)). }
        rewrite Hmem. cbn. rewrite app_nil_r. conjuncts; try reflexivity.
        + apply advanced_insert; [|assumption]. exists c. split; [now left | assumption].
        + intros r Hr. rewrite lookup_insert_ne; [reflexivity|]. intros ->. contradiction.
        + unfold _save_last_revisions. destruct (write_ok env (Some n)); [now right | now left]. }
    destruct Hstep as (m1 & rep1 & -> & Hctu & Hmail & Hadv & Hrest & Hst).
    destruct (IH m1 rep1 Hnd) as (IH1 & IH2 & IH3 & IH4).
    { intros k Hk. rewrite Hctu, fmap_app, elem_of_app in Hk.
      destruct Hk as [Hk|Hk].
      - intros Hin. apply (Hkeys k Hk). now right.
      - assert (k = n) as ->; [|assumption].
        apply list_elem_of_fmap in Hk as ([k' info] & -> & Hk).
        apply list_elem_of_In, pending_in_keys in Hk as [Hk _].
        simpl in Hk. apply list_elem_of_singleton in Hk. exact Hk. }
    conjuncts.
    + rewrite IH1, Hctu, <- app_assoc. f_equal.
      rewrite (pending_in_ext env (last_revisions m1) (last_revisions m) rest Hrest).
      symmetry. apply (pending_in_app env (last_revisions m) [(n, c)] rest).
    + now rewrite IH2.
    + eapply advanced_trans; [| |exact Hadv|exact IH3]; auto.
    + destruct IH4 as [IH4|(revs & IH4 & IH5 & IH6)].
      * rewrite IH4. destruct Hst as [Hst|Hst]; [now left|].
        right. exists (last_revisions m1). conjuncts; [assumption | assumption |].
        exact (advanced_weaken _ _ _ _ Hsub IH3).
      * right. exists revs. conjuncts; [assumption | |].
        -- eapply advanced_trans; [| |exact Hadv|exact IH5]; auto.
        -- exact (advanced_weaken _ _ _ _ Hsub IH6).
Qed.

Lemma config_of_In r c :
  NoDup names -> In (r, c) repositories -> config_of repositories r = Some c.
Proof.
  unfold config_of.
  induction repositories as [|[n c'] rest IH]; intros Hnd Hin; [destruct Hin|].
  apply NoDup_cons in Hnd as [Hn Hnd]. simpl.
  destruct (String.eqb_spec n r) as [->|Hne].
  - destruct Hin as [[= ->]|Hin]; [reflexivity|].
    exfalso. apply Hn. apply list_elem_of_fmap. exists (r, c).
    split; [reflexivity | now apply list_elem_of_In].
  - destruct Hin as [[= -> ->]|Hin]; [congruence|]. now apply IH.
Qed.

Lemma enabled_not_disabled r :
  NoDup names -> notifies repositories r = true -> ~ disabled_in repositories r.
Proof.
  intros Hnd Hn (c & Hin & Hc). unfold notifies in Hn.
  rewrite (config_of_In r c Hnd Hin) in Hn. congruence.
Qed.

(** The watermarks and the pending set at the end of the check phase. *)
Lemma check_phase_spec env m :
  NoDup names ->
  changes_to_update (check_phase repositories env m).2
  = pending_in env (load (stored m)) repositories /\
  email_success (check_phase repositories env m).2 = None /\
  advanced_at (disabled_in repositories) (load (stored m))
              (last_revisions (check_phase repositories env m).1) /\
  (stored (check_phase repositories env m).1 = stored m \/
   exists revs, stored (check_phase repositories env m).1 = Some revs /\
                advanced_at (disabled_in repositories) (load (stored m)) revs /\
                advanced_at (disabled_in repositories) revs
                            (last_revisions (check_phase repositories env m).1)).
Proof.
  intros Hnd. unfold check_phase.
  apply (check_all_inv env repositories
           (mkMonitor (load (stored m)) (stored m)) (mkReport [] [] [] None) Hnd).
  intros k Hk. inversion Hk.
Qed.

(** Reading a watermark off a map that was advanced from the loaded one. *)
Lemma advanced_from_load D m revs r :
  r ∈ names ->
  advanced_at D (load (stored m)) revs ->
  exists z, revs !! r = Some z /\ persisted m r <= z /\ (~ D r -> z = persisted m r).
Proof.
  intros Hr [Ha Hb].
  destruct (Hb r _ (persisted_load m r Hr)) as (z & Hz & Hle).
  exists z. conjuncts; [assumption | assumption |].
  intros Hd. rewrite (Ha r Hd), (persisted_load m r Hr) in Hz. congruence.
Qed.

Lemma check_phase_persisted env m r :
  NoDup names -> r ∈ names ->
  persisted m r <= persisted (check_phase repositories env m).1 r /\
  (notifies repositories r = true ->
   persisted (check_phase repositories env m).1 r = persisted m r) /\
  exists z, last_revisions (check_phase repositories env m).1 !! r = Some z /\
            persisted (check_phase repositories env m).1 r <= z /\
            (notifies repositories r = true -> z = persisted m r).
Proof.
  intros Hnd Hr.
  destruct (check_phase_spec env m Hnd) as (_ & _ & Hmem & Hst).
  destruct (advanced_from_load _ m _ r Hr Hmem) as (z & Hz & Hle & Heq).
  destruct Hst as [Hst|(revs & Hst & Hrevs & Hrm)].
  - rewrite (persisted_same_store _ m r Hst).
    conjuncts; [lia | reflexivity |]. exists z. conjuncts; [assumption | assumption |].
    intros Hn. apply Heq. now apply enabled_not_disabled.
  - destruct (advanced_from_load _ m _ r Hr Hrevs) as (z1 & Hz1 & Hle1 & Heq1).
    rewrite (persisted_stored _ revs r z1 Hst Hz1).
    conjuncts; [assumption | |].
    + intros Hn. apply Heq1. now apply enabled_not_disabled.
    + exists z. conjuncts; [assumption | |].
      * destruct Hrm as [_ Hrm]. destruct (Hrm r z1 Hz1) as (z2 & Hz2 & Hle2).
        rewrite Hz in Hz2. injection Hz2 as <-. exact Hle2.
      * intros Hn. apply Heq. now apply enabled_not_disabled.
Qed.

Lemma pending_in_same env env' L1 L2 repos :
  (forall r, get_latest_revision env' r = get_latest_revision env r) ->
  (forall r c, In (r, c) repos -> notify_on_changes c = true -> L1 !! r = L2 !! r) ->
  pending_in env' L1 repos = pending_in env L2 repos.
Proof.
  intros Henv. induction repos as [|[n c] rest IH]; intros Heq; [reflexivity|].
  unfold pending_in in *. cbn [omap list_omap].
  rewrite IH by (intros r c' Hin; apply Heq; now right).
  destruct (notify_on_changes c) eqn:Hn; [|reflexivity].
  rewrite Henv, (Heq n c) by (assumption || now left). reflexivity.
Qed.

(** The watermark of [r] after the pending set was written into
    [revisions]: untouched, or the latest revision of a pending entry. *)
Lemma commit_lookup (ctu : list (string * (Z * Z))) r : forall revisions : gmap string Z,
  List.fold_left (fun temp '(repo_name, info) => <[repo_name := snd info]> temp)
                 ctu revisions !! r = revisions !! r \/
  exists info, In (r, info) ctu /\
    List.fold_left (fun temp '(repo_name, info) => <[repo_name := snd info]> temp)
                   ctu revisions !! r = Some info.2.
Proof.
  induction ctu as [|[n info] rest IH]; intros L; [now left|].
  cbn [List.fold_left]. destruct (IH (<[n := info.2]> L)) as [Hsame|(info' & Hin & Hval)].
  - destruct (decide (n = r)) as [->|Hne].
    + right. exists info. split; [now left|]. now rewrite Hsame, lookup_insert_eq.
    + left. now rewrite Hsame, lookup_insert_ne.
  - right. exists info'. split; [now right | assumption].
Qed.

(** The three ways the dispatch phase can go. *)
Lemma dispatch_phase_cases env m1 rep1 :
  changes_to_update (dispatch_phase repositories env (m1, rep1)).2 = changes_to_update rep1 /\
  ((all_changes rep1 = [] /\
    dispatch_phase repositories env (m1, rep1) = (m1, rep1)) \/
   (email_success (dispatch_phase repositories env (m1, rep1)).2 = Some false /\
    (dispatch_phase repositories env (m1, rep1)).1
    = mkMonitor (load (stored m1)) (stored m1)) \/
   (email_success (dispatch_phase repositories env (m1, rep1)).2 = Some true /\
    (stored (dispatch_phase repositories env (m1, rep1)).1 = stored m1 \/
     stored (dispatch_phase repositories env (m1, rep1)).1
     = Some (List.fold_left (fun temp '(repo_name, info) => <[repo_name := snd info]> temp)
                            (changes_to_update rep1) (last_revisions m1))))).
Proof.
  unfold dispatch_phase. destruct (all_changes rep1) as [|c cs].
  - split; [reflexivity|]. left. split; reflexivity.
  - destruct (deliver env (c :: cs)).
    + split; [reflexivity|]. right. right. split; [reflexivity|].
      unfold _save_last_revisions. destruct (write_ok env None); [now right | now left].
    + split; [reflexivity|]. right. left. split; reflexivity.
Qed.

Lemma dispatch_phase_all_changes env m1 rep1 :
  all_changes (dispatch_phase repositories env (m1, rep1)).2 = all_changes rep1.
Proof.
  unfold dispatch_phase. destruct (all_changes rep1) as [|c cs] eqn:Hc; [exact Hc|].
  destruct (deliver env (c :: cs)); reflexivity.
Qed.

Lemma dispatch_phase_delivered env m1 rep1 :
  email_success rep1 = None ->
  email_success (dispatch_phase repositories env (m1, rep1)).2 = Some true ->
  all_changes rep1 <> [] /\ deliver env (all_changes rep1) = true.
Proof.
  unfold dispatch_phase. intros Hnone.
  destruct (all_changes rep1) as [|c cs]; [cbn; congruence|].
  destruct (deliver env (c :: cs)); cbn; [split; [discriminate | reflexivity] | discriminate].
Qed.

Lemma pending_enabled env L r info :
  NoDup names -> In (r, info) (pending_in env L repositories) ->
  r ∈ names /\ notifies repositories r = true /\
  info.1 = default 0 (L !! r) /\ info.1 < info.2.
Proof.
  intros Hnd Hin. apply pending_in_keys in Hin as (Hr & (c & Hc & Hn) & H1 & H2).
  conjuncts; try assumption. unfold notifies. now rewrite (config_of_In r c Hnd Hc).
Qed.

(** One pass of the loop never lowers a persisted watermark, and raises
    that of a notification-enabled repository only after a delivered
    notification. *)
Lemma cycle_persisted env m r :
  NoDup names -> r ∈ names ->
  persisted m r <= persisted (cycle repositories env m).1 r /\
  (persisted m r < persisted (cycle repositories env m).1 r ->
   notifies repositories r = false \/
   email_success (cycle repositories env m).2 = Some true).
Proof.
  intros Hnd Hr. unfold cycle.
  destruct (check_phase_persisted env m r Hnd Hr) as (Hle & Hen & z & Hz & Hzle & Hzen).
  destruct (check_phase_spec env m Hnd) as (Hctu & _).
  destruct (check_phase repositories env m) as [m1 rep1] eqn:Hcp.
  cbn [fst snd] in Hle, Hen, Hz, Hzle, Hzen, Hctu.
  destruct (dispatch_phase_cases env m1 rep1) as (_ & [[_ ->]|[[_ Hm]|[Hok [Hst|Hst]]]]).
  - cbn [fst]. split; [assumption|]. intros Hlt.
    destruct (notifies repositories r); [|now left]. specialize (Hen eq_refl). lia.
  - rewrite (persisted_same_store (dispatch_phase repositories env (m1, rep1)).1 m1 r)
      by now rewrite Hm.
    split; [assumption|]. intros Hlt.
    destruct (notifies repositories r); [|now left]. specialize (Hen eq_refl). lia.
  - rewrite (persisted_same_store _ m1 r Hst). split; [assumption|]. now right.
  - split; [|now right].
    destruct (commit_lookup (changes_to_update rep1) r (last_revisions m1))
      as [Hsame|(info & Hin & Hval)].
    + rewrite (persisted_stored _ _ r z Hst) by now rewrite Hsame. lia.
    + rewrite (persisted_stored _ _ r info.2 Hst Hval).
      rewrite Hctu in Hin.
      apply (pending_enabled env _ r info Hnd) in Hin as (_ & Hn & H1 & H2).
      rewrite (persisted_load m r Hr) in H1. simpl in H1. lia.
Qed.

Lemma matching_In repository_path n c :
  matching repositories repository_path = Some (n, c) -> In (n, c) repositories.
Proof.
  unfold matching.
  destruct (List.find _ repositories) as [found|] eqn:Hf.
  - intros [= ->]. now apply List.find_some in Hf as [Hin _].
  - destruct repositories as [|x rest]; [discriminate|]. intros [= ->]. now left.
Qed.

(** A hook invocation never lowers a persisted watermark; it raises only
    that of the repository it resolved, after a delivered notification
    or without any dispatch when notifications are off or there is no
    change to report. *)
Lemma hook_persisted env repository_path revision m r :
  NoDup names -> r ∈ names ->
  persisted m r <= persisted (hook repositories env repository_path revision m).1 r /\
  (persisted m r < persisted (hook repositories env repository_path revision m).1 r ->
   commit_repo (hook repositories env repository_path revision m).2 = Some r /\
   (commit_dispatch (hook repositories env repository_path revision m).2 = Some true \/
    (commit_dispatch (hook repositories env repository_path revision m).2 = None /\
     (notifies repositories r = false \/
      commit_changes (hook repositories env repository_path revision m).2 = [])))).
Proof.
  intros Hnd Hr. unfold hook, process_commit.
  destruct (Py.int revision) as [rev|]; [|unfold persisted; cbn; split; [reflexivity | intros; lia]].
  destruct (matching repositories repository_path) as [[n c]|] eqn:Hm;
    [|unfold persisted; cbn; split; [reflexivity | intros; lia]].
  apply matching_In in Hm.
  cbn [last_revisions stored].
  destruct (default 0 (load (stored m) !! n) <? rev) eqn:Hlt;
    [|unfold persisted; cbn; split; [reflexivity | intros; lia]].
  apply Z.ltb_lt in Hlt.
  assert (Hnotify : notify_on_changes c = notifies repositories n).
  { unfold notifies. now rewrite (config_of_In n c Hnd Hm). }
  assert (Hrec : forall ok,
    persisted m r <=
    persisted (mkMonitor (last_revisions m)
                 (stored (_save_last_revisions ok (<[n := rev]> (load (stored m)))
                            (mkMonitor (<[n := rev]> (load (stored m))) (stored m))))) r
    /\ (persisted m r <
         persisted (mkMonitor (last_revisions m)
                 (stored (_save_last_revisions ok (<[n := rev]> (load (stored m)))
                            (mkMonitor (<[n := rev]> (load (stored m))) (stored m))))) r
         -> n = r)).
  { intros [|]; cbn [_save_last_revisions stored].
    - rewrite persisted_mk. destruct (decide (n = r)) as [->|Hne].
      + rewrite lookup_insert_eq. simpl.
        rewrite (persisted_load m r Hr) in Hlt. simpl in Hlt. split; [lia | reflexivity].
      + rewrite lookup_insert_ne, (persisted_load m r Hr) by assumption. simpl.
        split; [lia | lia].
    - unfold persisted. cbn. split; [reflexivity | intros; lia]. }
  destruct (notify_on_changes c && _) eqn:Hgate.
  - destruct (deliver env _).
    + cbn [fst snd commit_repo commit_dispatch commit_changes].
      destruct (Hrec (write_ok env (Some n))) as [H1 H2]. split; [assumption|].
      intros Hadv. rewrite (H2 Hadv). split; [reflexivity | now left].
    + unfold persisted. cbn. split; [reflexivity | intros; lia].
  - cbn [fst snd commit_repo commit_dispatch commit_changes].
    destruct (Hrec (write_ok env (Some n))) as [H1 H2]. split; [assumption|].
    intros Hadv. rewrite <- (H2 Hadv). split; [reflexivity|]. right. split; [reflexivity|].
    rewrite <- Hnotify. apply andb_false_iff in Hgate as [Hg|Hg]; [now left|].
    right. now destruct (get_changes env n _ rev).
Qed.

(** The records handed to the dispatcher are those of the pending
    repositories, in the order of the pending set. *)
Lemma check_all_changes env : forall repos m rep,
  (forall k, k ∈ (changes_to_update rep).*1 -> k ∉ repos.*1) ->
  NoDup (repos.*1) ->
  all_changes rep
  = List.flat_map (fun '(r, info) => get_changes env r info.1 info.2) (changes_to_update rep) ->
  all_changes (check_all env repos (m, rep)).2
  = List.flat_map (fun '(r, info) => get_changes env r info.1 info.2)
                  (changes_to_update (check_all env repos (m, rep)).2).
Proof.
  induction repos as [|[n c] rest IH]; intros m rep Hkeys Hnd Hinv; [exact Hinv|].
  cbn [check_all]. apply NoDup_cons in Hnd as [Hn Hnd].
  assert (Hfresh : n ∉ (changes_to_update rep).*1).
  { intros Hin. apply (Hkeys n Hin). left. }
  assert (Hrest : forall k, k ∈ (changes_to_update rep).*1 -> k ∉ rest.*1).
  { intros k Hk Hin. apply (Hkeys k Hk). now right. }
  unfold check_repository.
  destruct (get_latest_revision env n) as [l|]; [|now apply IH].
  destruct (default 0 (last_revisions m !! n) <? l); [|now apply IH].
  destruct (notify_on_changes c); [|now apply IH].
  apply IH; cbn [changes_to_update all_changes]; [|assumption|].
  - rewrite dict_set_fresh by assumption. intros k Hk.
    rewrite fmap_app, elem_of_app in Hk. destruct Hk as [Hk|Hk]; [now apply Hrest|].
    apply list_elem_of_singleton in Hk. simpl in Hk. now subst k.
  - rewrite dict_set_fresh by assumption.
    rewrite List.flat_map_app, Hinv. cbn. now rewrite app_nil_r.
Qed.

Lemma check_phase_changes env m :
  NoDup names ->
  all_changes (check_phase repositories env m).2
  = List.flat_map (fun '(r, info) => get_changes env r info.1 info.2)
                  (pending_in env (load (stored m)) repositories).
Proof.
  intros Hnd. rewrite <- (proj1 (check_phase_spec env m Hnd)).
  unfold check_phase. apply check_all_changes; [|assumption|reflexivity].
  intros k Hk. inversion Hk.
Qed.

Lemma check_all_app env repos1 repos2 st :
  check_all env (repos1 ++ repos2) st = check_all env repos2 (check_all env repos1 st).
Proof.
  revert st. induction repos1 as [|[n c] rest IH]; intros st; [reflexivity|].
  cbn [app check_all]. apply IH.
Qed.

(** Checking repositories other than [r] leaves the watermark of [r]
    alone, in memory and, up to a rewrite with the same value, in the
    store. *)
Lemma check_all_frame env r : forall repos m rep,
  r ∉ repos.*1 ->
  last_revisions (check_all env repos (m, rep)).1 !! r = last_revisions m !! r /\
  (stored (check_all env repos (m, rep)).1 = stored m \/
   exists revs, stored (check_all env repos (m, rep)).1 = Some revs /\
                revs !! r = last_revisions m !! r).
Proof.
  induction repos as [|[n c] rest IH]; intros m rep Hr; [split; [reflexivity | now left]|].
  cbn [check_all].
  assert (Hne : n <> r) by (intros ->; apply Hr; left).
  assert (Hrest : r ∉ rest.*1) by (intros Hin; apply Hr; now right).
  unfold check_repository.
  destruct (get_latest_revision env n) as [l|]; [|now apply IH].
  destruct (default 0 (last_revisions m !! n) <? l); [|now apply IH].
  destruct (notify_on_changes c); [now apply IH|].
  unfold _save_last_revisions.
  destruct (write_ok env (Some n)); cbv iota; cbn [last_revisions stored];
    match goal with
    | |- context [check_all env rest (?m1, rep)] =>
        destruct (IH m1 rep Hrest) as [IH1 IH2]
    end; cbn [last_revisions stored] in IH1, IH2;
    rewrite lookup_insert_ne in IH1 by assumption;
    (split; [exact IH1|]).
  - right. destruct IH2 as [->|(revs & -> & Hrevs)].
    + eexists. split; [reflexivity|]. now rewrite lookup_insert_ne.
    + exists revs. split; [reflexivity|]. now rewrite Hrevs, lookup_insert_ne.
  - destruct IH2 as [->|(revs & -> & Hrevs)]; [now left|].
    right. exists revs. split; [reflexivity|]. now rewrite Hrevs, lookup_insert_ne.
Qed.

(** A notification-disabled repository is advanced as soon as its new
    revision is observed, in the check phase, and is not part of the
    pending set. *)
Lemma disabled_advanced_immediately env m r l :
  NoDup names -> r ∈ names ->
  notifies repositories r = false ->
  get_latest_revision env r = Some l ->
  persisted m r < l ->
  write_ok env (Some r) = true ->
  persisted (check_phase repositories env m).1 r = l /\
  r ∉ (changes_to_update (check_phase repositories env m).2).*1.
Proof.
  intros Hnd Hr Hdis Hlatest Hlt Hok. split.
  - apply list_elem_of_fmap in Hr as ([r' c] & -> & Hin). cbn [fst] in *.
    apply list_elem_of_In in Hin.
    assert (Hc : notify_on_changes c = false).
    { unfold notifies in Hdis. now rewrite (config_of_In r' c Hnd Hin) in Hdis. }
    assert (Hload : load (stored m) !! r' = Some (persisted m r')).
    { apply persisted_load. apply list_elem_of_fmap. exists (r', c).
      split; [reflexivity | now apply list_elem_of_In]. }
    unfold check_phase. revert Hload. generalize (load (stored m)) as L0. intros L0 Hload.
    apply List.in_split in Hin as (pre & post & Hsplit).
    rewrite Hsplit in Hnd |- *. rewrite fmap_app, fmap_cons in Hnd. cbn [fst] in Hnd.
    apply NoDup_app in Hnd as (_ & Hpre & Hpost). apply NoDup_cons in Hpost as [Hpost _].
    assert (Hpre' : r' ∉ pre.*1) by (intros Hin; apply (Hpre r' Hin); left).
    rewrite check_all_app. cbn [check_all].
    destruct (check_all env pre (mkMonitor L0 (stored m), mkReport [] [] [] None))
      as [m1 rep1] eqn:Hcheck.
    destruct (check_all_frame env r' pre (mkMonitor L0 (stored m))
                (mkReport [] [] [] None) Hpre') as [Hmem _].
    rewrite Hcheck in Hmem. cbn [fst last_revisions] in Hmem.
    assert (Hlast : default 0 (last_revisions m1 !! r') = persisted m r')
      by (now rewrite Hmem, Hload).
    unfold check_repository.
    rewrite Hlatest, Hlast, (proj2 (Z.ltb_lt _ _) Hlt), Hc, Hok.
    cbn [_save_last_revisions].
    destruct (check_all_frame env r' post
                (mkMonitor (<[r' := l]> (last_revisions m1))
                           (Some (<[r' := l]> (last_revisions m1)))) rep1 Hpost)
      as [_ [Hst|(revs & Hst & Hrevs)]]; cbn [stored last_revisions] in *.
    + apply (persisted_stored _ _ r' l Hst). apply lookup_insert_eq.
    + apply (persisted_stored _ _ r' l Hst). rewrite Hrevs. apply lookup_insert_eq.
  - rewrite (proj1 (check_phase_spec env m Hnd)). intros Hin.
    apply list_elem_of_fmap in Hin as ([r' info] & -> & Hin).
    apply list_elem_of_In, (pending_enabled env _ r' info Hnd) in Hin as (_ & Hn & _).
    cbn [fst] in Hdis. congruence.
Qed.

(** While nothing is delivered, no cycle moves the persisted watermark
    of a notification-enabled repository. *)
Lemma undelivered_cycle_holds_watermark env m r :
  NoDup names -> r ∈ names -> notifies repositories r = true ->
  (forall changes, changes <> [] -> deliver env changes = false) ->
  persisted (cycle repositories env m).1 r = persisted m r.
Proof.
  intros Hnd Hr Hn Hdown.
  destruct (cycle_persisted env m r Hnd Hr) as [Hle Hgate].
  destruct (Z.eq_dec (persisted (cycle repositories env m).1 r) (persisted m r))
    as [Heq|Hne]; [exact Heq|].
  destruct Hgate as [Hdis|Hok]; [lia | congruence |].
  exfalso. unfold cycle in Hok.
  destruct (check_phase_spec env m Hnd) as (_ & Hnone & _).
  destruct (check_phase repositories env m) as [m1 rep1]. cbn [snd] in Hnone.
  destruct (dispatch_phase_delivered env m1 rep1 Hnone Hok) as [Hsome Htrue].
  rewrite (Hdown _ Hsome) in Htrue. discriminate.
Qed.

Lemma step_persisted op m r :
  NoDup names -> r ∈ names ->
  persisted m r <= persisted (step repositories op m) r.
Proof.
  intros Hnd Hr. destruct op as [env|env repository_path revision]; cbn [step].
  - apply (cycle_persisted env m r Hnd Hr).
  - apply (hook_persisted env repository_path revision m r Hnd Hr).
Qed.

(** What does hold of the watermarks.  For every configured repository
    and every sequence of scheduled cycles and hook invocations, the
    persisted watermark never decreases.  A cycle raises it only if
    notification is disabled for the repository or the cycle's
    notification was delivered; a hook invocation raises it only for
    the repository it resolved, and only if its notification was
    delivered, or, with no dispatch attempt at all, if notification is
    disabled or the change list fetched for the commit is empty.  With
    notification disabled, a cycle records a new revision as soon as it
    observes it, in the check phase (provided the write goes through),
    and the repository never enters the pending set handed to the
    dispatcher. *)
Theorem watermark_monotone_and_gated r :
  NoDup names -> r ∈ names ->
  (forall ops m, persisted m r <= persisted (run_ops repositories ops m) r) /\
  (forall env m,
      persisted m r < persisted (cycle repositories env m).1 r ->
      notifies repositories r = false \/
      email_success (cycle repositories env m).2 = Some true) /\
  (forall env repository_path revision m,
      persisted m r < persisted (hook repositories env repository_path revision m).1 r ->
      commit_repo (hook repositories env repository_path revision m).2 = Some r /\
      (commit_dispatch (hook repositories env repository_path revision m).2 = Some true \/
       (commit_dispatch (hook repositories env repository_path revision m).2 = None /\
        (notifies repositories r = false \/
         commit_changes (hook repositories env repository_path revision m).2 = [])))) /\
  (forall env m l,
      notifies repositories r = false ->
      get_latest_revision env r = Some l ->
      persisted m r < l ->
      write_ok env (Some r) = true ->
      persisted (check_phase repositories env m).1 r = l /\
      r ∉ (changes_to_update (cycle repositories env m).2).*1).
Proof.
  intros Hnd Hr. conjuncts.
  - unfold run_ops. induction ops as [|op ops IH]; intros m; cbn [List.fold_left].
    + lia.
    + pose proof (step_persisted op m r Hnd Hr). specialize (IH (step repositories op m)).
      lia.
  - intros env m. apply (cycle_persisted env m r Hnd Hr).
  - intros env repository_path revision m.
    apply (hook_persisted env repository_path revision m r Hnd Hr).
  - intros env m l Hdis Hlatest Hlt Hok.
    destruct (disabled_advanced_immediately env m r l Hnd Hr Hdis Hlatest Hlt Hok)
      as [Hadv Hout].
    split; [exact Hadv|]. unfold cycle.
    destruct (check_phase repositories env m) as [m1 rep1].
    now rewrite (proj1 (dispatch_phase_cases env m1 rep1)).
Qed.

(** C1.  When the notification of a cycle is not delivered, the cycle
    writes nothing after the check phase, ends with the in-memory
    watermarks reloaded from the store, leaves the persisted watermark
    of every notification-enabled repository where it was, and the next
    cycle, the repositories answering as before, arrives at the same
    pending set (the same repositories with the same revision ranges)
    and hands the same change records to the dispatcher. *)
Theorem failed_dispatch_keeps_watermarks env m :
  NoDup names ->
  email_success (cycle repositories env m).2 = Some false ->
  stored (cycle repositories env m).1 = stored (check_phase repositories env m).1 /\
  last_revisions (cycle repositories env m).1 = load (stored (cycle repositories env m).1) /\
  (forall r, r ∈ names -> notifies repositories r = true ->
             persisted (cycle repositories env m).1 r = persisted m r) /\
  (forall env',
      (forall r, get_latest_revision env' r = get_latest_revision env r) ->
      changes_to_update (cycle repositories env' (cycle repositories env m).1).2
      = changes_to_update (cycle repositories env m).2 /\
      ((forall r a b, get_changes env' r a b = get_changes env r a b) ->
       all_changes (cycle repositories env' (cycle repositories env m).1).2
       = all_changes (cycle repositories env m).2)).
Proof.
  intros Hnd Hfail.
  assert (Hkeep : forall r, r ∈ names -> notifies repositories r = true ->
            persisted (check_phase repositories env m).1 r = persisted m r).
  { intros r Hr Hn. now apply (check_phase_persisted env m r Hnd Hr). }
  destruct (check_phase_spec env m Hnd) as (Hctu & Hnone & _).
  pose proof (check_phase_changes env m Hnd) as Hall.
  unfold cycle in *.
  destruct (check_phase repositories env m) as [m1 rep1] eqn:Hcp.
  cbn [fst snd] in Hkeep, Hctu, Hnone, Hall.
  destruct (dispatch_phase_cases env m1 rep1) as (Hsame & [[_ Heq]|[[_ Hm]|[Hok _]]]).
  - rewrite Heq in Hfail. cbn [snd] in Hfail. congruence.
  - assert (Hst : stored (dispatch_phase repositories env (m1, rep1)).1 = stored m1)
      by now rewrite Hm.
    assert (Hp : forall r, r ∈ names -> notifies repositories r = true ->
              persisted (dispatch_phase repositories env (m1, rep1)).1 r = persisted m r).
    { intros r Hr Hn.
      rewrite (persisted_same_store (dispatch_phase repositories env (m1, rep1)).1 m1 r Hst).
      now apply Hkeep. }
    conjuncts.
    + exact Hst.
    + rewrite Hm. reflexivity.
    + exact Hp.
    + intros env' Henv.
      assert (Hpending :
        pending_in env' (load (stored (dispatch_phase repositories env (m1, rep1)).1))
                   repositories
        = pending_in env (load (stored m)) repositories).
      { apply pending_in_same; [exact Henv|].
        intros r c Hin Hn.
        assert (Hr : r ∈ names).
        { apply list_elem_of_fmap. exists (r, c).
          split; [reflexivity | now apply list_elem_of_In]. }
        rewrite !persisted_load by assumption. f_equal. apply Hp; [assumption|].
        unfold notifies. now rewrite (config_of_In r c Hnd Hin). }
      pose proof (check_phase_changes env' (dispatch_phase repositories env (m1, rep1)).1 Hnd)
        as Hall'.
      destruct (check_phase_spec env' (dispatch_phase repositories env (m1, rep1)).1 Hnd)
        as (Hctu' & _).
      destruct (check_phase repositories env' (dispatch_phase repositories env (m1, rep1)).1)
        as [m2 rep2] eqn:Hcp'.
      cbn [fst snd] in Hctu', Hall'.
      split.
      * now rewrite (proj1 (dispatch_phase_cases env' m2 rep2)), Hsame, Hctu', Hctu.
      * intros Hchanges.
        rewrite !dispatch_phase_all_changes, Hall', Hall, Hpending.
        apply flat_map_ext. intros [r info]. apply Hchanges.
  - congruence.
Qed.

End SchedulerFacts.

Lemma sample_repos_distinct : NoDup (Samples.repos.*1).
Proof. apply (bool_decide_unpack _). vm_compute. exact I. Qed.

Lemma failed_dispatch_keeps_watermarks_witness :
  NoDup (Samples.repos.*1) /\
  email_success (cycle Samples.repos Samples.mail_down Samples.fresh).2 = Some false /\
  persisted (cycle Samples.repos Samples.mail_down Samples.fresh).1 "A" = 0 /\
  changes_to_update
    (cycle Samples.repos Samples.mail_down
           (cycle Samples.repos Samples.mail_down Samples.fresh).1).2
  = [("A", (0, 5))].
Proof.
  pose proof (failed_dispatch_keeps_watermarks Samples.repos Samples.mail_down
                Samples.fresh sample_repos_distinct eq_refl) as (_ & _ & Hkeep & Hnext).
  conjuncts.
  - exact sample_repos_distinct.
  - reflexivity.
  - rewrite Hkeep; [reflexivity | | reflexivity]. apply (bool_decide_unpack _). vm_compute. exact I.
  - rewrite (proj1 (Hnext Samples.mail_down (fun _ => eq_refl))). vm_compute. reflexivity.
Defined.

(** A hook invocation for a notification-enabled repository whose
    change list comes back empty records the revision although no
    notification was dispatched. *)
Lemma hook_advances_without_notification :
  ~ (persisted Samples.fresh "A"
     < persisted (hook Samples.repos Samples.no_log "/repos/a" "5" Samples.fresh).1 "A" ->
     commit_dispatch (hook Samples.repos Samples.no_log "/repos/a" "5" Samples.fresh).2
     = Some true \/
     notifies Samples.repos "A" = false).
Proof.
  intros H. destruct H as [H|H]; [vm_compute; reflexivity | |]; vm_compute in H; discriminate.
Qed.

Lemma watermark_monotone_and_gated_witness :
  NoDup (Samples.repos.*1) /\ "A" ∈ Samples.repos.*1 /\
  persisted Samples.fresh "A"
  <= persisted (run_ops Samples.repos
                        [ScheduledCycle Samples.mail_down;
                         HookCommit Samples.no_log "/repos/a" "5";
                         ScheduledCycle Samples.mail_down] Samples.fresh) "A".
Proof.
  assert (HA : "A" ∈ Samples.repos.*1) by (apply (bool_decide_unpack _); vm_compute; exact I).
  conjuncts; [exact sample_repos_distinct | exact HA |].
  apply (proj1 (watermark_monotone_and_gated Samples.repos "A" sample_repos_distinct HA)).
Defined.

(** ** Paginated log retrieval *)

Lemma range_nil a b : b <= a -> Py.range a b = [].
Proof. intros H. unfold Py.range. now replace (Z.to_nat (b - a)) with 0%nat by lia. Qed.

Lemma map_seq_shift {A} (f g : nat -> A) n : forall m k,
  (forall i, f (n + i)%nat = g i) ->
  List.map f (List.seq (n + k) m) = List.map g (List.seq k m).
Proof.
  induction m as [|m IH]; intros k Hfg; [reflexivity|].
  cbn [List.seq List.map]. rewrite Hfg. f_equal.
  replace (S (n + k)) with (n + S k)%nat by lia. now apply IH.
Qed.

Lemma range_app a b c : a <= b -> b <= c -> (Py.range a b ++ Py.range b c)%list = Py.range a c.
Proof.
  intros Hab Hbc. unfold Py.range.
  replace (Z.to_nat (c - a)) with (Z.to_nat (b - a) + Z.to_nat (c - b))%nat by lia.
  rewrite List.seq_app, List.map_app. f_equal.
  symmetry. rewrite Nat.add_0_l.
  replace (Z.to_nat (b - a)) with (Z.to_nat (b - a) + 0)%nat at 1 by lia.
  apply map_seq_shift. intros i. lia.
Qed.

Lemma range_In a b r : In r (Py.range a b) <-> a <= r < b.
Proof.
  unfold Py.range. rewrite List.in_map_iff. split.
  - intros (i & <- & Hi). apply List.in_seq in Hi. lia.
  - intros Hr. exists (Z.to_nat (r - a)). split; [lia|]. apply List.in_seq. lia.
Qed.

Lemma page_count_zero first to_revision :
  to_revision < first -> page_count first to_revision = 0%nat.
Proof.
  intros H. unfold page_count, page_size.
  destruct (Z.le_gt_cases 0 (to_revision - first + 500)) as [Hle|Hgt].
  - rewrite Z.div_small by lia. reflexivity.
  - assert ((to_revision - first + 500) / 500 < 0) by (apply Z.div_lt_upper_bound; lia).
    lia.
Qed.

Lemma page_count_succ first to_revision :
  first <= to_revision ->
  page_count first to_revision = S (page_count (first + page_size) to_revision).
Proof.
  intros H. unfold page_count, page_size.
  replace (to_revision - first + 500) with (to_revision - (first + 500) + 500 + 1 * 500) by lia.
  rewrite Z.div_add by lia.
  destruct (Z.le_gt_cases 0 (to_revision - (first + 500) + 500)) as [Hle|Hgt].
  - assert (0 <= (to_revision - (first + 500) + 500) / 500) by (apply Z.div_pos; lia). lia.
  - assert (-1 <= (to_revision - (first + 500) + 500) / 500)
      by (apply Z.div_le_lower_bound; lia).
    assert ((to_revision - (first + 500) + 500) / 500 < 0)
      by (apply Z.div_lt_upper_bound; lia).
    lia.
Qed.

(** The pages are consecutive and cover the range exactly: no revision
    is left out and none is visited twice. *)
Lemma pages_partition : forall n first to_revision,
  n = page_count first to_revision ->
  List.flat_map (fun '(a, b) => Py.range a (b + 1)) (pages n first to_revision)
  = Py.range first (to_revision + 1).
Proof.
  induction n as [|n IH]; intros first to_revision Hn.
  - destruct (Z.le_gt_cases first to_revision) as [Hle|Hgt].
    + rewrite page_count_succ in Hn by assumption. discriminate.
    + simpl. symmetry. apply range_nil. lia.
  - destruct (Z.le_gt_cases first to_revision) as [Hle|Hgt].
    2:{ rewrite page_count_zero in Hn by assumption. discriminate. }
    rewrite page_count_succ in Hn by assumption. injection Hn as Hn.
    cbn [pages List.flat_map]. rewrite (IH _ _ Hn).
    destruct (Z.le_gt_cases (first + page_size) to_revision) as [Hwide|Hlast];
      unfold page_size in *.
    + rewrite Z.min_l by lia. replace (first + 500 - 1 + 1) with (first + 500) by lia.
      apply range_app; lia.
    + rewrite Z.min_r by lia. rewrite (range_nil (first + 500)) by lia.
      apply app_nil_r.
Qed.

(** A root built over entries that are [logentry] elements without
    nested entries has exactly these entries below it. *)
Lemma findall_below_flat entries :
  (forall e, In e entries ->
             ET.has_tag "logentry" e = true /\ ET.findall_below e "logentry" = []) ->
  ET.findall_below (ET.Element_with "log" entries) "logentry" = entries.
Proof.
  unfold ET.findall_below, ET.Element_with. cbn [ET.descendants].
  induction entries as [|e rest IH]; intros Hflat; [reflexivity|].
  cbn [List.filter]. destruct (Hflat e (or_introl eq_refl)) as [-> Hnone].
  rewrite List.filter_app. unfold ET.findall_below in Hnone. rewrite Hnone. cbn [app].
  f_equal. apply IH. intros e' He'. apply Hflat. now right.
Qed.

Lemma pages_bounds : forall n first to_revision a b,
  n = page_count first to_revision ->
  In (a, b) (pages n first to_revision) ->
  first <= a /\ a <= b /\ b <= to_revision.
Proof.
  induction n as [|n IH]; intros first to_revision a b Hn Hin; [destruct Hin|].
  destruct (Z.le_gt_cases first to_revision) as [Hle|Hgt].
  2:{ rewrite page_count_zero in Hn by assumption. discriminate. }
  rewrite page_count_succ in Hn by assumption. injection Hn as Hn.
  destruct Hin as [[= <- <-]|Hin]; unfold page_size in *.
  - lia.
  - destruct (IH _ _ _ _ Hn Hin) as (H1 & H2 & H3). lia.
Qed.

Section PaginatedLogFacts.

Variable fromstring : string -> ET.Parse.
Variable tostring : ET.Element -> string.
Variable _run_svn_command : list string -> option string.

(** The loop ends within its fuel, having fetched the pages of the
    range one after the other. *)
Lemma page_loop_pages repo_url to_revision : forall fuel current_start combined_logs,
  to_revision + 1 - current_start <= Z.of_nat fuel ->
  page_loop _run_svn_command fuel repo_url current_start to_revision combined_logs
  = Some (combined_logs ++
          List.flat_map (fun '(a, b) => fetch_page _run_svn_command repo_url a b)
                        (pages (page_count current_start to_revision)
                               current_start to_revision))%list.
Proof.
  induction fuel as [|fuel IH]; intros current_start combined_logs Hfuel.
  - cbn [page_loop]. destruct (current_start <=? to_revision) eqn:Hle.
    + apply Z.leb_le in Hle. lia.
    + apply Z.leb_gt in Hle. rewrite page_count_zero by lia. cbn. now rewrite app_nil_r.
  - cbn [page_loop]. destruct (current_start <=? to_revision) eqn:Hle.
    + apply Z.leb_le in Hle. rewrite IH by (unfold page_size; lia).
      rewrite (page_count_succ current_start) by assumption.
      cbn [pages List.flat_map]. rewrite <- app_assoc. do 3 f_equal.
      destruct (Z.le_gt_cases (current_start + page_size) to_revision) as [Hwide|Hlast];
        unfold page_size in *.
      * rewrite Z.min_l by lia. now replace (current_start + 500 - 1 + 1)
                                  with (current_start + 500) by lia.
      * rewrite Z.min_r by lia. rewrite !page_count_zero by lia. reflexivity.
    + apply Z.leb_gt in Hle. rewrite page_count_zero by lia. cbn. now rewrite app_nil_r.
Qed.

Lemma fetch_singly_answered history repo_url : forall revs,
  (forall rev, In rev revs ->
     exists output,
       _run_svn_command (log_single_cmd repo_url rev) = Some output /\
       lists fromstring output (history rev)) ->
  List.flat_map (logentries_of fromstring)
    (omap (fun rev =>
             match _run_svn_command (log_single_cmd repo_url rev) with
             | Some single_log => if Py.truthy single_log then Some single_log else None
             | None => None
             end) revs)
  = List.flat_map history revs /\
  (revs <> [] ->
   omap (fun rev =>
           match _run_svn_command (log_single_cmd repo_url rev) with
           | Some single_log => if Py.truthy single_log then Some single_log else None
           | None => None
           end) revs <> []).
Proof.
  induction revs as [|rev revs IH]; intros Hans; [split; [reflexivity | congruence]|].
  destruct (Hans rev (or_introl eq_refl)) as (output & Hrun & Htruthy & root & Hparse & Hfind).
  destruct IH as [IH _]; [intros r Hr; apply Hans; now right|].
  cbn [omap list_omap]. rewrite Hrun, Htruthy. cbn [List.flat_map].
  rewrite IH. unfold logentries_of at 1. rewrite Hparse, Hfind.
  split; [reflexivity | discriminate].
Qed.

(** What an answered page contributes: at least one document, and
    exactly the entries of its revisions. *)
Lemma fetch_page_answered history repo_url a b :
  a <= b ->
  page_answered fromstring _run_svn_command history repo_url a b ->
  List.flat_map (logentries_of fromstring) (fetch_page _run_svn_command repo_url a b)
  = entries_between history a b /\
  fetch_page _run_svn_command repo_url a b <> [].
Proof.
  intros Hab [(output & Hrun & Htruthy & root & Hparse & Hfind)|[Hrun Hsingle]];
    unfold fetch_page; rewrite Hrun.
  - rewrite Htruthy. cbn [List.flat_map]. unfold logentries_of.
    rewrite Hparse, Hfind, app_nil_r. split; [reflexivity | discriminate].
  - cbn [Py.truthy]. unfold fetch_singly, entries_between.
    destruct (fetch_singly_answered history repo_url (Py.range a (b + 1))) as [H1 H2].
    + intros rev Hrev. apply Hsingle. apply range_In in Hrev. lia.
    + split; [exact H1|]. apply H2.
      intros Hnil. assert (Hin : In a (Py.range a (b + 1))) by (apply range_In; lia).
      rewrite Hnil in Hin. destruct Hin.
Qed.

Lemma fetched_pages_answered history repo_url : forall pgs,
  (forall a b, In (a, b) pgs ->
     a <= b /\ page_answered fromstring _run_svn_command history repo_url a b) ->
  List.flat_map (logentries_of fromstring)
    (List.flat_map (fun '(a, b) => fetch_page _run_svn_command repo_url a b) pgs)
  = List.flat_map history (List.flat_map (fun '(a, b) => Py.range a (b + 1)) pgs) /\
  (pgs <> [] ->
   List.flat_map (fun '(a, b) => fetch_page _run_svn_command repo_url a b) pgs <> []).
Proof.
  induction pgs as [|[a b] pgs IH]; intros Hans; [split; [reflexivity | congruence]|].
  destruct (Hans a b (or_introl eq_refl)) as [Hab Hpage].
  destruct (fetch_page_answered history repo_url a b Hab Hpage) as [Hentries Hne].
  destruct IH as [IH _]; [intros a' b' Hin; apply Hans; now right|].
  cbn [List.flat_map]. rewrite !List.flat_map_app, Hentries, IH.
  split; [reflexivity|]. intros _ Hnil. apply List.app_eq_nil in Hnil as [Hnil _]. auto.
Qed.

Context {datetime : Type}.
Variable fromisoformat : string -> option datetime.
Variable strftime : datetime -> string.
Variable get_beijing_time_str : nat -> string.
Variable get_beijing_time_iso : string.

Lemma parse_of_root xml_log repo_name root :
  Py.truthy (Py.strip xml_log) = true ->
  fromstring (Py.strip xml_log) = ET.Parsed root ->
  _parse_svn_log fromstring fromisoformat strftime get_beijing_time_str
                 get_beijing_time_iso xml_log repo_name
  = parse_entries fromisoformat strftime get_beijing_time_str repo_name 0
                  (ET.findall_below root "logentry").
Proof.
  intros Htruthy Hparse. rewrite nonblank_parse by assumption.
  unfold recover_root. rewrite Hparse. now rewrite find_logentries_below.
Qed.

(** C9 (as amended).  For a non-empty revision range (in particular
    one wider than a page), when the remote answers every page, by its
    page query or, that one coming back empty, by every per-revision
    query of the page, consistently with the log it returns for the
    whole range, the paginated retrieval parses to the same sequence of
    change records as the single query over the whole range: the pages
    are consecutive, none overlaps and none is skipped.  (The entries
    are not nested, and the combined document is read back as it was
    written.) *)
Theorem paginated_log_parses_as_single_query
        repo_config from_revision to_revision repo_name history :
  Py.truthy (repo_url_of repo_config) = true ->
  from_revision <= to_revision ->
  (forall a b,
      In (a, b) (pages (page_count from_revision to_revision) from_revision to_revision) ->
      page_answered fromstring _run_svn_command history (repo_url_of repo_config) a b) ->
  (forall r e, from_revision <= r <= to_revision -> In e (history r) ->
               ET.findall_below e "logentry" = []) ->
  lists fromstring
        (Py.strip (single_query_svn_log _run_svn_command repo_config
                                        from_revision to_revision))
        (entries_between history from_revision to_revision) ->
  Py.truthy (Py.strip (tostring (ET.Element_with "log"
               (entries_between history from_revision to_revision)))) = true ->
  fromstring (Py.strip (tostring (ET.Element_with "log"
               (entries_between history from_revision to_revision))))
  = ET.Parsed (ET.Element_with "log" (entries_between history from_revision to_revision)) ->
  _parse_svn_log fromstring fromisoformat strftime get_beijing_time_str
                 get_beijing_time_iso
                 (_get_paginated_svn_log fromstring tostring _run_svn_command
                                         repo_config from_revision to_revision)
                 repo_name
  = _parse_svn_log fromstring fromisoformat strftime get_beijing_time_str
                   get_beijing_time_iso
                   (single_query_svn_log _run_svn_command repo_config
                                         from_revision to_revision)
                   repo_name.
Proof.
  intros Hurl Hrange Hpages Hflat (Hwt & rootW & HparseW & HfindW) Hrt Hrp.
  (* the single query *)
  rewrite (parse_of_root (single_query_svn_log _ _ _ _) repo_name rootW Hwt HparseW), HfindW.
  (* the entries are unnested [logentry] elements *)
  assert (Hentries : forall e, In e (entries_between history from_revision to_revision) ->
            ET.has_tag "logentry" e = true /\ ET.findall_below e "logentry" = []).
  { intros e He. split.
    - rewrite <- HfindW in He. now apply List.filter_In in He as [_ He].
    - unfold entries_between in He. apply List.in_flat_map in He as (r & Hr & He).
      apply range_In in Hr. apply (Hflat r e); [lia | assumption]. }
  (* the paginated retrieval builds the document of these entries *)
  assert (Hdoc : _get_paginated_svn_log fromstring tostring _run_svn_command
                   repo_config from_revision to_revision
                 = tostring (ET.Element_with "log"
                     (entries_between history from_revision to_revision))).
  { unfold _get_paginated_svn_log. rewrite Hurl. cbn [negb].
    rewrite page_loop_pages by lia. cbn [app].
    destruct (fetched_pages_answered history (repo_url_of repo_config)
                (pages (page_count from_revision to_revision) from_revision to_revision))
      as [Hfetched Hne].
    { intros a b Hin. split; [|now apply Hpages].
      now apply (pages_bounds _ _ _ a b eq_refl) in Hin. }
    rewrite (pages_partition _ _ _ eq_refl) in Hfetched.
    unfold combine_logs.
    destruct (List.flat_map _ (pages _ _ _)) as [|l ls] eqn:Hlogs.
    - exfalso. apply Hne; [|reflexivity].
      rewrite page_count_succ by assumption. discriminate.
    - unfold entries_between. now rewrite Hfetched. }
  rewrite Hdoc.
  rewrite (parse_of_root _ repo_name _ Hrt Hrp).
  now rewrite (findall_below_flat _ Hentries).
Qed.

End PaginatedLogFacts.

(** C9: when the query for the second page and its per-revision
    fallback both come back empty, the paginated retrieval loses the
    record of revision 501, which the single query returns. *)
Lemma failed_page_drops_records :
  ~ (Samples.morning
       (_get_paginated_svn_log ETModel.fromstring ETModel.tostring Samples.flaky_remote
                               Samples.remote_repo 1 501) "Repo"
     = Samples.morning
         (single_query_svn_log Samples.flaky_remote Samples.remote_repo 1 501) "Repo").
Proof. vm_compute. discriminate. Qed.

Lemma paginated_log_parses_as_single_query_witness :
  (forall a b, In (a, b) (pages (page_count 1 501) 1 501) ->
     page_answered ETModel.fromstring Samples.healthy_remote Samples.history
                   (repo_url_of Samples.remote_repo) a b) /\
  Samples.morning
    (_get_paginated_svn_log ETModel.fromstring ETModel.tostring Samples.healthy_remote
                            Samples.remote_repo 1 501) "Repo"
  = Samples.morning
      (single_query_svn_log Samples.healthy_remote Samples.remote_repo 1 501) "Repo".
Proof.
  assert (Hpages : forall a b, In (a, b) (pages (page_count 1 501) 1 501) ->
     page_answered ETModel.fromstring Samples.healthy_remote Samples.history
                   (repo_url_of Samples.remote_repo) a b).
  { intros a b Hin. vm_compute in Hin.
    destruct Hin as [[= <- <-]|[[= <- <-]|[]]]; left.
    - exists (Samples.document [Samples.entry_1]).
      split; [vm_compute; reflexivity|]. split; [vm_compute; reflexivity|].
      exists (ET.Element_with "log" [Samples.entry_1]). split; vm_compute; reflexivity.
    - exists (Samples.document [Samples.entry_501]).
      split; [vm_compute; reflexivity|]. split; [vm_compute; reflexivity|].
      exists (ET.Element_with "log" [Samples.entry_501]). split; vm_compute; reflexivity. }
  split; [exact Hpages|].
  apply (paginated_log_parses_as_single_query ETModel.fromstring ETModel.tostring
           Samples.healthy_remote DateModel.fromisoformat DateModel.strftime
           (fun _ => "2024-05-01 08:00:00") "2024-05-01T08:00:00+08:00"
           Samples.remote_repo 1 501 "Repo" Samples.history).
  - vm_compute. reflexivity.
  - lia.
  - exact Hpages.
  - intros r e _ He. unfold Samples.history in He.
    destruct (r =? 1); [destruct He as [<-|[]]; reflexivity|].
    destruct (r =? 501); [destruct He as [<-|[]]; reflexivity | destruct He].
  - split; [vm_compute; reflexivity|].
    exists (ET.Element_with "log" [Samples.entry_1; Samples.entry_501]).
    split; vm_compute; reflexivity.
  - vm_compute. reflexivity.
  - vm_compute. reflexivity.
Defined.

(** ** Detect-only mode

    Without SMTP credentials every notification is skipped and reported
    as not sent, so no cycle moves the persisted watermark of a
    notification-enabled repository: its new revisions are detected
    again by every cycle. *)
(** X28.  In detect-only operation (a complete mail section without a
    usable credential pair) a pass does not move the persisted
    watermark of a notification-enabled repository, whatever it
    detects. *)
Lemma detect_only_holds_watermarks
      repositories recipients_mapping repo_name_mapping email set_order smtp env m r :
  NoDup (repositories.*1) -> r ∈ repositories.*1 ->
  notifies repositories r = true ->
  is_Some (email !! "smtp_server") ->
  is_Some (email !! "from_email") ->
  is_Some (email !! "to_emails") ->
  credentials_configured email = false ->
  (forall changes,
      deliver env changes
      = fst (send_email_notification recipients_mapping repo_name_mapping (Some email)
                                     set_order smtp changes)) ->
  persisted (cycle repositories env m).1 r = persisted m r.
Proof.
  intros Hnd Hr Hn H1 H2 H3 Hcred Hdeliver.
  apply undelivered_cycle_holds_watermark; try assumption.
  intros changes Hne. rewrite Hdeliver.
  now rewrite (skipped_without_credentials recipients_mapping repo_name_mapping
                 (Some email) set_order smtp email changes eq_refl H1 H2 H3 Hcred Hne).
Qed.

(** * Further properties *)

(** ** The svn command line: credentials, logging, recovery *)

Lemma has_arg_app x l1 l2 :
  has_arg x (l1 ++ l2) = has_arg x l1 || has_arg x l2.
Proof. unfold has_arg. apply List.existsb_app. Qed.

Lemma has_arg_In x l : has_arg x l = true <-> In x l.
Proof.
  unfold has_arg. rewrite List.existsb_exists. split.
  - intros (y & Hy & Heq). apply String.eqb_eq in Heq. now subst.
  - intros Hin. exists x. split; [assumption | apply String.eqb_refl].
Qed.

Lemma safe_command_clean command rest :
  has_arg "--username" command = false ->
  has_arg "--password" command = false ->
  safe_command (command ++ rest) = (command ++ safe_command rest)%list.
Proof.
  induction command as [|arg command IH]; intros Hu Hp; [reflexivity|].
  cbn [has_arg List.existsb] in Hu, Hp.
  apply orb_false_elim in Hu as [Hu1 Hu2]. apply orb_false_elim in Hp as [Hp1 Hp2].
  cbn [app safe_command].
  rewrite (String.eqb_sym arg "--username"), Hu1, (String.eqb_sym arg "--password"), Hp1.
  cbn [orb]. now rewrite (IH Hu2 Hp2).
Qed.

Lemma safe_command_flags flags :
  Forall (fun f => In f public_flags) flags -> safe_command flags = flags.
Proof.
  induction 1 as [|f flags Hf _ IH]; [reflexivity|].
  cbn [safe_command]. rewrite IH.
  destruct Hf as [<-|[<-|[<-|[<-|[]]]]]; reflexivity.
Qed.

Section CommandLineFacts.

Variable subprocess_run : nat -> list string -> Proc.
Variable path_exists : string -> bool.
Variable _remove_svn_locks_manually : nat -> string -> bool.
Variable svn_config : option (gmap string string).

Lemma added_flags c :
  exists flags,
    (let c3 := if has_arg "--non-interactive" c then c
               else (c ++ ["--non-interactive"])%list in
     let c4 := if has_arg "--trust-server-cert" c3 then c3
               else (c3 ++ ["--trust-server-cert"])%list in
     if has_arg "--trust-server-cert-failures" c4 then c4
     else (c4 ++ trust_flags)%list) = (c ++ flags)%list /\
    Forall (fun f => In f public_flags) flags.
Proof.
  cbv zeta. unfold trust_flags, public_flags.
  destruct (has_arg "--non-interactive" c);
    [destruct (has_arg "--trust-server-cert" c)
    |destruct (has_arg "--trust-server-cert" (c ++ ["--non-interactive"]))];
    match goal with
    | |- context [if has_arg "--trust-server-cert-failures" ?x then _ else _] =>
        destruct (has_arg "--trust-server-cert-failures" x)
    end;
    rewrite <- ?app_assoc; cbn [app];
    first [ exists []; split; [now rewrite app_nil_r | constructor]
          | eexists; split; [reflexivity|];
            repeat constructor; cbn; tauto ].
Qed.

Lemma safe_command_string_masks repo_config command username password :
  credentials svn_config repo_config = Some (username, password) ->
  has_arg "--username" command = false ->
  has_arg "--password" command = false ->
  username <> "--password" ->
  exists flags,
    add_credentials svn_config repo_config command
    = (command ++ ["--username"; username; "--password"; password] ++ flags)%list /\
    _get_safe_command_string (add_credentials svn_config repo_config command)
    = Py.join " " (command ++ ["--username"; "***"; "--password"; "***"] ++ flags) /\
    Forall (fun f => In f public_flags) flags.
Proof.
  intros Hcred Hu Hp Hne. unfold _get_safe_command_string, add_credentials.
  rewrite Hcred, Hu.
  assert (Hp1 : has_arg "--password" (command ++ ["--username"; username]) = false).
  { rewrite has_arg_app, Hp. cbn [has_arg List.existsb orb].
    destruct (String.eqb_spec "--password" username) as [Heq|_]; [congruence | reflexivity]. }
  rewrite Hp1.
  destruct (added_flags ((command ++ ["--username"; username]) ++ ["--password"; password]))
    as (flags & Heq & Hflags).
  cbv zeta in Heq |- *. rewrite Heq.
  exists flags. split; [now rewrite <- !app_assoc|]. split; [|assumption]. f_equal.
  rewrite <- !app_assoc. cbn [app].
  rewrite (safe_command_clean command _ Hu Hp). cbn [safe_command String.eqb Ascii.eqb Bool.eqb orb].
  now rewrite (safe_command_flags flags Hflags).
Qed.

(** X1.  Of the records [_run_svn_command] writes about the command
    line it ran, those at INFO level, which go through
    [_get_safe_command_string], show three stars in place of the user
    name and of the password it appended: for a command that carried
    no credential option, they show the original arguments, the two
    masked options and public flags.  The ERROR record of a failed
    command that is not a lock error is written from the argument list
    as it is, and that list contains the password. *)
Theorem credentials_masked_at_info_shown_at_error repo_config command username password :
  credentials svn_config repo_config = Some (username, password) ->
  has_arg "--username" command = false ->
  has_arg "--password" command = false ->
  username <> "--password" ->
  exists flags,
    Forall (fun f => In f public_flags) flags /\
    (forall output_raw_log r level shown,
        In (Masked level shown)
           (command_records output_raw_log
                            (add_credentials svn_config repo_config command) r) ->
        shown = Py.join " " (command ++ ["--username"; "***"; "--password"; "***"] ++ flags)) /\
    (forall output_raw_log error_message,
        Py.contains "locked" (Py.lower error_message)
        || Py.contains "cleanup" (Py.lower error_message) = false ->
        In (Verbatim "ERROR" (add_credentials svn_config repo_config command))
           (command_records output_raw_log
                            (add_credentials svn_config repo_config command)
                            (CalledProcessError error_message)) /\
        In password (add_credentials svn_config repo_config command)).
Proof.
  intros Hcred Hu Hp Hne.
  destruct (safe_command_string_masks repo_config command username password Hcred Hu Hp Hne)
    as (flags & Hline & Hsafe & Hflags).
  exists flags. split; [exact Hflags|]. split.
  - intros output_raw_log r level shown Hin. unfold command_records in Hin.
    destruct r as [stdout|error_message|].
    + destruct (Py.truthy stdout && output_raw_log); [|destruct Hin].
      destruct Hin as [[= _ <-]|[]]. exact Hsafe.
    + destruct Hin as [[= _ <-]|Hin]; [exact Hsafe|].
      destruct (_ || _); [destruct Hin|]. destruct Hin as [Hin|[]]. discriminate.
    + destruct Hin.
  - intros output_raw_log error_message Hother. split.
    + unfold command_records. rewrite Hother. right. left. reflexivity.
    + rewrite Hline. apply List.in_or_app. right. do 3 right. left. reflexivity.
Qed.

Lemma add_credentials_fixed repo_config c username password :
  credentials svn_config repo_config = Some (username, password) ->
  has_arg "--username" c = true -> has_arg "--password" c = true ->
  has_arg "--non-interactive" c = true -> has_arg "--trust-server-cert" c = true ->
  has_arg "--trust-server-cert-failures" c = true ->
  add_credentials svn_config repo_config c = c.
Proof.
  intros Hcred H1 H2 H3 H4 H5. unfold add_credentials.
  now rewrite Hcred, H1, H2, H3, H4, H5.
Qed.

(** X2.  Adding the credentials twice is adding them once, and what is
    added comes after the arguments of the caller, which are kept as
    they are. *)
Theorem add_credentials_idempotent repo_config command :
  add_credentials svn_config repo_config (add_credentials svn_config repo_config command)
  = add_credentials svn_config repo_config command /\
  exists added,
    add_credentials svn_config repo_config command = (command ++ added)%list.
Proof.
  destruct (credentials svn_config repo_config) as [[username password]|] eqn:Hcred.
  2:{ unfold add_credentials. rewrite Hcred. split; [reflexivity|].
      exists []. now rewrite app_nil_r. }
  split.
  - apply (add_credentials_fixed _ _ username password Hcred);
      unfold add_credentials; rewrite Hcred; unfold trust_flags;
      repeat match goal with
             | |- context [if has_arg ?x ?l then _ else _] =>
                 let H := fresh "H" in destruct (has_arg x l) eqn:H
             end;
      rewrite ?has_arg_app in *; cbn [has_arg List.existsb String.eqb Ascii.eqb Bool.eqb] in *;
      rewrite ?orb_true_r, ?orb_false_r in *; try reflexivity; try congruence;
      repeat match goal with
             | H : ?a = true |- context [?a] => rewrite H
             end; rewrite ?orb_true_r; try reflexivity; try congruence.
  - unfold add_credentials. rewrite Hcred.
    repeat match goal with
           | |- context [if has_arg ?x ?l then _ else _] => destruct (has_arg x l)
           end;
      rewrite <- ?app_assoc; first [ exists []; now rewrite app_nil_r | eexists; reflexivity ].
Qed.

Lemma try_svn_cleanup_trace working_dir repo_config sh :
  exists n,
    (n <= 2)%nat /\
    invoked (snd (_try_svn_cleanup subprocess_run path_exists _remove_svn_locks_manually
                                   svn_config working_dir repo_config sh))
    = (invoked sh ++
       repeat (cleanup_command svn_config repo_config (default "" working_dir)) n)%list /\
    (fst (_try_svn_cleanup subprocess_run path_exists _remove_svn_locks_manually
                           svn_config working_dir repo_config sh) = Return true ->
     (1 <= n)%nat) /\
    (match working_dir with
     | Some wd => Py.truthy wd && path_exists wd && path_exists (wd ++ "/.svn")
     | None => false
     end = false ->
     n = 0%nat /\
     fst (_try_svn_cleanup subprocess_run path_exists _remove_svn_locks_manually
                           svn_config working_dir repo_config sh) = Return false).
Proof.
  unfold _try_svn_cleanup, exec.
  destruct working_dir as [wd|];
    [|exists 0%nat; cbn; rewrite app_nil_r; repeat split; [lia | discriminate]].
  cbn [default].
  destruct (Py.truthy wd); cbn [negb andb];
    [|exists 0%nat; cbn; rewrite app_nil_r; repeat split; [lia | discriminate]].
  destruct (path_exists wd); cbn [negb andb];
    [|exists 0%nat; cbn; rewrite app_nil_r; repeat split; [lia | discriminate]].
  destruct (path_exists (wd ++ "/.svn")); cbn [negb andb];
    [|exists 0%nat; cbn; rewrite app_nil_r; repeat split; [lia | discriminate]].
  destruct (subprocess_run _ _) as [out|err|]; cbn [fst snd invoked];
    try (exists 1%nat; cbn; repeat split; first [lia | discriminate | reflexivity]).
  destruct (Py.contains "locked" (Py.lower err));
    try (exists 1%nat; cbn; repeat split; first [lia | discriminate | reflexivity]).
  destruct (_remove_svn_locks_manually _ wd);
    try (exists 1%nat; cbn; repeat split; first [lia | discriminate | reflexivity]).
  destruct (subprocess_run _ _) as [out2|err2|]; cbn [fst snd invoked];
    exists 2%nat; cbn; rewrite <- app_assoc; repeat split;
    first [lia | discriminate | reflexivity].
Qed.

(** X3.  The cleanup starts nothing but the cleanup command, at most
    twice (once, and once more after removing the lock files by hand),
    at least once when it reports success, and not at all (reporting
    failure) when the working directory is missing, empty, absent from
    the disk or not a working copy. *)
Theorem cleanup_runs_at_most_twice working_dir repo_config sh :
  exists n,
    (n <= 2)%nat /\
    invoked (snd (_try_svn_cleanup subprocess_run path_exists _remove_svn_locks_manually
                                   svn_config working_dir repo_config sh))
    = (invoked sh ++
       repeat (cleanup_command svn_config repo_config (default "" working_dir)) n)%list /\
    (fst (_try_svn_cleanup subprocess_run path_exists _remove_svn_locks_manually
                           svn_config working_dir repo_config sh) = Return true ->
     (1 <= n)%nat) /\
    (match working_dir with
     | Some wd => Py.truthy wd && path_exists wd && path_exists (wd ++ "/.svn")
     | None => false
     end = false ->
     n = 0%nat /\
     fst (_try_svn_cleanup subprocess_run path_exists _remove_svn_locks_manually
                           svn_config working_dir repo_config sh) = Return false).
Proof. apply try_svn_cleanup_trace. Qed.

(** X4.  Every process [_run_svn_command] starts is either the command
    line of its first attempt or the cleanup command: a retry hands
    [subprocess.run] the very same arguments, the credentials are not
    appended a second time.  The first process, if any, is the command
    itself. *)
Theorem retries_reuse_command_line : forall depth command repo_config working_dir is_retry sh,
  exists started,
    invoked (snd (_run_svn_command subprocess_run path_exists _remove_svn_locks_manually
                                   svn_config depth command repo_config working_dir
                                   is_retry sh))
    = (invoked sh ++ started)%list /\
    Forall (fun c =>
              c = (if is_retry then command
                   else add_credentials svn_config repo_config command) \/
              c = cleanup_command svn_config repo_config (default "" working_dir))
           started /\
    (depth <> 0%nat ->
     List.head started = Some (if is_retry then command
                               else add_credentials svn_config repo_config command)).
Proof.
  induction depth as [|depth IH]; intros command repo_config working_dir is_retry sh.
  - exists []. cbn. rewrite app_nil_r. repeat split; [constructor | congruence].
  - cbn [_run_svn_command]. unfold exec.
    set (line := if is_retry then command else add_credentials svn_config repo_config command).
    destruct (subprocess_run (length (invoked sh)) line) as [out|err|];
      try (exists [line]; cbn; repeat split; [repeat constructor; now left]).
    destruct (Py.contains "locked" (Py.lower err) || Py.contains "cleanup" (Py.lower err));
      [|exists [line]; cbn; repeat split; [repeat constructor; now left]].
    destruct (try_svn_cleanup_trace working_dir repo_config
                (mkShell (invoked sh ++ [line]))) as (n & _ & Hn & _).
    destruct (_try_svn_cleanup _ _ _ _ working_dir repo_config _) as [cleanup_success sh2].
    cbn [fst snd invoked] in Hn.
    destruct cleanup_success as [b|].
    + destruct (IH line repo_config working_dir true sh2) as (started & Hs & Hall & _).
      destruct (_run_svn_command _ _ _ _ depth line repo_config working_dir true sh2)
        as [retried sh3].
      cbn [fst snd] in Hs.
      exists ([line] ++ repeat (cleanup_command svn_config repo_config (default "" working_dir)) n
                     ++ started)%list.
      assert (Hshape : invoked sh3
                       = (invoked sh ++ [line] ++
                          repeat (cleanup_command svn_config repo_config
                                                  (default "" working_dir)) n ++ started)%list).
      { rewrite Hs, Hn. now rewrite <- !app_assoc. }
      destruct retried; cbn [fst snd]; (split; [exact Hshape|]);
        (split; [|reflexivity]);
        (apply Forall_app; split; [repeat constructor; now left|]);
        (apply Forall_app; split; [apply Forall_forall; intros c Hc;
                                   apply list_elem_of_In, repeat_spec in Hc; now right|]);
        exact Hall.
    + exists ([line] ++ repeat (cleanup_command svn_config repo_config
                                                (default "" working_dir)) n)%list.
      cbn [fst snd]. split; [now rewrite Hn, <- app_assoc|].
      split; [|reflexivity].
      apply Forall_app. split; [repeat constructor; now left|].
      apply Forall_forall. intros c Hc. apply list_elem_of_In, repeat_spec in Hc. now right.
Qed.

(** X5.  Unless a process fails to start at all, [_run_svn_command]
    returns: a failed command, a failed retry and even the exhaustion
    of the recursion limit inside a retry all come back as the empty
    string. *)
Theorem run_svn_command_swallows_failures depth command repo_config working_dir is_retry sh :
  (forall n c, subprocess_run n c <> OSError) ->
  exists output,
    fst (_run_svn_command subprocess_run path_exists _remove_svn_locks_manually
                          svn_config (S depth) command repo_config working_dir
                          is_retry sh) = Return output.
Proof.
  intros Hstart. cbn [_run_svn_command]. unfold exec.
  destruct (subprocess_run _ _) as [out|err|] eqn:Hrun;
    [eexists; reflexivity | | now apply Hstart in Hrun].
  destruct (_ || _); [|eexists; reflexivity].
  destruct (_try_svn_cleanup _ _ _ _ working_dir repo_config _)
    as [cleanup_success sh2] eqn:Hc.
  assert (Hret : exists b, cleanup_success = Return b).
  { revert Hc. unfold _try_svn_cleanup, exec.
    repeat match goal with
           | |- context [match ?x with _ => _ end] =>
               match x with
               | subprocess_run ?n ?c =>
                   let H := fresh "H" in
                   destruct (subprocess_run n c) eqn:H; [| |now apply Hstart in H]
               | _ => destruct x
               end
           end; intros [= <- _]; eexists; reflexivity. }
  destruct Hret as [b ->].
  destruct (_run_svn_command _ _ _ _ depth _ repo_config working_dir true sh2)
    as [[output|] sh3]; eexists; reflexivity.
Qed.

End CommandLineFacts.

(** ** Python strings *)

Lemma rev_onto_app s acc t : Py.rev_onto s acc ++ t = Py.rev_onto s (acc ++ t).
Proof. revert acc. induction s as [|c s IH]; intros acc; cbn; [reflexivity | apply IH]. Qed.

Lemma reverse_cons c s : Py.reverse (String c s) = Py.reverse s ++ String c "".
Proof. unfold Py.reverse. cbn. now rewrite rev_onto_app. Qed.

Lemma reverse_snoc s : forall c, Py.reverse (s ++ String c "") = String c (Py.reverse s).
Proof.
  induction s as [|d s IH]; intros c; [reflexivity|].
  change (String d s ++ String c "") with (String d (s ++ String c "")).
  now rewrite !reverse_cons, IH.
Qed.

Lemma truthy_reverse s : Py.truthy (Py.reverse s) = Py.truthy s.
Proof.
  destruct s as [|c s]; [reflexivity|]. rewrite reverse_cons.
  now destruct (Py.reverse s).
Qed.

Lemma lstrip_app s t :
  Py.lstrip (s ++ t) = if Py.truthy (Py.lstrip s) then Py.lstrip s ++ t else Py.lstrip t.
Proof.
  induction s as [|c s IH]; [reflexivity|]. simpl.
  destruct (Py.isspace c); [exact IH | reflexivity].
Qed.

(** [rstrip], one character at a time. *)
Lemma rstrip_cons c s :
  Py.rstrip (String c s)
  = if Py.truthy (Py.rstrip s) || negb (Py.isspace c) then String c (Py.rstrip s) else "".
Proof.
  unfold Py.rstrip. rewrite reverse_cons, lstrip_app, truthy_reverse.
  destruct (Py.truthy (Py.lstrip (Py.reverse s))) eqn:Ht; cbn [orb].
  - apply reverse_snoc.
  - destruct (Py.lstrip (Py.reverse s)); [|discriminate].
    cbn [Py.lstrip]. destruct (Py.isspace c); reflexivity.
Qed.

Lemma rstrip_empty : Py.rstrip "" = "".
Proof. reflexivity. Qed.

Lemma rstrip_idempotent s : Py.rstrip (Py.rstrip s) = Py.rstrip s.
Proof.
  induction s as [|c s IH]; [reflexivity|]. rewrite rstrip_cons.
  destruct (Py.truthy (Py.rstrip s) || negb (Py.isspace c)) eqn:Hk; [|reflexivity].
  rewrite rstrip_cons, IH, Hk. reflexivity.
Qed.

Lemma lstrip_head s :
  match Py.lstrip s with
  | String c _ => Py.isspace c = false
  | EmptyString => True
  end.
Proof.
  induction s as [|c s IH]; [exact I|]. cbn [Py.lstrip].
  destruct (Py.isspace c) eqn:Hc; [exact IH | exact Hc].
Qed.

Lemma lstrip_rstrip_head c s :
  Py.isspace c = false -> Py.lstrip (Py.rstrip (String c s)) = Py.rstrip (String c s).
Proof.
  intros Hc. rewrite rstrip_cons, Hc, orb_true_r. cbn [Py.lstrip]. now rewrite Hc.
Qed.

Lemma strip_idempotent s : Py.strip (Py.strip s) = Py.strip s.
Proof.
  unfold Py.strip. pose proof (lstrip_head s) as Hh.
  destruct (Py.lstrip s) as [|c t]; [reflexivity|].
  now rewrite (lstrip_rstrip_head c t Hh), rstrip_idempotent.
Qed.

Lemma strip_blank_cons c s : Py.isspace c = true -> Py.strip (String c s) = Py.strip s.
Proof. intros Hc. unfold Py.strip. cbn [Py.lstrip]. now rewrite Hc. Qed.

Lemma occurs_lstrip c s : occurs c (Py.lstrip s) -> occurs c s.
Proof.
  induction s as [|d s IH]; [trivial|]. cbn [Py.lstrip].
  destruct (Py.isspace d); [intros H; right; now apply IH | trivial].
Qed.

Lemma occurs_rstrip c s : occurs c (Py.rstrip s) -> occurs c s.
Proof.
  induction s as [|d s IH]; [trivial|]. rewrite rstrip_cons.
  destruct (_ || _); [|intros []]. intros [->|H]; [now left | right; now apply IH].
Qed.

Lemma occurs_strip c s : occurs c (Py.strip s) -> occurs c s.
Proof. intros H. now apply occurs_lstrip, occurs_rstrip. Qed.

Lemma occurs_app c s t : occurs c (s ++ t) <-> occurs c s \/ occurs c t.
Proof.
  induction s as [|d s IH]; simpl; [tauto|]. rewrite IH. tauto.
Qed.

(** [split]: the pieces hold no separator, and joining them with the
    separator gives the string back. *)
Lemma split_not_nil c s : Py.split c s <> [].
Proof.
  destruct s as [|d s]; cbn; [discriminate|].
  destruct (Ascii.eqb c d); [discriminate|]. destruct (Py.split c s); discriminate.
Qed.

Lemma split_pieces c s : Forall (fun w => ~ occurs c w) (Py.split c s).
Proof.
  induction s as [|d s IH]; cbn [Py.split]; [repeat constructor; intros []|].
  destruct (Ascii.eqb_spec c d) as [->|Hne].
  - constructor; [intros []|exact IH].
  - destruct (Py.split c s) as [|w ws]; [repeat constructor; intros [?|[]]; congruence|].
    apply Forall_cons in IH as [Hw Hws]. constructor; [|exact Hws].
    intros [?|?]; [congruence | contradiction].
Qed.

Lemma split_clean c s : ~ occurs c s -> Py.split c s = [s].
Proof.
  induction s as [|d s IH]; intros Hs; [reflexivity|]. cbn [Py.split].
  destruct (Ascii.eqb_spec c d) as [->|Hne]; [exfalso; apply Hs; now left|].
  rewrite IH; [reflexivity|]. intros H. apply Hs. now right.
Qed.

Lemma split_app c s t :
  ~ occurs c s -> Py.split c (s ++ String c t) = s :: Py.split c t.
Proof.
  induction s as [|d s IH]; intros Hs; simpl.
  - now rewrite Ascii.eqb_refl.
  - destruct (Ascii.eqb_spec c d) as [->|Hne]; [exfalso; apply Hs; now left|].
    rewrite IH; [reflexivity|]. intros H. apply Hs. now right.
Qed.

Lemma split_occurs x c s w : In w (Py.split c s) -> occurs x w -> occurs x s.
Proof.
  revert w. induction s as [|d s IH]; intros w; cbn [Py.split].
  - intros [<-|[]] [].
  - destruct (Ascii.eqb_spec c d) as [->|Hne].
    + intros [<-|Hin]; [intros []|]. intros Hx. right. now apply (IH w).
    + destruct (Py.split c s) as [|w' ws] eqn:Hsp.
      * intros [<-|[]] [->|[]]. now left.
      * intros [<-|Hin].
        -- intros [->|Hx]; [now left|]. right. apply (IH w'); [now left | assumption].
        -- intros Hx. right. apply (IH w); [now right | assumption].
Qed.

Lemma replace_char_gone c r s :
  ~ occurs c r -> ~ occurs c (Py.replace_char c r s).
Proof.
  intros Hr. induction s as [|d s IH]; [intros []|]. cbn [Py.replace_char].
  destruct (Ascii.eqb_spec c d) as [->|Hne].
  - rewrite occurs_app. tauto.
  - intros [?|?]; [congruence | contradiction].
Qed.

Lemma addresses_clean recipients_str a :
  In a (addresses recipients_str) -> clean_address a.
Proof.
  unfold addresses. intros Hin. apply List.filter_In in Hin as [Hin Hkeep].
  apply List.in_map_iff in Hin as (w & <- & Hw).
  apply andb_prop in Hkeep as [Ht Hnan].
  repeat split.
  - intros Heq. rewrite Heq in Ht. discriminate.
  - intros Heq. rewrite Heq in Hnan. discriminate.
  - apply strip_idempotent.
  - intros Hocc. apply occurs_strip in Hocc.
    pose proof (split_pieces "," (Py.replace_char ";" "," recipients_str)) as Hp.
    rewrite Forall_forall in Hp. apply (Hp w); [now apply list_elem_of_In | assumption].
  - intros Hocc. apply occurs_strip in Hocc.
    apply (split_occurs ";" _ _ _ Hw) in Hocc.
    revert Hocc. apply replace_char_gone. intros [?|[]]. discriminate.
Qed.

Lemma join_cons sep x y l : Py.join sep (x :: y :: l) = x ++ sep ++ Py.join sep (y :: l).
Proof. reflexivity. Qed.

Lemma split_joined l :
  l <> [] ->
  Forall (fun a => Py.strip a = a /\ ~ occurs "," a) l ->
  List.map Py.strip (Py.split "," (joined l)) = l /\
  List.map Py.strip (Py.split "," (" " ++ joined l)) = l.
Proof.
  unfold joined. induction l as [|x l IH]; [congruence|]. intros _ Hall.
  apply Forall_cons in Hall as [[Hx Hc] Hall].
  assert (Hc' : ~ occurs "," (" " ++ x)).
  { intros [?|?]; [discriminate | contradiction]. }
  assert (Hx' : Py.strip (" " ++ x) = x).
  { change (" " ++ x) with (String " " x). now rewrite strip_blank_cons. }
  destruct l as [|y l].
  - cbn [Py.join]. rewrite (split_clean "," x Hc), (split_clean "," _ Hc').
    cbn [List.map]. now rewrite Hx, Hx'.
  - destruct (IH ltac:(discriminate) Hall) as [_ IH2].
    rewrite join_cons.
    change (x ++ ", " ++ Py.join ", " (y :: l))
      with (x ++ String "," (" " ++ Py.join ", " (y :: l))).
    replace (" " ++ x ++ String "," (" " ++ Py.join ", " (y :: l)))
      with ((" " ++ x) ++ String "," (" " ++ Py.join ", " (y :: l))) by reflexivity.
    rewrite (split_app "," x _ Hc), (split_app "," _ _ Hc').
    cbn [List.map]. now rewrite IH2, Hx, Hx'.
Qed.

Lemma filter_truthy_nonempty l :
  Forall (fun a : string => a <> "") l -> List.filter Py.truthy l = l.
Proof.
  induction 1 as [|a l Ha _ IH]; [reflexivity|]. cbn [List.filter].
  destruct a; [congruence|]. cbn. now rewrite IH.
Qed.

Section EnvelopeFacts.

Variable recipients_mapping : gmap string (list string).
Variable repo_name_mapping : gmap string string.
Variable config_EMAIL : option (gmap string string).
Variable set_order : gset string -> list string.

Lemma collected_clean email : forall changes_by_repo all_recipients,
  collect_recipients recipients_mapping repo_name_mapping config_EMAIL set_order
                     email changes_by_repo = Return all_recipients ->
  forall a, a ∈ all_recipients -> clean_address a.
Proof.
  intros changes_by_repo all_recipients. unfold collect_recipients.
  set (f := fun acc (x : string * list ChangeRecord) => _).
  assert (Hfold : forall l acc X,
             (forall Y, acc = Return Y -> forall a, a ∈ Y -> clean_address a) ->
             List.fold_left f l acc = Return X -> forall a, a ∈ X -> clean_address a).
  { induction l as [|[repo_name cs] l IH]; intros acc X Hacc; [exact (Hacc X)|].
    cbn [List.fold_left]. apply IH. subst f. cbn beta iota.
    destruct acc as [Y|]; [|discriminate].
    destruct (_get_recipients_for_repository _ _ _ _ repo_name) as [s|]; [|discriminate].
    intros Z [= <-] a Ha. apply elem_of_union in Ha as [Ha|Ha].
    - now apply (Hacc Y).
    - apply elem_of_list_to_set, list_elem_of_In in Ha. now apply addresses_clean in Ha. }
  destruct (List.fold_left f changes_by_repo (Return ∅)) as [X|] eqn:HX; [|discriminate].
  assert (HXc : forall a, a ∈ X -> clean_address a).
  { refine (Hfold _ _ X _ HX).
    intros Y [= <-] a Ha. now apply not_elem_of_empty in Ha. }
  destruct (bool_decide (X = ∅)); intros [= <-] a Ha.
  - apply elem_of_list_to_set, list_elem_of_In in Ha. now apply addresses_clean in Ha.
  - now apply HXc.
Qed.

(** X6.  Every recipient the dispatcher collects for a notification is
    a clean address: not empty, not the text [nan] of an empty cell (in
    any case), without surrounding blanks and without a comma or a
    semicolon inside. *)
Theorem collected_recipients_are_clean email changes_by_repo all_recipients :
  collect_recipients recipients_mapping repo_name_mapping config_EMAIL set_order
                     email changes_by_repo = Return all_recipients ->
  forall a, a ∈ all_recipients -> clean_address a.
Proof. apply collected_clean. Qed.

(** X7.  The [To] header written by [send_email_notification] reads
    back, in [_send_email], as the very recipients that were collected:
    splitting the header at the commas loses, merges or cuts none. *)
Theorem envelope_is_collected_recipients
        email changes_by_repo all_recipients from payload :
  collect_recipients recipients_mapping repo_name_mapping config_EMAIL set_order
                     email changes_by_repo = Return all_recipients ->
  (forall s x, x ∈ set_order s -> x ∈ s) ->
  recipients_list (mkMessage from (joined (set_order all_recipients)) payload)
  = set_order all_recipients.
Proof.
  intros Hc Horder. unfold recipients_list. cbn [msg_to].
  assert (Hclean : Forall clean_address (set_order all_recipients)).
  { apply Forall_forall. intros a Ha. apply (collected_clean _ _ _ Hc), Horder, Ha. }
  destruct (set_order all_recipients) as [|x l] eqn:Hl; [reflexivity|].
  destruct (split_joined (x :: l) ltac:(discriminate)) as [-> _].
  - eapply Forall_impl; [exact Hclean|]. intros a (_ & _ & Hs & Hcomma & _). now split.
  - apply filter_truthy_nonempty. eapply Forall_impl; [exact Hclean|].
    now intros a (Hne & _).
Qed.

End EnvelopeFacts.

(** ** Grouping the changes by repository *)

Lemma add_change_keys change groups :
  fst <$> add_change change groups
  = if bool_decide (repository change ∈ groups.*1) then groups.*1
    else (groups.*1 ++ [repository change])%list.
Proof.
  induction groups as [|[k l] groups IH]; [reflexivity|]. cbn [add_change].
  destruct (String.eqb_spec k (repository change)) as [->|Hne].
  - cbn. rewrite bool_decide_eq_true_2 by left. reflexivity.
  - cbn [fmap list_fmap fst]. change (list_fmap _ _ fst) with (fmap (M:=list) fst).
    rewrite IH. cbn.
    destruct (decide (repository change ∈ groups.*1)) as [Hin|Hnin].
    + rewrite !bool_decide_eq_true_2; [reflexivity| now right | assumption].
    + rewrite !bool_decide_eq_false_2; [reflexivity| | assumption].
      intros Hin. apply elem_of_cons in Hin as [Heq|Hin]; [exact (Hne (eq_sym Heq)) | contradiction].
Qed.

Lemma add_change_groups change groups k l :
  NoDup (groups.*1) ->
  In (k, l) (add_change change groups) ->
  (k = repository change /\
   ((exists l0, In (k, l0) groups /\ l = (l0 ++ [change])%list) \/
    ((k ∉ groups.*1) /\ l = [change]))) \/
  (k <> repository change /\ In (k, l) groups).
Proof.
  induction groups as [|[k' l'] groups IH]; intros Hnd.
  - intros [[= <- <-]|[]]. left. split; [reflexivity|]. right. split; [apply not_elem_of_nil | reflexivity].
  - apply NoDup_cons in Hnd as [Hk' Hnd]. cbn [add_change].
    destruct (String.eqb_spec k' (repository change)) as [->|Hne].
    + intros [[= <- <-]|Hin].
      * left. split; [reflexivity|]. left. exists l'. split; [now left | reflexivity].
      * right. split; [|now right]. intros ->. apply Hk'.
        apply list_elem_of_fmap. exists (repository change, l). split; [reflexivity | now apply list_elem_of_In].
    + intros [[= <- <-]|Hin].
      * right. split; [assumption | now left].
      * destruct (IH Hnd Hin) as [[-> [(l0 & Hl0 & ->)|[Hfresh ->]]]|[Hk Hin']].
        -- left. split; [reflexivity|]. left. exists l0. split; [now right | reflexivity].
        -- left. split; [reflexivity|]. right. split; [|reflexivity].
           intros Hin'. apply elem_of_cons in Hin' as [Heq|Hin'];
             [exact (Hne (eq_sym Heq)) | contradiction].
        -- right. split; [assumption | now right].
Qed.

Lemma filter_none {A} (f : A -> bool) l :
  (forall x, In x l -> f x = false) -> List.filter f l = [].
Proof.
  induction l as [|x l IH]; intros H; [reflexivity|]. cbn [List.filter].
  rewrite (H x (or_introl eq_refl)). apply IH. intros y Hy. apply H. now right.
Qed.

Lemma group_by_repo_inv changes : forall groups seen,
  NoDup (groups.*1) ->
  (forall k l, In (k, l) groups -> l <> [] /\ l = List.filter (of_repo k) seen) ->
  (forall c, In c seen -> repository c ∈ groups.*1) ->
  let result := List.fold_left (fun acc change => add_change change acc) changes groups in
  NoDup (result.*1) /\
  (forall k l, In (k, l) result ->
               l <> [] /\ l = List.filter (of_repo k) (seen ++ changes)) /\
  (forall c, In c (seen ++ changes) -> repository c ∈ result.*1).
Proof.
  induction changes as [|change changes IH]; intros groups seen Hnd Hgroups Hseen.
  - cbn. rewrite app_nil_r. auto.
  - cbn [List.fold_left].
    replace (seen ++ change :: changes)%list with ((seen ++ [change]) ++ changes)%list
      by now rewrite <- app_assoc.
    apply IH.
    + rewrite add_change_keys. case_bool_decide as Hin; [assumption|].
      apply NoDup_app. repeat split; [assumption | | apply NoDup_singleton].
      intros x Hx Hx'. apply list_elem_of_singleton in Hx'. now subst.
    + intros k l Hin. rewrite List.filter_app. cbn [List.filter]. unfold of_repo at 2.
      destruct (add_change_groups _ _ _ _ Hnd Hin)
        as [[-> [(l0 & Hl0 & ->)|[Hfresh ->]]]|[Hk Hin']].
      * rewrite String.eqb_refl. destruct (Hgroups _ _ Hl0) as [_ <-].
        split; [now destruct l0 | reflexivity].
      * rewrite String.eqb_refl. split; [discriminate|].
        replace (List.filter (of_repo (repository change)) seen) with (@nil ChangeRecord);
          [reflexivity|].
        symmetry. apply filter_none. intros c Hc. unfold of_repo.
        destruct (String.eqb_spec (repository c) (repository change)) as [Heq|]; [|reflexivity].
        exfalso. apply Hfresh. rewrite <- Heq. now apply Hseen.
      * destruct (String.eqb_spec (repository change) k) as [Heq|_]; [congruence|].
        rewrite app_nil_r. now apply Hgroups.
    + intros c Hc. rewrite add_change_keys. apply List.in_app_iff in Hc as [Hc|[<-|[]]].
      * case_bool_decide; [now apply Hseen|]. apply elem_of_app. left. now apply Hseen.
      * case_bool_decide as Hin; [assumption|]. apply elem_of_app. right. left.
Qed.

(** X8.  Grouping partitions the changes by repository: the groups
    have distinct names, every change's repository has a group, no
    group is empty, and a group holds exactly the changes of its
    repository, in the order they came in. *)
Theorem group_by_repo_partitions changes :
  NoDup ((group_by_repo changes).*1) /\
  (forall repo_name repo_changes,
      In (repo_name, repo_changes) (group_by_repo changes) ->
      repo_changes <> [] /\
      repo_changes = List.filter (fun c => String.eqb (repository c) repo_name) changes) /\
  (forall c, In c changes -> repository c ∈ (group_by_repo changes).*1).
Proof.
  unfold group_by_repo.
  apply (group_by_repo_inv changes [] []); [constructor | intros k l [] | intros c []].
Qed.

(** ** The label of a revision in the message *)

Lemma actions_elem (changed_paths : list PathChange) a :
  a ∈ (list_to_set (action <$> changed_paths) : gset string) <->
  exists p, In p changed_paths /\ action p = a.
Proof.
  rewrite elem_of_list_to_set, list_elem_of_fmap. split.
  - intros (p & -> & Hp). exists p. split; [now apply list_elem_of_In | reflexivity].
  - intros (p & Hp & <-). exists p. split; [reflexivity | now apply list_elem_of_In].
Qed.

(** X9.  The label of a revision follows a fixed priority: any deleted
    path makes it [Deleted]; otherwise two different actions make it
    [Mixed]; otherwise the single action decides ([Modified], [Added],
    or [Other] for anything else, e.g. a replacement); a revision
    without paths is labelled [None]. *)
Theorem change_type_by_priority changed_paths :
  (changed_paths = [] -> change_type changed_paths = ("None", "grey")) /\
  ((exists p, In p changed_paths /\ action p = "D") ->
   change_type changed_paths = ("Deleted", "red")) /\
  ((forall p, In p changed_paths -> action p <> "D") ->
   (exists p q, In p changed_paths /\ In q changed_paths /\ action p <> action q) ->
   change_type changed_paths = ("Mixed", "orange")) /\
  (forall a, changed_paths <> [] ->
             (forall p, In p changed_paths -> action p = a) -> a <> "D" ->
             change_type changed_paths
             = if String.eqb a "M" then ("Modified", "blue")
               else if String.eqb a "A" then ("Added", "green")
               else ("Other", "black")).
Proof.
  repeat split.
  - now intros ->.
  - intros (p & Hp & Hd). unfold change_type.
    destruct changed_paths as [|p0 ps]; [destruct Hp|].
    rewrite bool_decide_eq_true_2; [reflexivity|].
    apply actions_elem. now exists p.
  - intros Hnod (p & q & Hp & Hq & Hpq). unfold change_type.
    destruct changed_paths as [|p0 ps]; [destruct Hp|].
    rewrite bool_decide_eq_false_2.
    2:{ intros Hin. apply actions_elem in Hin as (p' & Hp' & Hd). now apply (Hnod p'). }
    set (actions := list_to_set _ : gset string).
    assert (Hsize : (2 <= size actions)%nat).
    { assert (Hsub : ({[action p]} ∪ {[action q]} : gset string) ⊆ actions).
      { intros x Hx. apply actions_elem.
        apply elem_of_union in Hx as [Hx|Hx]; apply elem_of_singleton in Hx; subst x;
          [now exists p | now exists q]. }
      apply subseteq_size in Hsub. rewrite size_union, !size_singleton in Hsub; [exact Hsub|].
      intros x Hx Hx'. apply elem_of_singleton in Hx, Hx'. congruence. }
    destruct (1 <? size actions)%nat eqn:Hlt; [reflexivity|].
    apply Nat.ltb_ge in Hlt. lia.
  - intros a Hne Hall Had. unfold change_type.
    destruct changed_paths as [|p0 ps]; [congruence|].
    set (actions := list_to_set _ : gset string).
    assert (Hset : actions = {[a]}).
    { apply set_eq. intros x. unfold actions. rewrite actions_elem, elem_of_singleton. split.
      - intros (p & Hp & <-). now apply Hall.
      - intros ->. exists p0. split; [now left | apply Hall; now left]. }
    rewrite Hset, size_singleton. cbn [Nat.ltb Nat.leb].
    rewrite bool_decide_eq_false_2 by (rewrite elem_of_singleton; congruence).
    destruct (String.eqb_spec a "M") as [->|HM].
    + now rewrite bool_decide_eq_true_2 by now apply elem_of_singleton.
    + rewrite bool_decide_eq_false_2 by (rewrite elem_of_singleton; congruence).
      destruct (String.eqb_spec a "A") as [->|HA].
      * now rewrite bool_decide_eq_true_2 by now apply elem_of_singleton.
      * now rewrite bool_decide_eq_false_2 by (rewrite elem_of_singleton; congruence).
Qed.

(** ** The recipients sheet *)

Lemma load_row_same mapping n cell :
  load_row mapping (n, cell) !! n
  = match row_recipients cell with [] => mapping !! n | l => Some l end.
Proof.
  unfold load_row. cbn [fst snd].
  destruct (row_recipients cell); [reflexivity | apply lookup_insert_eq].
Qed.

Lemma load_row_other mapping n n' cell :
  n' <> n -> load_row mapping (n', cell) !! n = mapping !! n.
Proof.
  intros Hne. unfold load_row. cbn [fst snd].
  destruct (row_recipients cell); [reflexivity | now apply lookup_insert_ne].
Qed.

Lemma load_rows_from n : forall rows mapping l,
  List.fold_left load_row rows mapping !! n = Some l ->
  mapping !! n = Some l \/
  exists cell, In (n, cell) rows /\ l = row_recipients cell /\ l <> [].
Proof.
  induction rows as [|[n' cell] rows IH]; intros mapping l; [now left|].
  cbn [List.fold_left]. intros H. destruct (IH _ _ H) as [Hm|(c & Hc & Hl)].
  - destruct (decide (n' = n)) as [->|Hne].
    + rewrite load_row_same in Hm. destruct (row_recipients cell) as [|a l'] eqn:Hr.
      * now left.
      * right. exists cell. injection Hm as <-. rewrite Hr. repeat split; [now left | discriminate].
    + rewrite load_row_other in Hm by assumption. now left.
  - right. exists c. split; [now right | assumption].
Qed.

Lemma load_rows_keeps n : forall rows mapping,
  is_Some (mapping !! n) \/ (exists cell, In (n, cell) rows /\ row_recipients cell <> []) ->
  is_Some (List.fold_left load_row rows mapping !! n).
Proof.
  induction rows as [|[n' cell] rows IH]; intros mapping.
  - intros [H|(c & [] & _)]. exact H.
  - intros H. cbn [List.fold_left]. apply IH.
    destruct (decide (n' = n)) as [->|Hne].
    + rewrite load_row_same. destruct (row_recipients cell) as [|a l'] eqn:Hr.
      * destruct H as [H|(c & [[= <-]|Hc] & Hne)]; [now left | congruence |].
        right. now exists c.
      * left. now eexists.
    + rewrite load_row_other by assumption.
      destruct H as [H|(c & [[= -> _]|Hc] & Hnb)]; [now left | congruence |].
      right. now exists c.
Qed.

Lemma load_rows_blank n : forall rows mapping,
  (forall cell, In (n, cell) rows -> row_recipients cell = []) ->
  List.fold_left load_row rows mapping !! n = mapping !! n.
Proof.
  induction rows as [|[n' cell] rows IH]; intros mapping Hblank; [reflexivity|].
  cbn [List.fold_left]. rewrite IH by (intros c Hc; apply Hblank; now right).
  destruct (decide (n' = n)) as [->|Hne].
  - rewrite load_row_same, (Hblank cell); [reflexivity | now left].
  - now apply load_row_other.
Qed.

(** X10.  A repository has recipients after loading exactly when some
    row names it with at least one address; what is stored is the
    address list of one of its rows, the last one that has an address:
    a later row without addresses does not erase it. *)
Theorem loaded_recipients_from_last_row rows repo_name :
  (is_Some (_load_recipients_from_excel rows !! repo_name) <->
   exists cell, In (repo_name, cell) rows /\ row_recipients cell <> []) /\
  (forall recipients,
      _load_recipients_from_excel rows !! repo_name = Some recipients ->
      exists cell, In (repo_name, cell) rows /\ recipients = row_recipients cell) /\
  (forall before cell after,
      rows = (before ++ (repo_name, cell) :: after)%list ->
      row_recipients cell <> [] ->
      (forall later, In (repo_name, later) after -> row_recipients later = []) ->
      _load_recipients_from_excel rows !! repo_name = Some (row_recipients cell)).
Proof.
  unfold _load_recipients_from_excel. repeat split.
  - intros [l Hl]. destruct (load_rows_from _ _ _ _ Hl) as [Hm|(c & Hc & -> & Hne)].
    + now rewrite lookup_empty in Hm.
    + now exists c.
  - intros H. apply load_rows_keeps. now right.
  - intros l Hl. destruct (load_rows_from _ _ _ _ Hl) as [Hm|(c & Hc & -> & Hne)].
    + now rewrite lookup_empty in Hm.
    + now exists c.
  - intros before cell after -> Hcell Hlater.
    rewrite List.fold_left_app. cbn [List.fold_left].
    rewrite (load_rows_blank _ _ _ Hlater), load_row_same.
    now destruct (row_recipients cell).
Qed.

(** ** The name mapping *)

Lemma add_name_row_other mapping row k :
  k ∉ name_keys row -> add_name_row mapping row !! k = mapping !! k.
Proof.
  destruct row as [[repo_id|] [repo_name|]]; try reflexivity.
  cbn [name_keys add_name_row]. intros Hk.
  rewrite !lookup_insert_ne; [reflexivity| | |];
    intros <-; apply Hk; repeat constructor.
Qed.

Lemma add_name_rows_other k : forall rows mapping,
  k ∉ List.flat_map name_keys rows ->
  List.fold_left add_name_row rows mapping !! k = mapping !! k.
Proof.
  induction rows as [|row rows IH]; intros mapping Hk; [reflexivity|].
  cbn [List.fold_left List.flat_map] in *. rewrite IH.
  - apply add_name_row_other. intros Hin. apply Hk, elem_of_app. now left.
  - intros Hin. apply Hk, elem_of_app. now right.
Qed.

Lemma name_mapping_lookups rows repo_id repo_name :
  NoDup (List.flat_map name_keys rows ++ ["Procurement"; "Production"]) ->
  In (Some repo_id, Some repo_name) rows ->
  let mapping := _load_repo_name_mapping (Some rows) in
  mapping !! Py.strip repo_id = Some (Py.strip repo_name ++ warehouse) /\
  mapping !! (Py.strip repo_name ++ warehouse) = Some (Py.strip repo_id) /\
  mapping !! Py.strip repo_name = Some (Py.strip repo_id).
Proof.
  intros Hnd Hin mapping. subst mapping. unfold _load_repo_name_mapping.
  apply List.in_split in Hin as (before & after & ->).
  rewrite List.flat_map_app in Hnd. cbn [List.flat_map name_keys] in Hnd.
  rewrite <- !app_assoc in Hnd.
  apply NoDup_app in Hnd as (_ & _ & Hnd).
  cbn [app] in Hnd.
  apply NoDup_cons in Hnd as [H1 Hnd]. apply NoDup_cons in Hnd as [H2 Hnd].
  apply NoDup_cons in Hnd as [H3 _].
  rewrite List.fold_left_app. cbn [List.fold_left].
  assert (Hkey : forall k v,
             k ∉ (List.flat_map name_keys after ++ ["Procurement"; "Production"])%list ->
             add_name_row (List.fold_left add_name_row before ∅)
                          (Some repo_id, Some repo_name) !! k = Some v ->
             <["Production" := "生产仓库"]>
               (<["Procurement" := "采购仓库"]>
                  (List.fold_left add_name_row after
                     (add_name_row (List.fold_left add_name_row before ∅)
                                   (Some repo_id, Some repo_name)))) !! k = Some v).
  { intros k v Hk Hv.
    rewrite !lookup_insert_ne, add_name_rows_other; [exact Hv| | |].
    - intros Hin. apply Hk, elem_of_app. now left.
    - intros <-. apply Hk, elem_of_app. right. left.
    - intros <-. apply Hk, elem_of_app. right. right. left. }
  cbn [add_name_row] in Hkey.
  repeat split; apply Hkey.
  - intros Hin. apply H1. now do 2 right.
  - rewrite lookup_insert_ne; [rewrite lookup_insert_ne; [apply lookup_insert_eq|]|].
    + intros Heq. apply H1. rewrite <- Heq. left.
    + intros Heq. apply H1. rewrite <- Heq. right. left.
  - intros Hin. apply H2. now right.
  - rewrite lookup_insert_ne; [apply lookup_insert_eq|].
    intros Heq. apply H2. rewrite <- Heq. left.
  - exact H3.
  - apply lookup_insert_eq.
Qed.

(** X11.  When the keys written for the rows of the sheet (the
    identifier, the display name, and the display name followed by the
    word for repository) are all different and none is one of the two
    built-in aliases, the mapping is a round trip: the identifier
    leads to the long display name, and both forms of the display name
    lead back to the identifier. *)
Theorem name_mapping_round_trip rows repo_id repo_name :
  NoDup (List.flat_map name_keys rows ++ ["Procurement"; "Production"]) ->
  In (Some repo_id, Some repo_name) rows ->
  let mapping := _load_repo_name_mapping (Some rows) in
  mapping !! Py.strip repo_id = Some (Py.strip repo_name ++ warehouse) /\
  mapping !! (Py.strip repo_name ++ warehouse) = Some (Py.strip repo_id) /\
  mapping !! Py.strip repo_name = Some (Py.strip repo_id).
Proof. apply name_mapping_lookups. Qed.

(** X12.  A change is tagged with the display name of its repository,
    the recipients sheet is keyed by identifier: under the conditions
    of the round trip, and when no row of the recipients sheet is keyed
    by the display name itself, the recipients resolved for the display
    name are those listed under the identifier. *)
Theorem display_name_resolves_to_identifier_recipients
        recipients_mapping config_EMAIL set_order rows repo_id repo_name recipients :
  NoDup (List.flat_map name_keys rows ++ ["Procurement"; "Production"]) ->
  In (Some repo_id, Some repo_name) rows ->
  Py.strip repo_id <> "" ->
  recipients_mapping !! Py.strip repo_name = None ->
  recipients_mapping !! Py.strip repo_id = Some recipients ->
  _get_recipients_for_repository recipients_mapping (_load_repo_name_mapping (Some rows))
                                 config_EMAIL set_order (Py.strip repo_name)
  = Return (joined recipients).
Proof.
  intros Hnd Hin Hid Hname Hrec.
  destruct (name_mapping_lookups rows repo_id repo_name Hnd Hin) as (_ & _ & Halias).
  unfold _get_recipients_for_repository. rewrite Hname, Halias.
  destruct (Py.strip repo_id) as [|c s] eqn:Hs; [congruence|].
  cbn [Py.truthy]. now rewrite Hrec.
Qed.

(** ** The polling cycle: quiet passes, failures, catching up *)

Section CycleFacts.

Variable repositories : list (string * gmap string string).

Abbreviation load := (_get_last_recorded_revisions repositories).
Abbreviation names := (repositories.*1).

(** The repositories whose check raises. *)
Abbreviation failing env repos :=
  (List.filter (fun r => bool_decide (get_latest_revision env r = None)) repos).

Lemma check_all_errors env : forall repos m rep,
  errors (check_all env repos (m, rep)).2 = (errors rep ++ failing env (repos.*1))%list.
Proof.
  induction repos as [|[n c] rest IH]; intros m rep; cbn [check_all].
  - cbn. now rewrite app_nil_r.
  - unfold check_repository. cbn [fmap list_fmap fst List.filter].
    change (list_fmap _ _ fst rest) with (rest.*1).
    destruct (get_latest_revision env n) as [l|] eqn:Hl.
    + rewrite bool_decide_eq_false_2 by discriminate.
      destruct (default 0 (last_revisions m !! n) <? l); [|apply IH].
      destruct (notify_on_changes c); rewrite IH; reflexivity.
    + rewrite bool_decide_eq_true_2 by reflexivity. rewrite IH. cbn [errors].
      now rewrite <- app_assoc.
Qed.

Lemma check_all_quiet env : forall repos m rep,
  (forall r l, r ∈ repos.*1 -> get_latest_revision env r = Some l ->
               l <= default 0 (last_revisions m !! r)) ->
  check_all env repos (m, rep)
  = (m, mkReport (all_changes rep) (changes_to_update rep)
                 (errors rep ++ failing env (repos.*1)) (email_success rep)).
Proof.
  induction repos as [|[n c] rest IH]; intros m rep Hquiet; cbn [check_all].
  - cbn. rewrite app_nil_r. now destruct rep.
  - assert (Hrest : forall r l, r ∈ rest.*1 -> get_latest_revision env r = Some l ->
                                l <= default 0 (last_revisions m !! r)).
    { intros r l Hr. apply Hquiet. now right. }
    unfold check_repository. cbn [fmap list_fmap fst List.filter].
    change (list_fmap _ _ fst rest) with (rest.*1).
    destruct (get_latest_revision env n) as [l|] eqn:Hl.
    + rewrite bool_decide_eq_false_2 by discriminate.
      assert (Hle : l <= default 0 (last_revisions m !! n)) by (apply Hquiet; [left | exact Hl]).
      apply Z.ltb_ge in Hle. rewrite Hle. now apply IH.
    + rewrite bool_decide_eq_true_2 by reflexivity. rewrite IH by exact Hrest.
      cbn [all_changes changes_to_update errors email_success].
      now rewrite <- app_assoc.
Qed.

Lemma quiet_cycle env m :
  (forall r l, r ∈ names -> get_latest_revision env r = Some l -> l <= persisted m r) ->
  cycle repositories env m
  = (mkMonitor (load (stored m)) (stored m),
     mkReport [] [] (failing env names) None).
Proof.
  intros Hquiet. unfold cycle, check_phase. rewrite check_all_quiet.
  - reflexivity.
  - intros r l Hr Hl. cbn [last_revisions]. rewrite (persisted_load repositories m r Hr).
    now apply Hquiet.
Qed.

(** X14.  A repository whose check raises is reported and skipped, and
    the pass goes on: the errors of a pass name exactly the
    repositories whose check raised, in configuration order, and the
    pending set still holds every notification-enabled repository with
    a revision above its watermark. *)
Theorem failing_repository_is_isolated env m :
  NoDup names ->
  errors (cycle repositories env m).2 = failing env names /\
  changes_to_update (cycle repositories env m).2
  = pending_in env (load (stored m)) repositories.
Proof.
  intros Hnd. unfold cycle.
  pose proof (check_all_errors env repositories
                (mkMonitor (load (stored m)) (stored m)) (mkReport [] [] [] None)) as Herr.
  destruct (check_phase_spec repositories env m Hnd) as (Hctu & _).
  fold (check_phase repositories env m) in Herr.
  destruct (check_phase repositories env m) as [m1 rep1].
  cbn [fst snd errors app] in Herr, Hctu.
  destruct (dispatch_phase_cases repositories env m1 rep1) as (Hsame & _).
  split; [|now rewrite Hsame].
  unfold dispatch_phase. destruct (all_changes rep1); [exact Herr|].
  destruct (deliver env _); exact Herr.
Qed.

Lemma pending_in_spec env L r info : forall repos,
  In (r, info) (pending_in env L repos) <->
  exists c, In (r, c) repos /\ notify_on_changes c = true /\
            get_latest_revision env r = Some info.2 /\
            info.1 = default 0 (L !! r) /\ info.1 < info.2.
Proof.
  induction repos as [|[n c] rest IH].
  - split; [intros [] | intros (c & [] & _)].
  - unfold pending_in in *. cbn [omap list_omap].
    assert (Hskip : (exists c0, In (r, c0) rest /\ notify_on_changes c0 = true /\
                                get_latest_revision env r = Some info.2 /\
                                info.1 = default 0 (L !! r) /\ info.1 < info.2) ->
                    exists c0, In (r, c0) ((n, c) :: rest) /\ notify_on_changes c0 = true /\
                               get_latest_revision env r = Some info.2 /\
                               info.1 = default 0 (L !! r) /\ info.1 < info.2).
    { intros (c0 & H0 & H). exists c0. split; [now right | exact H]. }
    destruct (notify_on_changes c) eqn:Hn.
    + destruct (get_latest_revision env n) as [l|] eqn:Hl.
      * destruct (default 0 (L !! n) <? l) eqn:Hlt.
        -- split.
           ++ intros [[= <- <-]|Hin].
              ** exists c. cbn. apply Z.ltb_lt in Hlt. repeat split; try assumption. now left.
              ** apply Hskip, IH, Hin.
           ++ intros (c0 & [[= -> ->]|Hin] & Hc0 & Hlat & H1 & H2).
              ** left. destruct info as [a b]. cbn in *. congruence.
              ** right. apply IH. now exists c0.
        -- split; [intros Hin; apply Hskip, IH, Hin|].
           intros (c0 & [[= -> ->]|Hin] & Hc0 & Hlat & H1 & H2).
           ++ apply Z.ltb_ge in Hlt. rewrite Hl in Hlat. injection Hlat as ->. lia.
           ++ apply IH. now exists c0.
      * split; [intros Hin; apply Hskip, IH, Hin|].
        intros (c0 & [[= -> ->]|Hin] & Hc0 & Hlat & H1 & H2); [congruence|].
        apply IH. now exists c0.
    + split; [intros Hin; apply Hskip, IH, Hin|].
      intros (c0 & [[= -> ->]|Hin] & Hc0 & Hlat & H1 & H2); [congruence|].
      apply IH. now exists c0.
Qed.

Lemma pending_in_names env L : forall repos,
  sublist ((pending_in env L repos).*1) (repos.*1).
Proof.
  induction repos as [|[n c] rest IH]; [constructor|].
  unfold pending_in in *. cbn [omap list_omap fmap list_fmap fst].
  destruct (notify_on_changes c); [|now constructor].
  destruct (get_latest_revision env n) as [l|]; [|now constructor].
  destruct (_ <? l); now constructor.
Qed.

Lemma commit_lookup_exact (ctu : list (string * (Z * Z))) r :
  forall revisions : gmap string Z,
  NoDup (ctu.*1) ->
  List.fold_left (fun temp '(repo_name, info) => <[repo_name := snd info]> temp)
                 ctu revisions !! r
  = match List.find (fun '(k, _) => String.eqb k r) ctu with
    | Some (_, info) => Some info.2
    | None => revisions !! r
    end.
Proof.
  induction ctu as [|[n info] rest IH]; intros L Hnd; [reflexivity|].
  apply NoDup_cons in Hnd as [Hn Hnd]. cbn [List.fold_left List.find].
  rewrite (IH _ Hnd). destruct (String.eqb_spec n r) as [->|Hne].
  - destruct (List.find _ rest) as [[k info']|] eqn:Hf.
    + exfalso. apply List.find_some in Hf as [Hin Hk].
      apply String.eqb_eq in Hk as ->. apply Hn.
      apply list_elem_of_fmap. exists (r, info'). split; [reflexivity | now apply list_elem_of_In].
    + apply lookup_insert_eq.
  - destruct (List.find _ rest) as [[k info']|]; [reflexivity|].
    now apply lookup_insert_ne.
Qed.

Lemma check_phase_memory env m r c :
  NoDup names -> In (r, c) repositories ->
  last_revisions (check_phase repositories env m).1 !! r
  = Some (if notify_on_changes c then persisted m r
          else match get_latest_revision env r with
               | Some l => Z.max (persisted m r) l
               | None => persisted m r
               end).
Proof.
  intros Hnd Hin.
  assert (Hr : r ∈ names).
  { apply list_elem_of_fmap. exists (r, c). split; [reflexivity | now apply list_elem_of_In]. }
  pose proof (persisted_load repositories m r Hr) as Hload.
  unfold check_phase. revert Hnd Hload.
  generalize (load (stored m)) as L. intros L.
  apply List.in_split in Hin as (before & after & ->). intros Hnd Hload.
  rewrite fmap_app in Hnd. cbn [fmap list_fmap fst] in Hnd.
  apply NoDup_app in Hnd as (_ & Hbefore & Hafter).
  apply NoDup_cons in Hafter as [Hafter _].
  assert (Hb : r ∉ before.*1).
  { intros Hb. apply (Hbefore r Hb). left. }
  rewrite check_all_app. cbn [check_all].
  destruct (check_all_frame env r before (mkMonitor L (stored m)) (mkReport [] [] [] None) Hb)
    as [Hmem _].
  destruct (check_all env before _) as [m1 rep1]. cbn [fst last_revisions] in Hmem.
  rewrite Hload in Hmem.
  assert (Hstep : last_revisions (check_repository env r c (m1, rep1)).1 !! r
                  = Some (if notify_on_changes c then persisted m r
                          else match get_latest_revision env r with
                               | Some l => Z.max (persisted m r) l
                               | None => persisted m r
                               end)).
  { unfold check_repository. rewrite Hmem.
    change (default 0 (Some (persisted m r))) with (persisted m r).
    destruct (get_latest_revision env r) as [l|]; cbn [fst].
    - destruct (persisted m r <? l) eqn:Hlt.
      + apply Z.ltb_lt in Hlt. destruct (notify_on_changes c); cbn [fst]; [exact Hmem|].
        unfold _save_last_revisions. destruct (write_ok env (Some r)); cbn [last_revisions];
          rewrite lookup_insert_eq; f_equal; lia.
      + apply Z.ltb_ge in Hlt. cbn [fst]. rewrite Hmem.
        destruct (notify_on_changes c); f_equal; lia.
    - rewrite Hmem. now destruct (notify_on_changes c). }
  destruct (check_repository env r c (m1, rep1)) as [m2 rep2]. cbn [fst] in Hstep.
  destruct (check_all_frame env r after m2 rep2 Hafter) as [Hmem2 _].
  now rewrite Hmem2.
Qed.

Lemma delivered_catches_up env m r :
  NoDup names -> r ∈ names ->
  email_success (cycle repositories env m).2 = Some true ->
  write_ok env None = true ->
  persisted (cycle repositories env m).1 r
  = match get_latest_revision env r with
    | Some l => Z.max (persisted m r) l
    | None => persisted m r
    end.
Proof.
  intros Hnd Hr Hok Hwrite.
  apply list_elem_of_fmap in Hr as ([r' c] & -> & Hin). cbn [fst].
  apply list_elem_of_In in Hin.
  pose proof (check_phase_memory env m r' c Hnd Hin) as Hmem.
  destruct (check_phase_spec repositories env m Hnd) as (Hctu & Hnone & _).
  unfold cycle in *.
  destruct (check_phase repositories env m) as [m1 rep1]. cbn [fst snd] in Hmem, Hctu, Hnone.
  unfold dispatch_phase in *.
  destruct (all_changes rep1) as [|ch chs]; [cbn in Hok; congruence|].
  destruct (deliver env (ch :: chs)); [|cbn in Hok; congruence].
  unfold _save_last_revisions. rewrite Hwrite. cbn [fst]. rewrite persisted_mk.
  assert (Hkeys : NoDup ((changes_to_update rep1).*1)).
  { rewrite Hctu. exact (sublist_NoDup _ _ Hnd (pending_in_names _ _ _)). }
  rewrite (commit_lookup_exact _ r' _ Hkeys), Hctu.
  destruct (List.find _ _) as [[k info]|] eqn:Hf.
  - apply List.find_some in Hf as [Hp Hk]. apply String.eqb_eq in Hk as ->.
    apply pending_in_spec in Hp as (c' & Hc' & Hn & Hlat & H1 & H2).
    rewrite Hlat.
    rewrite (persisted_load repositories m r') in H1
      by (apply list_elem_of_fmap; exists (r', c); split;
          [reflexivity | now apply list_elem_of_In]).
    change (info.1 = persisted m r') in H1.
    change (info.2 = Z.max (persisted m r') info.2). lia.
  - rewrite Hmem.
    match goal with |- default 0 (Some ?v) = _ => change (default 0 (Some v)) with v end.
    destruct (notify_on_changes c) eqn:Hn; [|reflexivity].
    destruct (get_latest_revision env r') as [l|] eqn:Hlat; [|reflexivity].
    destruct (Z.lt_ge_cases (persisted m r') l) as [Hlt|Hge]; [|lia].
    exfalso.
    assert (Hp : In (r', (persisted m r', l)) (pending_in env (load (stored m)) repositories)).
    { apply pending_in_spec. exists c. cbn [fst snd].
      rewrite (persisted_load repositories m r')
        by (apply list_elem_of_fmap; exists (r', c); split;
            [reflexivity | now apply list_elem_of_In]).
      repeat split; first [assumption | reflexivity]. }
    apply (List.find_none _ _ Hf) in Hp. cbn in Hp. now rewrite String.eqb_refl in Hp.
Qed.

(** X15.  After a delivered notification whose write goes through,
    every configured repository is up to date: its persisted watermark
    is the latest revision the pass observed, or what it was when the
    pass observed nothing newer (or could not observe). *)
Theorem delivered_cycle_catches_up env m r :
  NoDup names -> r ∈ names ->
  email_success (cycle repositories env m).2 = Some true ->
  write_ok env None = true ->
  persisted (cycle repositories env m).1 r
  = match get_latest_revision env r with
    | Some l => Z.max (persisted m r) l
    | None => persisted m r
    end.
Proof. apply delivered_catches_up. Qed.

(** X16.  What is loaded covers exactly the configured repositories
    (an entry of the file for any other name is dropped, a repository
    the file does not know starts at 0), saving and reloading returns
    the saved watermark of every configured repository, and reloading
    what was just loaded and saved changes nothing. *)
Theorem saved_watermarks_reload file revisions m :
  dom (load file) = list_to_set names /\
  (forall r, r ∈ names ->
             load (stored (_save_last_revisions true revisions m)) !! r
             = Some (default 0 (revisions !! r))) /\
  load (stored (_save_last_revisions true (load file) m)) = load file.
Proof.
  repeat split.
  - apply set_eq. intros r. rewrite elem_of_dom, elem_of_list_to_set, load_lookup.
    case_bool_decide as Hr; split; intros H; try assumption;
      [now eexists | now destruct H | contradiction].
  - intros r Hr. cbn [_save_last_revisions stored]. now rewrite load_configured.
  - cbn [_save_last_revisions stored]. apply map_eq. intros r. rewrite !load_lookup.
    case_bool_decide as Hr; [|reflexivity]. cbn [mbind option_bind].
    rewrite load_lookup, bool_decide_eq_true_2 by assumption. reflexivity.
Qed.

Lemma hook_advance_records env repository_path revision m r :
  r ∈ names ->
  persisted m r < persisted (hook repositories env repository_path revision m).1 r ->
  exists rev n c,
    Py.int revision = Some rev /\
    matching repositories repository_path = Some (n, c) /\
    persisted (hook repositories env repository_path revision m).1 n = rev.
Proof.
  intros Hr. unfold hook, process_commit.
  destruct (Py.int revision) as [rev|] eqn:Hrev; [|cbn; unfold persisted; cbn; lia].
  destruct (matching repositories repository_path) as [[n c]|] eqn:Hm;
    [|cbn; unfold persisted; cbn; lia].
  cbn [last_revisions stored].
  destruct (_ <? rev); [|cbn; unfold persisted; cbn; lia].
  unfold _save_last_revisions.
  destruct (notify_on_changes c && _);
    [destruct (deliver env _); [|cbn; unfold persisted; cbn; lia]|];
    cbn [fst]; (destruct (write_ok env (Some n)); [|cbn; unfold persisted; cbn; lia]);
    intros _; exists rev, n, c; repeat split; unfold persisted; cbn;
    now rewrite lookup_insert_eq.
Qed.

(** X17.  A commit that a hook invocation has recorded is not
    processed twice: a second invocation for the same path and
    revision, whatever the surroundings then answer, fetches nothing,
    dispatches nothing and leaves the store as it is. *)
Theorem recorded_commit_is_not_processed_twice env env' repository_path revision m r :
  r ∈ names ->
  persisted m r < persisted (hook repositories env repository_path revision m).1 r ->
  stored (hook repositories env' repository_path revision
               (hook repositories env repository_path revision m).1).1
  = stored (hook repositories env repository_path revision m).1 /\
  commit_changes (hook repositories env' repository_path revision
                       (hook repositories env repository_path revision m).1).2 = [] /\
  commit_dispatch (hook repositories env' repository_path revision
                        (hook repositories env repository_path revision m).1).2 = None.
Proof.
  intros Hr Hadv.
  destruct (hook_advance_records env repository_path revision m r Hr Hadv)
    as (rev & n & c & Hrev & Hm & Hrec).
  assert (Hn : n ∈ names).
  { apply matching_In in Hm. apply list_elem_of_fmap. exists (n, c).
    split; [reflexivity | now apply list_elem_of_In]. }
  generalize dependent (hook repositories env repository_path revision m).1.
  intros m1 _ H1. unfold hook, process_commit. rewrite Hrev, Hm.
  cbn [last_revisions stored]. rewrite (persisted_load repositories m1 n Hn), H1.
  change (default 0 (Some rev)) with rev. rewrite Z.ltb_irrefl. cbn. auto.
Qed.

(** X18.  A hook invocation for a path that matches no configured
    repository is attributed to the first configured repository: with
    notifications switched off there, its watermark moves to the
    revision of the commit. *)
Theorem unknown_path_moves_first_repository
        env repository_path revision rev m first first_config others :
  repositories = (first, first_config) :: others ->
  (forall n c p, In (n, c) repositories -> c !! "repository_path" = Some p ->
                 Py.contains repository_path p = false /\
                 Py.contains p repository_path = false) ->
  Py.int revision = Some rev ->
  persisted m first < rev ->
  notify_on_changes first_config = false ->
  write_ok env (Some first) = true ->
  commit_repo (hook repositories env repository_path revision m).2 = Some first /\
  persisted (hook repositories env repository_path revision m).1 first = rev.
Proof.
  intros Hrepos Hnomatch Hrev Hlt Hoff Hwrite.
  assert (Hm : matching repositories repository_path = Some (first, first_config)).
  { unfold matching. destruct (List.find _ repositories) as [[n c]|] eqn:Hf.
    - apply List.find_some in Hf as [Hin Hhit].
      destruct (c !! "repository_path") as [p|] eqn:Hp; [|discriminate].
      destruct (Hnomatch n c p Hin Hp) as [H1 H2]. rewrite H1, H2 in Hhit. discriminate.
    - now rewrite Hrepos. }
  assert (Hfirst : first ∈ names) by (rewrite Hrepos; left).
  unfold hook, process_commit. rewrite Hrev, Hm. cbn [last_revisions stored].
  rewrite (persisted_load repositories m first Hfirst).
  change (default 0 (Some (persisted m first))) with (persisted m first).
  apply Z.ltb_lt in Hlt. rewrite Hlt, Hoff, Hwrite. cbn.
  split; [reflexivity|]. unfold persisted. cbn. now rewrite lookup_insert_eq.
Qed.

End CycleFacts.

(** ** An empty change list *)

Section EmptyChangeListFacts.

Variable repositories : list (string * gmap string string).

Abbreviation load := (_get_last_recorded_revisions repositories).
Abbreviation names := (repositories.*1).

Lemma flat_map_without {A B} (f : A -> list B) (keep : A -> bool) (l : list A) :
  (forall x, In x l -> keep x = false -> f x = []) ->
  List.flat_map f l = List.flat_map f (List.filter keep l).
Proof.
  induction l as [|x l IH]; intros Hskip; [reflexivity|].
  cbn [List.flat_map List.filter].
  rewrite IH by (intros y Hy; apply Hskip; now right).
  destruct (keep x) eqn:Hk; [reflexivity|].
  now rewrite (Hskip x (or_introl eq_refl) Hk).
Qed.

Lemma hook_records_unnotified env repository_path revision rev c m r :
  NoDup names ->
  Py.int revision = Some rev ->
  matching repositories repository_path = Some (r, c) ->
  notifies repositories r = true ->
  persisted m r < rev ->
  get_changes env r (persisted m r) rev = [] ->
  write_ok env (Some r) = true ->
  persisted (hook repositories env repository_path revision m).1 r = rev /\
  commit_dispatch (hook repositories env repository_path revision m).2 = None.
Proof.
  intros Hnd Hrev Hm Hn Hlt Hnone Hwrite.
  pose proof (matching_In repositories _ _ _ Hm) as Hin.
  assert (Hr : r ∈ names).
  { apply list_elem_of_fmap. exists (r, c). split; [reflexivity | now apply list_elem_of_In]. }
  unfold hook, process_commit. rewrite Hrev, Hm. cbn [last_revisions stored].
  rewrite (persisted_load repositories m r Hr).
  change (default 0 (Some (persisted m r))) with (persisted m r).
  apply Z.ltb_lt in Hlt. rewrite Hlt, Hnone, andb_false_r, Hwrite. cbn.
  split; [|reflexivity]. unfold persisted. cbn. now rewrite lookup_insert_eq.
Qed.

Lemma cycle_payload_skips env m r l :
  NoDup names ->
  get_latest_revision env r = Some l ->
  get_changes env r (persisted m r) l = [] ->
  r ∈ names ->
  all_changes (cycle repositories env m).2
  = List.flat_map (fun '(n, info) => get_changes env n info.1 info.2)
      (List.filter (fun '(n, _) => negb (String.eqb n r))
                   (changes_to_update (cycle repositories env m).2)).
Proof.
  intros Hnd Hl Hnone Hr.
  pose proof (check_phase_changes repositories env m Hnd) as Hall.
  destruct (check_phase_spec repositories env m Hnd) as (Hctu & _).
  unfold cycle.
  destruct (check_phase repositories env m) as [m1 rep1]. cbn [fst snd] in Hall, Hctu.
  rewrite dispatch_phase_all_changes, (proj1 (dispatch_phase_cases repositories env m1 rep1)).
  rewrite Hall, Hctu.
  rewrite (flat_map_without _ (fun '(n, _) => negb (String.eqb n r))); [reflexivity|].
  intros [n info] Hin Hk. apply negb_false_iff, String.eqb_eq in Hk as ->.
  apply pending_in_spec in Hin as (c & _ & _ & Hlat & H1 & _).
  rewrite (persisted_load repositories m r Hr) in H1.
  change (info.1 = persisted m r) in H1. rewrite H1.
  rewrite Hl in Hlat. injection Hlat as <-. exact Hnone.
Qed.

Lemma idle_cycle_holds env m r :
  NoDup names -> r ∈ names -> notifies repositories r = true ->
  all_changes (cycle repositories env m).2 = [] ->
  email_success (cycle repositories env m).2 = None /\
  persisted (cycle repositories env m).1 r = persisted m r.
Proof.
  intros Hnd Hr Hn Hnone.
  destruct (check_phase_spec repositories env m Hnd) as (_ & Hnot & _).
  destruct (check_phase_persisted repositories env m r Hnd Hr) as (_ & Hkeep & _).
  specialize (Hkeep Hn). unfold cycle in *.
  destruct (check_phase repositories env m) as [m1 rep1]. cbn [fst snd] in *.
  rewrite dispatch_phase_all_changes in Hnone.
  unfold dispatch_phase. rewrite Hnone. cbn [fst snd]. now split.
Qed.

(** C2 (where the code departs from it).  The watermark of a
    notification-enabled repository is advanced to a revision whose
    notification was never delivered whenever the change list fetched
    for that revision is empty.  A hook invocation then records the
    revision with no dispatch at all.  A polling pass puts the
    repository into the pending set although it adds nothing to the
    payload: the payload is made of the changes of the other pending
    repositories only, and when their notification is delivered the
    watermark of this repository is advanced with theirs; when no other
    repository has anything to report, nothing is dispatched and the
    watermark stays, as the claim requires. *)
Theorem empty_change_list_advances_watermark r :
  NoDup names -> r ∈ names -> notifies repositories r = true ->
  (forall env repository_path revision rev c m,
      Py.int revision = Some rev ->
      matching repositories repository_path = Some (r, c) ->
      persisted m r < rev ->
      get_changes env r (persisted m r) rev = [] ->
      write_ok env (Some r) = true ->
      persisted (hook repositories env repository_path revision m).1 r = rev /\
      commit_dispatch (hook repositories env repository_path revision m).2 = None) /\
  (forall env m l,
      get_latest_revision env r = Some l ->
      persisted m r < l ->
      get_changes env r (persisted m r) l = [] ->
      all_changes (cycle repositories env m).2
      = List.flat_map (fun '(n, info) => get_changes env n info.1 info.2)
          (List.filter (fun '(n, _) => negb (String.eqb n r))
                       (changes_to_update (cycle repositories env m).2)) /\
      (email_success (cycle repositories env m).2 = Some true ->
       write_ok env None = true ->
       persisted (cycle repositories env m).1 r = l) /\
      (all_changes (cycle repositories env m).2 = [] ->
       email_success (cycle repositories env m).2 = None /\
       persisted (cycle repositories env m).1 r = persisted m r)).
Proof.
  intros Hnd Hr Hn. split.
  - intros env repository_path revision rev c m Hrev Hm Hlt Hnone Hwrite.
    now apply (hook_records_unnotified env repository_path revision rev c m r).
  - intros env m l Hl Hlt Hnone. split; [|split].
    + now apply (cycle_payload_skips env m r l).
    + intros Hok Hwrite. rewrite (delivered_catches_up repositories env m r Hnd Hr Hok Hwrite), Hl. lia.
    + now apply idle_cycle_holds.
Qed.

End EmptyChangeListFacts.

(** ** The status report that ends a pass *)

Section PassFacts.

Variable repositories : list (string * gmap string string).
Variable repo_name_mapping : gmap string string.
Variable config_EMAIL : option (gmap string string).
Variable smtp : nat -> Message -> Attempt.
Variable items_order : gmap string string -> list (string * string).
Variable check_time_str : string.

Abbreviation load := (_get_last_recorded_revisions repositories).
Abbreviation names := (repositories.*1).
Abbreviation failing env repos :=
  (List.filter (fun r => bool_decide (get_latest_revision env r = None)) repos).
Abbreviation status_mail :=
  (send_status_email repo_name_mapping config_EMAIL smtp items_order).
Abbreviation one_pass :=
  (pass repositories repo_name_mapping config_EMAIL smtp items_order check_time_str).

(** The status mail: at most three connections; none, and no report,
    unless the mail section names a server, a sender and a credential
    pair; the report it composes repeats the counts and the errors it
    was given and shows every repository as normal. *)
Lemma status_mail_bounds check_result :
  (exists k, (k <= 3)%nat /\ connections (status_mail check_result).1.2 = List.seq 0 k) /\
  (match config_EMAIL with
   | Some email =>
       bool_decide (is_Some (email !! "smtp_server"))
       && bool_decide (is_Some (email !! "from_email"))
       && credentials_configured email
   | None => false
   end = false ->
   status_mail check_result
   = (false, (status_mail check_result).1.2, None) /\
   connections (status_mail check_result).1.2 = []) /\
  (forall report,
      (status_mail check_result).2 = Some report ->
      status_counts report
      = (total_repos check_result, length (repos_checked check_result),
         repos_with_changes check_result, total_changes check_result) /\
      status_errors report = check_errors check_result /\
      List.map (fun row => row.2) (status_rows report)
      = List.map (fun _ => "正常") (repos_checked check_result)).
Proof.
  assert (Hskip : forall events,
            (exists k, (k <= 3)%nat /\ connections (false, events, @None StatusReport).1.2
                                       = List.seq 0 k) ->
            connections events = [] ->
            (exists k, (k <= 3)%nat /\ connections (false, events, @None StatusReport).1.2
                                       = List.seq 0 k) /\
            (false, events, @None StatusReport)
            = (false, (false, events, @None StatusReport).1.2, None) /\
            connections (false, events, @None StatusReport).1.2 = []).
  { intros events H1 H2. split; [exact H1|]. split; [reflexivity | exact H2]. }
  unfold send_status_email.
  destruct config_EMAIL as [email|].
  2:{ split; [exists 0%nat; split; [lia | reflexivity]|].
      split; [intros _; split; reflexivity | discriminate]. }
  destruct (bool_decide (is_Some (email !! "smtp_server"))
            && bool_decide (is_Some (email !! "from_email"))) eqn:Hcomplete; cbn [negb andb].
  2:{ split; [exists 0%nat; split; [lia | reflexivity]|].
      split; [intros _; split; reflexivity | discriminate]. }
  destruct (credentials_configured email) eqn:Hcred; cbn [negb].
  2:{ split; [exists 0%nat; split; [lia | reflexivity]|].
      split; [intros _; split; reflexivity | discriminate]. }
  destruct (_send_email (Some email) smtp _) as [success events] eqn:Hsend.
  cbn [fst snd]. split; [|split; [discriminate|]].
  - unfold _send_email in Hsend.
    destruct (email !! "smtp_server");
      [|injection Hsend as <- <-; exists 0%nat; split; [lia | reflexivity]].
    destruct (Py.int (Py.get email "smtp_port" "465"));
      [|injection Hsend as <- <-; exists 0%nat; split; [lia | reflexivity]].
    destruct (send_loop_bounded smtp (use_ssl_of email) (credentials_configured email)
                (mkMessage (Py.get email "from_email" "") status_recipient [])
                (S max_retries) 0 [])
      as (ok & k & ev' & Heq & Hconn & Hk & _); [unfold max_retries; lia | lia |].
    rewrite Heq in Hsend. injection Hsend as <- <-. cbn [app].
    exists k. split; [unfold max_retries in Hk; lia|].
    rewrite connections_app, Hconn. destruct ok; cbn; now rewrite app_nil_r.
  - intros report [= <-]. cbn. repeat split.
    rewrite List.map_map. reflexivity.
Qed.

Lemma quiet_pass env m :
  (forall r l, r ∈ names -> get_latest_revision env r = Some l -> l <= persisted m r) ->
  one_pass env m
  = (mkMonitor (load (stored m)) (stored m),
     mkReport [] [] (failing env names) None,
     status_mail (mkCheckResult check_time_str (length repositories) 0 0 names
                                (failing env names))).
Proof.
  intros Hquiet. unfold pass.
  rewrite (quiet_cycle repositories env m Hquiet). reflexivity.
Qed.

(** X13.  A pass in which no repository shows a revision above its
    persisted watermark collects no change, dispatches no change
    notification and does not write the store.  What it still sends is
    the status report of the pass: at most three connections, none
    (and no report) unless the mail section names a server, a sender
    and a credential pair; a report saying that no repository has
    changes, showing every repository as normal and listing the
    repositories whose check raised. *)
Theorem quiet_pass_sends_status_report_only env m :
  (forall r l, r ∈ names -> get_latest_revision env r = Some l -> l <= persisted m r) ->
  (one_pass env m).1.1 = mkMonitor (load (stored m)) (stored m) /\
  (one_pass env m).1.2 = mkReport [] [] (failing env names) None /\
  (exists k, (k <= 3)%nat /\ connections (one_pass env m).2.1.2 = List.seq 0 k) /\
  (match config_EMAIL with
   | Some email =>
       bool_decide (is_Some (email !! "smtp_server"))
       && bool_decide (is_Some (email !! "from_email"))
       && credentials_configured email
   | None => false
   end = false ->
   (one_pass env m).2.1.1 = false /\
   connections (one_pass env m).2.1.2 = [] /\
   (one_pass env m).2.2 = None) /\
  (forall report,
      (one_pass env m).2.2 = Some report ->
      status_counts report = (length repositories, length repositories, 0%nat, 0%nat) /\
      status_errors report = failing env names /\
      List.map (fun row => row.2) (status_rows report) = List.map (fun _ => "正常") names).
Proof.
  intros Hquiet. rewrite (quiet_pass env m Hquiet). cbn [fst snd].
  destruct (status_mail_bounds
              (mkCheckResult check_time_str (length repositories) 0 0 names (failing env names)))
    as (Hconn & Hskip & Hreport).
  split; [reflexivity|]. split; [reflexivity|]. split; [exact Hconn|]. split.
  - intros Hoff. destruct (Hskip Hoff) as [Heq Hnone]. rewrite Heq. cbn [fst snd].
    split; [reflexivity|]. split; [|reflexivity]. rewrite Heq in Hnone. exact Hnone.
  - intros report Hr. destruct (Hreport report Hr) as (Hcounts & Herrors & Hrows).
    cbn [total_repos repos_checked repos_with_changes total_changes check_errors] in *.
    rewrite length_fmap in Hcounts. auto.
Qed.

End PassFacts.

(** ** The configuration *)

Lemma prefix_drop p : forall s,
  String.prefix p s = true -> s = p ++ Py.drop (String.length p) s.
Proof.
  induction p as [|c p IH]; intros s; [now destruct s|].
  destruct s as [|d s]; [discriminate|]. cbn [String.prefix].
  destruct (Ascii.ascii_dec c d) as [->|]; [|discriminate].
  intros H. cbn [String.length Py.drop].
  change (String d p ++ Py.drop (String.length p) s)
    with (String d (p ++ Py.drop (String.length p) s)).
  f_equal. now apply IH.
Qed.

Lemma prefix_app p s : String.prefix p (p ++ s) = true.
Proof.
  induction p as [|c p IH]; [now destruct s|].
  change (String c p ++ s) with (String c (p ++ s)). cbn [String.prefix].
  destruct (Ascii.ascii_dec c c); [exact IH | congruence].
Qed.

Lemma drop_app p s : Py.drop (String.length p) (p ++ s) = s.
Proof. induction p as [|c p IH]; [now destruct s | exact IH]. Qed.

Lemma repo_prefix s : Py.startswith s "REPO_" = true -> "REPO_" ++ Py.drop 5 s = s.
Proof. intros H. symmetry. exact (prefix_drop "REPO_" s H). Qed.

Lemma repo_prefix_app n :
  Py.startswith ("REPO_" ++ n) "REPO_" = true /\ Py.drop 5 ("REPO_" ++ n) = n.
Proof. split; [exact (prefix_app "REPO_" n) | exact (drop_app "REPO_" n)]. Qed.

Lemma repository_of_In config n o :
  In (n, o) (omap repository_of config) <-> In ("REPO_" ++ n, o) config.
Proof.
  rewrite <- !list_elem_of_In, list_elem_of_omap. split.
  - intros ([s o'] & Hin & Hr). unfold repository_of in Hr. cbn [fst snd] in Hr.
    destruct (Py.startswith s "REPO_") eqn:Hp; [|discriminate].
    apply (inj Some), pair_equal_spec in Hr as [<- <-]. now rewrite (repo_prefix s Hp).
  - intros Hin. exists ("REPO_" ++ n, o). split; [assumption|].
    unfold repository_of. cbn [fst snd].
    destruct (repo_prefix_app n) as [-> ->]. reflexivity.
Qed.

Lemma repository_of_NoDup config :
  NoDup (config.*1) -> NoDup ((omap repository_of config).*1).
Proof.
  induction config as [|[s o] config IH]; intros Hnd; [constructor|].
  apply NoDup_cons in Hnd as [Hs Hnd]. cbn [omap list_omap].
  unfold repository_of at 1. cbn [fst snd].
  destruct (Py.startswith s "REPO_") eqn:Hp; [|now apply IH].
  cbn [fmap list_fmap fst]. apply NoDup_cons. split; [|now apply IH].
  intros Hin. apply list_elem_of_fmap in Hin as ([n o'] & Hn & Hin). cbn [fst] in Hn. subst n.
  apply list_elem_of_In, repository_of_In in Hin.
  rewrite (repo_prefix s Hp) in Hin. apply Hs.
  apply list_elem_of_fmap. exists (s, o'). split; [reflexivity | now apply list_elem_of_In].
Qed.

Lemma get_repositories_fold : forall config acc,
  NoDup (acc.*1 ++ (omap repository_of config).*1) ->
  List.fold_left
    (fun repositories '(section, options) =>
       if Py.startswith section "REPO_"
       then dict_set (Py.drop 5 section) options repositories
       else repositories)
    config acc
  = (acc ++ omap repository_of config)%list.
Proof.
  induction config as [|[s o] config IH]; intros acc Hnd; [now rewrite app_nil_r|].
  cbn [List.fold_left omap list_omap] in *.
  unfold repository_of at 1 in Hnd. unfold repository_of at 1.
  cbn [fst snd] in *.
  destruct (Py.startswith s "REPO_"); [|now apply IH].
  cbn [fmap list_fmap fst] in Hnd.
  rewrite dict_set_fresh.
  - rewrite IH; [now rewrite <- app_assoc|].
    rewrite fmap_app, <- app_assoc. exact Hnd.
  - apply NoDup_app in Hnd as (_ & Hnd & _). intros Hin. apply (Hnd _ Hin). left.
Qed.

Lemma repositories_sections config :
  NoDup (config.*1) ->
  _get_repositories config = omap repository_of config /\
  NoDup ((_get_repositories config).*1) /\
  (forall repo_name options,
      In (repo_name, options) (_get_repositories config) <->
      In ("REPO_" ++ repo_name, options) config).
Proof.
  intros Hnd.
  assert (Heq : _get_repositories config = omap repository_of config).
  { unfold _get_repositories. rewrite get_repositories_fold; [reflexivity|].
    now apply repository_of_NoDup. }
  rewrite Heq. repeat split.
  - now apply repository_of_NoDup.
  - apply repository_of_In.
  - apply repository_of_In.
Qed.

(** X19.  The repositories are the sections whose name starts with
    [REPO_], under that name without the prefix, with the options of
    the section and in the order of the sections; two repositories
    never share a name. *)
Theorem repositories_are_repo_sections config :
  NoDup (config.*1) ->
  _get_repositories config = omap repository_of config /\
  NoDup ((_get_repositories config).*1) /\
  (forall repo_name options,
      In (repo_name, options) (_get_repositories config) <->
      In ("REPO_" ++ repo_name, options) config).
Proof. apply repositories_sections. Qed.

(** X20.  The polling interval is the least of the configured
    intervals, a repository without one counting for 300 seconds; it
    cannot be computed (the call raises) exactly when there is no
    repository or some interval is not a number. *)
Theorem min_check_interval_is_least repositories :
  match min_check_interval repositories with
  | Return least =>
      (exists n c, In (n, c) repositories /\ check_interval c = Some least) /\
      (forall n c, In (n, c) repositories ->
                   exists i, check_interval c = Some i /\ least <= i)
  | Raise =>
      repositories = [] \/
      exists n c, In (n, c) repositories /\ check_interval c = None
  end.
Proof.
  induction repositories as [|[n c] rest IH]; [now left|].
  cbn [min_check_interval].
  destruct (check_interval c) as [first|] eqn:Hc.
  2:{ right. exists n, c. split; [now left | assumption]. }
  destruct rest as [|x rest'].
  - split.
    + exists n, c. split; [now left | assumption].
    + intros n' c' [[= <- <-]|[]]. exists first. split; [assumption | lia].
  - destruct (min_check_interval (x :: rest')) as [least|].
    + destruct IH as [(n0 & c0 & Hin0 & H0) Hall]. split.
      * destruct (Z.le_ge_cases first least) as [Hle|Hge].
        -- exists n, c. split; [now left|]. rewrite Hc. f_equal. lia.
        -- exists n0, c0. split; [now right|]. rewrite H0. f_equal. lia.
      * intros n' c' [[= <- <-]|Hin].
        -- exists first. split; [assumption | lia].
        -- destruct (Hall n' c' Hin) as (i & Hi & Hle). exists i. split; [assumption | lia].
    + right. destruct IH as [Hnil|(n0 & c0 & Hin0 & H0)]; [discriminate|].
      exists n0, c0. split; [now right | assumption].
Qed.

(** ** What every change record satisfies *)

Section RecordFacts.

Variable fromstring : string -> ET.Parse.
Context {datetime : Type}.
Variable fromisoformat : string -> option datetime.
Variable strftime : datetime -> string.
Variable get_beijing_time_str : nat -> string.
Variable get_beijing_time_iso : string.

Lemma entry_paths_named logentry :
  Forall (fun p => Py.truthy (Py.strip (path p)) = true) (entry_paths logentry).
Proof.
  unfold entry_paths. destruct (ET.find logentry "paths") as [paths_elem|]; [|constructor].
  induction (ET.findall paths_elem "path") as [|p ps IH]; [constructor|].
  cbn [omap list_omap].
  destruct (Py.truthy (Py.strip (default "" (ET.text p)))) eqn:Hp; [|exact IH].
  constructor; [exact Hp | exact IH].
Qed.

Lemma parse_entry_well_formed repo_name i logentry c :
  parse_entry fromisoformat strftime get_beijing_time_str repo_name i logentry = Some c ->
  well_formed_record repo_name c.
Proof.
  assert (Hmsg : forall rev,
             well_formed_record repo_name
               (mkChange rev
                  match ET.find logentry "author" with
                  | Some author_elem => ET.text author_elem
                  | None => Some "unknown"
                  end
                  (entry_date fromisoformat strftime get_beijing_time_str i logentry)
                  match ET.find logentry "msg" with
                  | Some msg_elem =>
                      match ET.text msg_elem with
                      | Some t => if Py.truthy t then Py.strip t else ""
                      | None => ""
                      end
                  | None => ""
                  end
                  (entry_paths logentry) repo_name)).
  { intros rev. unfold well_formed_record. cbn [repository changed_paths message].
    repeat split; [apply entry_paths_named|].
    destruct (ET.find logentry "msg") as [msg_elem|]; [|reflexivity].
    destruct (ET.text msg_elem) as [t|]; [|reflexivity].
    destruct (Py.truthy t); [apply strip_idempotent | reflexivity]. }
  unfold parse_entry. destruct (ET.get logentry "revision") as [r|].
  - destruct (Py.int r) as [rev|]; [|discriminate]. intros [= <-]. apply Hmsg.
  - intros [= <-]. apply Hmsg.
Qed.

Lemma parse_entries_well_formed repo_name logentries : forall i,
  Forall (well_formed_record repo_name)
         (parse_entries fromisoformat strftime get_beijing_time_str repo_name i logentries).
Proof.
  induction logentries as [|e es IH]; intros i; [constructor|]. cbn [parse_entries].
  destruct (parse_entry _ _ _ repo_name i e) as [c|] eqn:Hc; [|apply IH].
  constructor; [now apply (parse_entry_well_formed repo_name i e) | apply IH].
Qed.

Lemma parse_well_formed xml_log repo_name :
  Forall (well_formed_record repo_name)
         (_parse_svn_log fromstring fromisoformat strftime get_beijing_time_str
                         get_beijing_time_iso xml_log repo_name).
Proof.
  unfold _parse_svn_log. destruct (_ || _); [constructor|].
  destruct (recover_root fromstring (Py.strip xml_log)) as [root| |].
  - apply parse_entries_well_formed.
  - repeat constructor.
  - repeat constructor.
Qed.

(** X21.  Every record the parser returns, a failure record included,
    is tagged with the repository name it was given, lists no path
    that is empty or blank, and carries a message without surrounding
    blanks. *)
Theorem parsed_records_are_well_formed xml_log repo_name :
  Forall (well_formed_record repo_name)
         (_parse_svn_log fromstring fromisoformat strftime get_beijing_time_str
                         get_beijing_time_iso xml_log repo_name).
Proof. apply parse_well_formed. Qed.

(** X22.  All the records of one parse land in one group: grouping
    them gives no group when there is no record, and otherwise the
    single group of the repository, with the records in order. *)
Theorem parsed_records_form_one_group xml_log repo_name :
  group_by_repo (_parse_svn_log fromstring fromisoformat strftime get_beijing_time_str
                                get_beijing_time_iso xml_log repo_name)
  = match _parse_svn_log fromstring fromisoformat strftime get_beijing_time_str
                         get_beijing_time_iso xml_log repo_name with
    | [] => []
    | records => [(repo_name, records)]
    end.
Proof.
  pose proof (parse_well_formed xml_log repo_name) as Hwf.
  destruct (_parse_svn_log _ _ _ _ _ xml_log repo_name) as [|c cs]; [reflexivity|].
  apply Forall_cons in Hwf as [(Hc & _) Hcs]. unfold group_by_repo. cbn [List.fold_left add_change].
  rewrite Hc.
  assert (Hfold : forall rest done,
             Forall (well_formed_record repo_name) rest ->
             List.fold_left (fun acc change => add_change change acc) rest [(repo_name, done)]
             = [(repo_name, (done ++ rest)%list)]).
  { induction rest as [|x rest IH]; intros done Hrest; [now rewrite app_nil_r|].
    apply Forall_cons in Hrest as [(Hx & _) Hrest]. cbn [List.fold_left add_change].
    rewrite Hx, String.eqb_refl, (IH _ Hrest). now rewrite <- app_assoc. }
  exact (Hfold cs [c] Hcs).
Qed.

End RecordFacts.

(** ** The repository client *)

Section ClientFacts.

Variable fromstring : string -> ET.Parse.
Variable tostring : ET.Element -> string.
Context {datetime : Type}.
Variable fromisoformat : string -> option datetime.
Variable strftime : datetime -> string.
Variable get_beijing_time_str : nat -> string.
Variable get_beijing_time_iso : string.
Variable early_time_str : string.
Variable fallback_time_iso : string.
Variable use_remote_check : bool.
Variable _run_svn_command
  : list string -> gmap string string -> option string -> option string.
Variable _ensure_working_copy : gmap string string -> bool.

Abbreviation get_changes :=
  (RepositoryClient.get_changes fromstring tostring fromisoformat strftime
     get_beijing_time_str get_beijing_time_iso early_time_str fallback_time_iso
     use_remote_check _run_svn_command _ensure_working_copy).

Lemma fetch_nothing run repo_url : forall pgs,
  (forall cmd, default "" (run cmd) = "") ->
  List.flat_map (fun '(a, b) => fetch_page run repo_url a b) pgs = [].
Proof.
  intros pgs Hdown. induction pgs as [|[a b] pgs IH]; [reflexivity|].
  cbn [List.flat_map]. rewrite IH, app_nil_r. unfold fetch_page.
  pose proof (Hdown (log_range_cmd repo_url a b)) as H0.
  destruct (run (log_range_cmd repo_url a b)) as [out|]; [|reflexivity].
  cbn in H0. subst out. cbn [Py.truthy]. unfold fetch_singly.
  induction (Py.range a (b + 1)) as [|rev revs IHr]; [reflexivity|].
  cbn [omap list_omap]. rewrite IHr.
  pose proof (Hdown (log_single_cmd repo_url rev)) as H1.
  destruct (run (log_single_cmd repo_url rev)) as [out|]; [|reflexivity].
  cbn in H1. now subst out.
Qed.

(** X23.  In remote mode, when every query to the repository fails
    (it raises, or its failure is swallowed and comes back empty),
    [get_changes] returns no record at all for a configured URL: the
    caller sees an empty change list, not a placeholder. *)
Theorem unreachable_remote_yields_no_change from_revision to_revision repo_config :
  use_remote_check = true ->
  Py.truthy (repo_url_of repo_config) = true ->
  (forall cmd, default "" (_run_svn_command cmd repo_config None) = "") ->
  get_changes from_revision to_revision repo_config = Records [].
Proof.
  intros Hremote Hurl Hdown. unfold RepositoryClient.get_changes.
  rewrite Hremote, Hurl. cbn [negb].
  rewrite bool_decide_eq_false_2.
  2:{ intros ->. unfold repo_url_of, Py.get in Hurl. now rewrite !lookup_empty in Hurl. }
  unfold _get_paginated_svn_log. rewrite Hurl. cbn [negb].
  rewrite page_loop_pages by lia.
  rewrite (fetch_nothing _ _ _ Hdown). reflexivity.
Qed.

(** X24.  Whatever happens, every record [get_changes] returns for a
    configuration is tagged with the display name of the repository
    ([Unnamed Repository] when it has none, [Unknown Repository] for an
    empty configuration), lists no blank path and has a trimmed
    message. *)
Theorem fetched_changes_carry_display_name from_revision to_revision repo_config :
  Forall (well_formed_record
            (if bool_decide (repo_config = ∅) then "Unknown Repository"
             else Py.get repo_config "name" "Unnamed Repository"))
         (changes_of (get_changes from_revision to_revision repo_config)).
Proof.
  unfold RepositoryClient.get_changes.
  case_bool_decide as Hempty; [repeat constructor|].
  destruct use_remote_check.
  - destruct (negb _); [repeat constructor | apply parse_well_formed].
  - destruct (repo_config !! "local_working_copy") as [wc|]; [|repeat constructor].
    destruct (_ensure_working_copy repo_config); [|repeat constructor].
    destruct (_run_svn_command _ repo_config (Some wc)) as [output|];
      [apply parse_well_formed | repeat constructor].
Qed.

Lemma outage_cycle repositories deliver write_ok m :
  use_remote_check = true ->
  (forall n c, In (n, c) repositories -> Py.truthy (repo_url_of c) = true) ->
  (forall cmd c, _run_svn_command cmd c None = Some "") ->
  (forall r, 0 <= persisted m r) ->
  cycle repositories
        (RepositoryClient.env_of fromstring tostring fromisoformat strftime
           get_beijing_time_str get_beijing_time_iso early_time_str fallback_time_iso
           use_remote_check _run_svn_command _ensure_working_copy
           repositories deliver write_ok) m
  = (mkMonitor (_get_last_recorded_revisions repositories (stored m)) (stored m),
     mkReport [] [] [] None).
Proof.
  intros Hremote Hurl Hdown Hpos.
  assert (Hlatest : forall r, r ∈ repositories.*1 ->
             get_latest_revision
               (RepositoryClient.env_of fromstring tostring fromisoformat strftime
                  get_beijing_time_str get_beijing_time_iso early_time_str
                  fallback_time_iso use_remote_check _run_svn_command
                  _ensure_working_copy repositories deliver write_ok) r = Some 0).
  { intros r Hr. cbn [get_latest_revision RepositoryClient.env_of].
    unfold config_of. destruct (List.find _ repositories) as [[n c]|] eqn:Hf.
    - apply List.find_some in Hf as [Hin _]. cbn [fmap option_fmap option_map snd mbind option_bind].
      unfold RepositoryClient.get_latest_revision.
      now rewrite Hremote, (Hurl n c Hin), Hdown.
    - exfalso. apply list_elem_of_fmap in Hr as ([n c] & -> & Hin).
      apply list_elem_of_In in Hin. apply (List.find_none _ _ Hf) in Hin.
      cbn in Hin. now rewrite String.eqb_refl in Hin. }
  rewrite quiet_cycle.
  - do 2 f_equal. apply filter_none. intros r Hr. apply bool_decide_eq_false_2.
    rewrite Hlatest by now apply list_elem_of_In. discriminate.
  - intros r l Hr. rewrite (Hlatest r Hr). intros [= <-]. apply Hpos.
Qed.

Variable repo_name_mapping : gmap string string.
Variable config_EMAIL : option (gmap string string).
Variable smtp : nat -> Message -> Attempt.
Variable items_order : gmap string string -> list (string * string).
Variable check_time_str : string.

(** X25.  In remote mode a repository that cannot be reached is not an
    error: the query for its latest revision comes back empty and is
    read as revision 0.  So a pass during an outage, with watermarks
    that are not negative, collects no change, dispatches no change
    notification and writes nothing, and the status report it sends
    lists no error and shows every repository as normal. *)
Theorem remote_outage_goes_unreported repositories deliver write_ok m :
  use_remote_check = true ->
  (forall n c, In (n, c) repositories -> Py.truthy (repo_url_of c) = true) ->
  (forall cmd c, _run_svn_command cmd c None = Some "") ->
  (forall r, 0 <= persisted m r) ->
  (pass repositories repo_name_mapping config_EMAIL smtp items_order check_time_str
        (RepositoryClient.env_of fromstring tostring fromisoformat strftime
           get_beijing_time_str get_beijing_time_iso early_time_str fallback_time_iso
           use_remote_check _run_svn_command _ensure_working_copy
           repositories deliver write_ok) m).1
  = (mkMonitor (_get_last_recorded_revisions repositories (stored m)) (stored m),
     mkReport [] [] [] None) /\
  (exists k, (k <= 3)%nat /\
     connections
       (pass repositories repo_name_mapping config_EMAIL smtp items_order check_time_str
             (RepositoryClient.env_of fromstring tostring fromisoformat strftime
           get_beijing_time_str get_beijing_time_iso early_time_str fallback_time_iso
           use_remote_check _run_svn_command _ensure_working_copy
           repositories deliver write_ok) m).2.1.2 = List.seq 0 k) /\
  (forall report,
      (pass repositories repo_name_mapping config_EMAIL smtp items_order check_time_str
            (RepositoryClient.env_of fromstring tostring fromisoformat strftime
           get_beijing_time_str get_beijing_time_iso early_time_str fallback_time_iso
           use_remote_check _run_svn_command _ensure_working_copy
           repositories deliver write_ok) m).2.2 = Some report ->
      status_counts report = (length repositories, length repositories, 0%nat, 0%nat) /\
      status_errors report = [] /\
      List.map (fun row => row.2) (status_rows report)
      = List.map (fun _ => "正常") (repositories.*1)).
Proof.
  intros Hremote Hurl Hdown Hpos. unfold pass.
  rewrite (outage_cycle repositories deliver write_ok m Hremote Hurl Hdown Hpos).
  cbn [fst snd].
  destruct (status_mail_bounds repo_name_mapping config_EMAIL smtp items_order
              (check_result_of repositories check_time_str (mkReport [] [] [] None)))
    as (Hconn & _ & Hreport).
  split; [reflexivity|]. split; [exact Hconn|].
  intros report Hr. destruct (Hreport report Hr) as (Hcounts & Herrors & Hrows).
  cbn [check_result_of total_repos repos_checked repos_with_changes total_changes
       check_errors all_changes changes_to_update errors length] in *.
  rewrite length_fmap in Hcounts. auto.
Qed.

End ClientFacts.

(** ** Validation of the configuration *)

Lemma config_of_dict_set_eq {V} k (v : V) d :
  snd <$> List.find (fun '(name, _) => String.eqb name k) (dict_set k v d) = Some v.
Proof.
  induction d as [|[k' v'] d IH]; cbn [dict_set List.find].
  - now rewrite String.eqb_refl.
  - destruct (String.eqb k' k) eqn:Hk; cbn [List.find].
    + now rewrite String.eqb_refl.
    + now rewrite Hk.
Qed.

Lemma config_of_dict_set_ne {V} k k' (v : V) d :
  k' <> k ->
  snd <$> List.find (fun '(name, _) => String.eqb name k') (dict_set k v d)
  = snd <$> List.find (fun '(name, _) => String.eqb name k') d.
Proof.
  intros Hne. induction d as [|[k0 v0] d IH]; cbn [dict_set List.find].
  - destruct (String.eqb_spec k k'); [congruence | reflexivity].
  - destruct (String.eqb_spec k0 k) as [->|Hk]; cbn [List.find].
    + destruct (String.eqb_spec k k'); [congruence | reflexivity].
    + destruct (String.eqb k0 k'); [reflexivity | exact IH].
Qed.

Lemma dict_set_names {V} k (v : V) d :
  (dict_set k v d).*1
  = if bool_decide (k ∈ d.*1) then d.*1 else (d.*1 ++ [k])%list.
Proof.
  induction d as [|[k' v'] d IH]; [reflexivity|]. cbn [dict_set].
  destruct (String.eqb_spec k' k) as [->|Hne].
  - cbn. rewrite bool_decide_eq_true_2 by left. reflexivity.
  - cbn [fmap list_fmap fst]. change (list_fmap _ _ fst) with (fmap (M:=list) (@fst string V)).
    rewrite IH. cbn.
    destruct (decide (k ∈ d.*1)) as [Hin|Hnin].
    + rewrite !bool_decide_eq_true_2; [reflexivity | now right | assumption].
    + rewrite !bool_decide_eq_false_2; [reflexivity | | assumption].
      intros Hin. apply elem_of_cons in Hin as [Heq|Hin];
        [exact (Hne (eq_sym Heq)) | contradiction].
Qed.

Lemma dict_set_NoDup {V} k (v : V) d : NoDup (d.*1) -> NoDup ((dict_set k v d).*1).
Proof.
  intros Hnd. rewrite dict_set_names. case_bool_decide as Hin; [assumption|].
  apply NoDup_app. repeat split; [assumption | | apply NoDup_singleton].
  intros x Hx Hx'. apply list_elem_of_singleton in Hx'. now subst.
Qed.

Lemma config_of_is_Some (config : list (string * gmap string string)) s :
  is_Some (config_of config s) <-> s ∈ config.*1.
Proof.
  unfold config_of. induction config as [|[k o] config IH]; cbn [List.find].
  - split; [intros [x Hx]; discriminate | intros H; inversion H].
  - destruct (String.eqb_spec k s) as [->|Hne].
    + split; [intros _; left | intros _; now eexists].
    + rewrite IH. cbn. split; [now right|].
      intros H. apply elem_of_cons in H as [Heq|H]; [congruence | assumption].
Qed.

Lemma config_of_Some_In (config : list (string * gmap string string)) s o :
  config_of config s = Some o -> In (s, o) config.
Proof.
  unfold config_of. destruct (List.find _ config) as [[k o']|] eqn:Hf; [|discriminate].
  intros [= <-]. apply List.find_some in Hf as [Hin Hk].
  apply String.eqb_eq in Hk as <-. exact Hin.
Qed.

Lemma extends_refl config : extends config config.
Proof. intros s o H. now exists o. Qed.

Lemma extends_trans c1 c2 c3 : extends c1 c2 -> extends c2 c3 -> extends c1 c3.
Proof.
  intros H12 H23 s o H. destruct (H12 s o H) as (o2 & H2 & Hsub).
  destruct (H23 s o2 H2) as (o3 & H3 & Hsub'). exists o3. split; [assumption|].
  now transitivity o2.
Qed.

Section ValidationFacts.

Variable cwd_working_copy : string.
Variable default_working_copy : string -> string.

Lemma ensure_section_spec config s :
  extends config (ensure_section config s) /\
  is_Some (config_of (ensure_section config s) s) /\
  (NoDup (config.*1) -> NoDup ((ensure_section config s).*1)).
Proof.
  unfold ensure_section. destruct (config_of config s) as [o|] eqn:Hs.
  - repeat split; [apply extends_refl | now rewrite Hs | auto].
  - repeat split.
    + intros s' o' H'. exists o'. split; [|reflexivity].
      unfold config_of in *. rewrite config_of_dict_set_ne; [assumption|].
      intros ->. congruence.
    + unfold config_of. rewrite config_of_dict_set_eq. now eexists.
    + apply dict_set_NoDup.
Qed.

Lemma set_option_spec config s k v o :
  config_of config s = Some o -> o !! k = None ->
  extends config (set_option s k v config) /\
  config_of (set_option s k v config) s = Some (<[k := v]> o) /\
  (set_option s k v config).*1 = config.*1.
Proof.
  intros Hs Hk. unfold set_option. rewrite Hs. repeat split.
  - intros s' o' H'. destruct (decide (s' = s)) as [->|Hne].
    + exists (<[k := v]> o). unfold config_of in *. rewrite config_of_dict_set_eq.
      split; [reflexivity|]. rewrite Hs in H'. injection H' as <-.
      now apply insert_subseteq.
    + exists o'. split; [|reflexivity]. unfold config_of in *.
      now rewrite config_of_dict_set_ne.
  - unfold config_of. apply config_of_dict_set_eq.
  - rewrite dict_set_names, bool_decide_eq_true_2; [reflexivity|].
    apply config_of_is_Some. now rewrite Hs.
Qed.

Lemma set_option_other config s s' k v :
  s' <> s -> config_of (set_option s k v config) s' = config_of config s'.
Proof.
  intros Hne. unfold set_option. destruct (config_of config s) as [o|]; [|reflexivity].
  unfold config_of. now apply config_of_dict_set_ne.
Qed.

Lemma set_missing_spec config s k v :
  is_Some (config_of config s) ->
  extends config (set_missing s k v config) /\
  (exists o, config_of (set_missing s k v config) s = Some o /\ is_Some (o !! k)) /\
  (forall x, config_of config s ≫= (.!! k) = None ->
             config_of (set_missing s k v config) s ≫= (.!! k) = Some x -> x = v) /\
  (set_missing s k v config).*1 = config.*1.
Proof.
  intros [o Hs]. unfold set_missing. rewrite Hs.
  destruct (o !! k) as [v0|] eqn:Hk.
  - rewrite bool_decide_eq_true_2 by (eexists; reflexivity). repeat split.
    + apply extends_refl.
    + exists o. split; [assumption | exists v0; exact Hk].
    + intros x. rewrite Hs. cbn. rewrite Hk. discriminate.
  - rewrite bool_decide_eq_false_2 by (intros [x Hx]; congruence).
    destruct (set_option_spec config s k v o Hs Hk) as (Hext & Hnew & Hnames).
    repeat split; [assumption | | | assumption].
    + exists (<[k := v]> o). split; [assumption|]. rewrite lookup_insert_eq. eexists; reflexivity.
    + intros x _. rewrite Hnew. cbn. rewrite lookup_insert_eq. congruence.
Qed.

Lemma NoDup_names_eq (c c' : list (string * gmap string string)) :
  c'.*1 = c.*1 -> NoDup (c.*1) -> NoDup (c'.*1).
Proof. now intros ->. Qed.

(** The repositories of a configuration without duplicate sections. *)
Lemma get_repositories_lookup config n o :
  NoDup (config.*1) ->
  In (n, o) (_get_repositories config) <-> config_of config ("REPO_" ++ n) = Some o.
Proof.
  intros Hnd. destruct (repositories_sections config Hnd) as (_ & _ & Hiff).
  rewrite Hiff. split; [now apply config_of_In | apply config_of_Some_In].
Qed.

(** The loop over the repositories (lines 2260-2271). *)
Lemma working_copies_added : forall repositories config,
  NoDup (repositories.*1) ->
  (forall n o2, In (n, o2) repositories -> config_of config ("REPO_" ++ n) = Some o2) ->
  let config' :=
    List.fold_left
      (fun config '(repo_name, repo_config) =>
         if bool_decide (is_Some (repo_config !! "local_working_copy")) then config
         else set_option ("REPO_" ++ repo_name) "local_working_copy"
                         (default_working_copy repo_name) config)
      repositories config in
  extends config config' /\ config'.*1 = config.*1 /\
  (forall n o2, In (n, o2) repositories ->
                exists o', config_of config' ("REPO_" ++ n) = Some o' /\
                           is_Some (o' !! "local_working_copy")).
Proof.
  induction repositories as [|[n o2] rest IH]; intros config Hnd Hlive.
  - cbn. repeat split; [apply extends_refl | intros n o2 []].
  - cbn [List.fold_left]. apply NoDup_cons in Hnd as [Hn Hnd].
    set (step := if bool_decide (is_Some (o2 !! "local_working_copy")) then config
                 else set_option ("REPO_" ++ n) "local_working_copy"
                                 (default_working_copy n) config).
    pose proof (Hlive n o2 (or_introl eq_refl)) as Hs.
    assert (Hstep : extends config step /\ step.*1 = config.*1 /\
                    (exists o', config_of step ("REPO_" ++ n) = Some o' /\
                                is_Some (o' !! "local_working_copy")) /\
                    (forall s', s' <> "REPO_" ++ n -> config_of step s' = config_of config s')).
    { subst step. case_bool_decide as Hhas.
      - repeat split; [apply extends_refl|]. now exists o2.
      - assert (Hw : o2 !! "local_working_copy" = None).
        { destruct (o2 !! "local_working_copy") eqn:Hw; [|reflexivity].
          exfalso. apply Hhas. eexists; reflexivity. }
        destruct (set_option_spec config ("REPO_" ++ n) "local_working_copy"
                    (default_working_copy n) o2 Hs Hw) as (Hext & Hnew & Hnames).
        repeat split; [assumption | assumption | |].
        + eexists. split; [exact Hnew|]. rewrite lookup_insert_eq. eexists; reflexivity.
        + intros s' Hne. now apply set_option_other. }
    destruct Hstep as (Hext & Hnames & (o1 & Ho1 & Hhas1) & Hother).
    destruct (IH step) as (Hext' & Hnames' & Hall); [assumption | |].
    { intros n' o' Hin. rewrite Hother; [apply Hlive; now right|].
      intros Heq. apply Hn. apply (f_equal (Py.drop 5)) in Heq.
      rewrite !(proj2 (repo_prefix_app _)) in Heq. subst n'.
      apply list_elem_of_fmap. exists (n, o'). split; [reflexivity | now apply list_elem_of_In]. }
    repeat split.
    + now apply (extends_trans _ step).
    + now rewrite Hnames'.
    + intros n' o' [[= -> ->]|Hin]; [|now apply (Hall n' o')].
      destruct (Hext' _ _ Ho1) as (o3 & Ho3 & Hsub). exists o3. split; [assumption|].
      destruct Hhas1 as [w Hw]. exists w. now apply (lookup_weaken o1).
Qed.

Lemma ensure_section_option config s s' k :
  config_of (ensure_section config s) s' ≫= (.!! k) = config_of config s' ≫= (.!! k).
Proof.
  unfold ensure_section. destruct (config_of config s) as [o|] eqn:Hs; [reflexivity|].
  destruct (decide (s' = s)) as [->|Hne].
  - unfold config_of in *. rewrite config_of_dict_set_eq, Hs. cbn. apply lookup_empty.
  - unfold config_of. now rewrite config_of_dict_set_ne.
Qed.

Lemma set_missing_option config s s' k k' v :
  k' <> k ->
  config_of (set_missing s k v config) s' ≫= (.!! k') = config_of config s' ≫= (.!! k').
Proof.
  intros Hk. unfold set_missing. destruct (config_of config s) as [o|] eqn:Hs; [|reflexivity].
  case_bool_decide; [reflexivity|]. unfold set_option. rewrite Hs.
  destruct (decide (s' = s)) as [->|Hne].
  - unfold config_of in *. rewrite config_of_dict_set_eq, Hs. cbn.
    now apply lookup_insert_ne.
  - unfold config_of. now rewrite config_of_dict_set_ne.
Qed.

Lemma extends_section c c' s :
  extends c c' -> is_Some (config_of c s) -> is_Some (config_of c' s).
Proof. intros Hext [o Ho]. destruct (Hext s o Ho) as (o' & Ho' & _). now exists o'. Qed.

Lemma extends_option c c' s k :
  extends c c' ->
  (exists o, config_of c s = Some o /\ is_Some (o !! k)) ->
  exists o, config_of c' s = Some o /\ is_Some (o !! k).
Proof.
  intros Hext (o & Ho & [v Hv]). destruct (Hext s o Ho) as (o' & Ho' & Hsub).
  exists o'. split; [assumption|]. exists v. now apply (lookup_weaken o).
Qed.

(** The configuration after lines 2235-2249. *)
Lemma globals_ensured config :
  NoDup (config.*1) ->
  let c3 := set_missing "SYSTEM" "use_remote_check" "True"
              (set_missing "SYSTEM" "auto_startup" "True"
                 (List.fold_left ensure_section ["EMAIL"; "LOGGING"; "SYSTEM"] config)) in
  NoDup (c3.*1) /\ extends config c3 /\
  (forall section, In section ["EMAIL"; "LOGGING"; "SYSTEM"] -> is_Some (config_of c3 section)) /\
  (exists system, config_of c3 "SYSTEM" = Some system /\
                  is_Some (system !! "auto_startup") /\
                  is_Some (system !! "use_remote_check")) /\
  (config_of config "SYSTEM" ≫= (.!! "use_remote_check") = None ->
   config_of c3 "SYSTEM" ≫= (.!! "use_remote_check") = Some "True").
Proof.
  intros Hnd. cbn [List.fold_left].
  destruct (ensure_section_spec config "EMAIL") as (He1 & Hs1 & Hn1).
  set (c01 := ensure_section config "EMAIL") in *.
  destruct (ensure_section_spec c01 "LOGGING") as (He2 & Hs2 & Hn2).
  set (c02 := ensure_section c01 "LOGGING") in *.
  destruct (ensure_section_spec c02 "SYSTEM") as (He3 & Hs3 & Hn3).
  set (c1 := ensure_section c02 "SYSTEM") in *.
  destruct (set_missing_spec c1 "SYSTEM" "auto_startup" "True" Hs3)
    as (He4 & Hauto & _ & Hnames4).
  set (c2 := set_missing "SYSTEM" "auto_startup" "True" c1) in *.
  assert (Hs4 : is_Some (config_of c2 "SYSTEM")) by now apply (extends_section c1).
  destruct (set_missing_spec c2 "SYSTEM" "use_remote_check" "True" Hs4)
    as (He5 & Hremote & Hfresh & Hnames5).
  set (c3 := set_missing "SYSTEM" "use_remote_check" "True" c2) in *.
  assert (Hext13 : extends c1 c3) by now apply (extends_trans _ c2).
  assert (Hext03 : extends config c3).
  { apply (extends_trans _ c01); [assumption|]. apply (extends_trans _ c02); [assumption|].
    now apply (extends_trans _ c1). }
  repeat split.
  - rewrite Hnames5, Hnames4. auto.
  - exact Hext03.
  - intros section [<-|[<-|[<-|[]]]].
    + apply (extends_section c01); [|assumption].
      apply (extends_trans _ c02); [assumption|]. now apply (extends_trans _ c1).
    + apply (extends_section c02); [|assumption]. now apply (extends_trans _ c1).
    + now apply (extends_section c1).
  - destruct (extends_option c2 c3 "SYSTEM" "auto_startup" He5 Hauto) as (o & Ho & Ha).
    destruct Hremote as (o' & Ho' & Hr). exists o. split; [assumption|]. split; [assumption|].
    rewrite Ho in Ho'. now injection Ho' as <-.
  - intros Hnone.
    assert (Hnone2 : config_of c2 "SYSTEM" ≫= (.!! "use_remote_check") = None).
    { subst c2 c1 c02 c01.
      rewrite set_missing_option by discriminate. now rewrite !ensure_section_option. }
    destruct Hremote as (o' & Ho' & [x Hx]).
    rewrite Ho'. cbn. rewrite Hx. f_equal. apply Hfresh; [assumption|].
    rewrite Ho'. cbn. exact Hx.
Qed.

Lemma validated config :
  NoDup (config.*1) ->
  let config' := (_validate_config cwd_working_copy default_working_copy config).1 in
  NoDup (config'.*1) /\
  (forall section, In section ["EMAIL"; "LOGGING"; "SYSTEM"] ->
                   is_Some (config_of config' section)) /\
  (exists system, config_of config' "SYSTEM" = Some system /\
                  is_Some (system !! "auto_startup") /\
                  is_Some (system !! "use_remote_check")) /\
  _get_repositories config' <> [] /\
  (forall repo_name repo_config,
      In (repo_name, repo_config) (_get_repositories config') ->
      is_Some (repo_config !! "local_working_copy")) /\
  extends config config' /\
  extends (set_missing "SYSTEM" "use_remote_check" "True"
             (set_missing "SYSTEM" "auto_startup" "True"
                (List.fold_left ensure_section ["EMAIL"; "LOGGING"; "SYSTEM"] config)))
          config'.
Proof.
  intros Hnd. unfold _validate_config.
  destruct (globals_ensured config Hnd) as (Hnd3 & Hext & Hsections & Hsystem & _).
  set (c3 := set_missing "SYSTEM" "use_remote_check" "True" _) in *.
  assert (Hfinish : forall config',
             NoDup (config'.*1) -> extends c3 config' ->
             _get_repositories config' <> [] ->
             (forall n o, In (n, o) (_get_repositories config') ->
                          is_Some (o !! "local_working_copy")) ->
             NoDup (config'.*1) /\
             (forall section, In section ["EMAIL"; "LOGGING"; "SYSTEM"] ->
                              is_Some (config_of config' section)) /\
             (exists system, config_of config' "SYSTEM" = Some system /\
                             is_Some (system !! "auto_startup") /\
                             is_Some (system !! "use_remote_check")) /\
             _get_repositories config' <> [] /\
             (forall n o, In (n, o) (_get_repositories config') ->
                          is_Some (o !! "local_working_copy")) /\
             extends config config' /\ extends c3 config').
  { intros config' Hnd' Hext' Hrepos Hwc. repeat split; try assumption.
    - intros section Hin. apply (extends_section c3); [assumption | now apply Hsections].
    - destruct Hsystem as (system & Hs & [a Ha] & [u Hu]).
      destruct (Hext' _ _ Hs) as (system' & Hs' & Hsub). exists system'.
      split; [assumption|]. split; [exists a | exists u]; now apply (lookup_weaken system).
    - now apply (extends_trans _ c3). }
  destruct (_get_repositories c3) as [|[n0 o0] repos] eqn:Hrepos.
  - cbn [fst].
    assert (Hfresh : config_of c3 "REPO_1" = None).
    { destruct (config_of c3 "REPO_1") as [o|] eqn:Ho; [|reflexivity].
      apply (get_repositories_lookup c3 "1" o Hnd3) in Ho. rewrite Hrepos in Ho. destruct Ho. }
    assert (Hnew : config_of (dict_set "REPO_1" (default_repository cwd_working_copy) c3)
                             "REPO_1" = Some (default_repository cwd_working_copy)).
    { unfold config_of. apply config_of_dict_set_eq. }
    apply Hfinish.
    + now apply dict_set_NoDup.
    + intros s o Ho. exists o. split; [|reflexivity]. unfold config_of in *.
      rewrite config_of_dict_set_ne; [assumption|]. intros ->. congruence.
    + intros Hempty.
      apply (get_repositories_lookup _ "1" _ (dict_set_NoDup _ _ _ Hnd3)) in Hnew.
      rewrite Hempty in Hnew. destruct Hnew.
    + intros n o Hin.
      apply (get_repositories_lookup _ n o (dict_set_NoDup _ _ _ Hnd3)) in Hin.
      destruct (decide ("REPO_" ++ n = "REPO_1")) as [Heq|Hne].
      * rewrite Heq, Hnew in Hin. injection Hin as <-.
        exists cwd_working_copy. unfold default_repository. cbn [list_to_map foldr].
        now repeat (rewrite lookup_insert_ne by discriminate); rewrite lookup_insert_eq.
      * unfold config_of in Hin. rewrite config_of_dict_set_ne in Hin by assumption.
        apply (get_repositories_lookup c3 n o Hnd3) in Hin. rewrite Hrepos in Hin. destruct Hin.
  - rewrite <- Hrepos. cbn [fst].
    destruct (repositories_sections c3 Hnd3) as (_ & Hnames & _).
    destruct (working_copies_added (_get_repositories c3) c3 Hnames) as (Hext' & Hsame & Hall).
    { intros n o2 Hin. now apply get_repositories_lookup. }
    cbv zeta in Hext', Hsame, Hall.
    set (config' := List.fold_left _ (_get_repositories c3) c3) in *.
    assert (Hnd' : NoDup (config'.*1)) by now rewrite Hsame.
    apply Hfinish; try assumption.
    + intros Hempty. destruct (Hall n0 o0) as (o' & Ho' & _); [rewrite Hrepos; now left|].
      apply (get_repositories_lookup config' n0 o' Hnd') in Ho'.
      rewrite Hempty in Ho'. destruct Ho'.
    + intros n o Hin. apply (get_repositories_lookup config' n o Hnd') in Hin.
      assert (Hsec : is_Some (config_of c3 ("REPO_" ++ n))).
      { apply config_of_is_Some. rewrite <- Hsame. apply config_of_is_Some. now exists o. }
      destruct Hsec as [o2 Ho2].
      destruct (Hall n o2) as (o' & Ho' & Hhas); [now apply get_repositories_lookup|].
      rewrite Hin in Ho'. now injection Ho' as <-.
Qed.

(** X26.  After validation the three global sections exist, [SYSTEM]
    says whether to start automatically and which detection mode to
    use, there is at least one repository and every repository has a
    working copy path; no section name is duplicated, and no section
    and no option that was there is removed or changed. *)
Theorem validated_config_is_complete config :
  NoDup (config.*1) ->
  let config' := (_validate_config cwd_working_copy default_working_copy config).1 in
  NoDup (config'.*1) /\
  (forall section, In section ["EMAIL"; "LOGGING"; "SYSTEM"] ->
                   is_Some (config_of config' section)) /\
  (exists system, config_of config' "SYSTEM" = Some system /\
                  is_Some (system !! "auto_startup") /\
                  is_Some (system !! "use_remote_check")) /\
  _get_repositories config' <> [] /\
  (forall repo_name repo_config,
      In (repo_name, repo_config) (_get_repositories config') ->
      is_Some (repo_config !! "local_working_copy")) /\
  extends config config'.
Proof.
  intros Hnd. destruct (validated config Hnd) as (H1 & H2 & H3 & H4 & H5 & H6 & _).
  repeat split; assumption.
Qed.

(** X27.  A configuration that does not say which detection mode to
    use runs in remote mode: the validator writes [True] before the
    setting is read, so the [False] that [_get_remote_check_setting]
    falls back to is what an unvalidated configuration gives, never
    what the monitor uses. *)
Theorem detection_mode_defaults_to_remote config :
  NoDup (config.*1) ->
  config_of config "SYSTEM" ≫= (.!! "use_remote_check") = None ->
  _get_remote_check_setting (config_of config "SYSTEM") = false /\
  _get_remote_check_setting
    (config_of (_validate_config cwd_working_copy default_working_copy config).1 "SYSTEM")
  = true.
Proof.
  intros Hnd Hnone. split.
  - unfold _get_remote_check_setting. destruct (config_of config "SYSTEM") as [system|];
      [|reflexivity]. cbn in Hnone. now rewrite Hnone.
  - destruct (validated config Hnd) as (_ & _ & _ & _ & _ & _ & Hext).
    destruct (globals_ensured config Hnd) as (_ & _ & _ & _ & Hset).
    specialize (Hset Hnone). cbv zeta in Hset, Hext.
    set (c3 := set_missing "SYSTEM" "use_remote_check" "True" _) in *.
    destruct (config_of c3 "SYSTEM") as [system|] eqn:Hs; [|discriminate].
    cbn in Hset. destruct (Hext _ _ Hs) as (system' & Hs' & Hsub).
    rewrite Hs'. unfold _get_remote_check_setting.
    rewrite (lookup_weaken _ _ _ _ Hset Hsub). reflexivity.
Qed.

End ValidationFacts.

(** ** What a reported delivery means *)

Section DeliveryFacts.

Variable recipients_mapping : gmap string (list string).
Variable repo_name_mapping : gmap string string.
Variable config_EMAIL : option (gmap string string).
Variable set_order : gset string -> list string.
Variable smtp : nat -> Message -> Attempt.

(** X29.  [send_email_notification] opens at most three connections,
    and none unless the change list is not empty, the mail section has
    a server, a sender and default recipients, and the credential pair
    is usable; it reports a delivery only when, in addition, one of the
    attempts numbered 0 to 2 at handing the transport the message for
    the collected recipients was accepted. *)
Theorem delivery_requires_accepted_attempt changes :
  (length (connections
             (snd (send_email_notification recipients_mapping repo_name_mapping
                     config_EMAIL set_order smtp changes))) <= 3)%nat /\
  (connections (snd (send_email_notification recipients_mapping repo_name_mapping
                       config_EMAIL set_order smtp changes)) <> [] ->
   changes <> [] /\
   exists email,
     config_EMAIL = Some email /\
     is_Some (email !! "smtp_server") /\ is_Some (email !! "from_email") /\
     is_Some (email !! "to_emails") /\ credentials_configured email = true) /\
  (fst (send_email_notification recipients_mapping repo_name_mapping
          config_EMAIL set_order smtp changes) = true ->
   exists email all_recipients n,
     config_EMAIL = Some email /\
     collect_recipients recipients_mapping repo_name_mapping config_EMAIL set_order
                        email (group_by_repo changes) = Return all_recipients /\
     (n <= 2)%nat /\
     attempt_result (use_ssl_of email) (credentials_configured email)
                    (smtp n (mkMessage (Py.get email "from_email" "")
                                       (joined (set_order all_recipients))
                                       (group_by_repo changes))) = Sent).
Proof.
  unfold send_email_notification.
  destruct changes as [|c cs]; [cbn; conjuncts; [lia | congruence | discriminate]|].
  set (changes := c :: cs).
  destruct config_EMAIL as [email|] eqn:Hemail;
    [|cbn; conjuncts; [lia | congruence | discriminate]].
  destruct (bool_decide (is_Some (email !! "smtp_server"))) eqn:H1;
    [|cbn; conjuncts; [lia | congruence | discriminate]].
  destruct (bool_decide (is_Some (email !! "from_email"))) eqn:H2;
    [|cbn; conjuncts; [lia | congruence | discriminate]].
  destruct (bool_decide (is_Some (email !! "to_emails"))) eqn:H3;
    [|cbn; conjuncts; [lia | congruence | discriminate]].
  cbn [andb negb].
  destruct (credentials_configured email) eqn:Hcred;
    [|cbn; conjuncts; [lia | congruence | discriminate]].
  cbn [negb].
  apply bool_decide_eq_true_1 in H1, H2, H3.
  destruct (collect_recipients _ _ _ _ email (group_by_repo changes)) as [all_recipients|]
    eqn:Hcollect; [|cbn; conjuncts; [lia | congruence | discriminate]].
  set (msg := mkMessage _ _ _).
  assert (Hconfigured : c :: cs <> [] /\
            exists email0, Some email = Some email0 /\
              is_Some (email0 !! "smtp_server") /\ is_Some (email0 !! "from_email") /\
              is_Some (email0 !! "to_emails") /\ credentials_configured email0 = true).
  { split; [discriminate|]. exists email. repeat split; assumption. }
  unfold _send_email. rewrite Hcred.
  destruct (email !! "smtp_server") as [server|];
    [|cbn; conjuncts; [lia | congruence | discriminate]].
  destruct (Py.int (Py.get email "smtp_port" "465"));
    [|cbn; conjuncts; [lia | congruence | discriminate]].
  destruct (send_loop_bounded smtp (use_ssl_of email) true msg (S max_retries) 0 [])
    as (ok & k & ev' & Heq & Hconn & Hk & _ & _ & _ & Hok);
    [unfold max_retries; lia | lia |].
  rewrite Heq. cbn [fst snd app connections omap list_omap].
  fold (connections ev'). rewrite Hconn, length_seq. unfold max_retries in Hk.
  conjuncts; [lia | intros _; exact Hconfigured |].
  intros ->. destruct (Hok eq_refl) as [Hk1 Hsent].
  exists email, all_recipients, (k - 1)%nat.
  conjuncts; [reflexivity | exact Hcollect | lia | rewrite Hcred; exact Hsent].
Qed.

End DeliveryFacts.

(** ** A lock that clears *)

Section LockFacts.

Variable subprocess_run : nat -> list string -> Proc.
Variable path_exists : string -> bool.
Variable _remove_svn_locks_manually : nat -> string -> bool.
Variable svn_config : option (gmap string string).

Lemma retried_until_unlocked :
  forall k depth (command : list string) repo_config (is_retry : bool) (sh : Shell) out,
  (k < depth)%nat ->
  (forall i, (i < k)%nat ->
     exists err,
       subprocess_run (length (invoked sh) + i)%nat
                      (if is_retry then command
                       else add_credentials svn_config repo_config command)
       = CalledProcessError err /\
       Py.contains "locked" (Py.lower err) || Py.contains "cleanup" (Py.lower err) = true) ->
  subprocess_run (length (invoked sh) + k)%nat
                 (if is_retry then command
                  else add_credentials svn_config repo_config command)
  = Completed out ->
  _run_svn_command subprocess_run path_exists _remove_svn_locks_manually svn_config
                   depth command repo_config None is_retry sh
  = (Return (Py.strip out),
     mkShell (invoked sh ++
              repeat (if is_retry then command
                      else add_credentials svn_config repo_config command) (S k))%list).
Proof.
  induction k as [|k IH]; intros depth command repo_config is_retry sh out Hdepth Hlocked Hdone;
    (destruct depth as [|depth]; [lia|]); cbn [_run_svn_command]; unfold exec;
    set (line := if is_retry then command
                 else add_credentials svn_config repo_config command) in *.
  - rewrite Nat.add_0_r in Hdone. now rewrite Hdone.
  - destruct (Hlocked 0%nat ltac:(lia)) as (err & Hfirst & Hlock).
    rewrite Nat.add_0_r in Hfirst. rewrite Hfirst, Hlock. cbn [_try_svn_cleanup].
    rewrite (IH depth line repo_config true _ out); cbn [invoked].
    + now rewrite <- app_assoc.
    + lia.
    + intros i Hi. destruct (Hlocked (S i) ltac:(lia)) as (err' & Herr & Hl).
      exists err'. split; [|exact Hl]. rewrite <- Herr. f_equal.
      rewrite length_app. cbn. lia.
    + rewrite <- Hdone. f_equal. rewrite length_app. cbn. lia.
Qed.

(** X30.  Without a working directory, as in remote mode, a command
    whose first [k] runs fail on a lock and whose next run completes is
    run [k + 1] times in all, always with the same arguments, and
    returns the trimmed output of the run that completed: nothing else
    is started, and the number of retries has no bound of its own but
    the depth of recursion available. *)
Theorem remote_command_is_retried_until_unlocked
        k depth command repo_config (sh : Shell) out :
  (k < depth)%nat ->
  (forall i, (i < k)%nat ->
     exists err,
       subprocess_run (length (invoked sh) + i)%nat
                      (add_credentials svn_config repo_config command)
       = CalledProcessError err /\
       Py.contains "locked" (Py.lower err) || Py.contains "cleanup" (Py.lower err) = true) ->
  subprocess_run (length (invoked sh) + k)%nat (add_credentials svn_config repo_config command)
  = Completed out ->
  _run_svn_command subprocess_run path_exists _remove_svn_locks_manually svn_config
                   depth command repo_config None false sh
  = (Return (Py.strip out),
     mkShell (invoked sh ++
              repeat (add_credentials svn_config repo_config command) (S k))%list).
Proof. apply (retried_until_unlocked k depth command repo_config false). Qed.

End LockFacts.

(** ** The properties at sample inputs *)

Lemma credentials_masked_at_info_shown_at_error_witness :
  credentials None (Some Samples.repo_with_login) = Some ("alice", "s3cret") /\
  exists flags,
    Forall (fun f => In f public_flags) flags /\
    command_records true (add_credentials None (Some Samples.repo_with_login) ["svn"; "info"])
                    (CalledProcessError "svn: E170013: Unable to connect to a repository")
    = [Masked "INFO" (Py.join " " (["svn"; "info"] ++ ["--username"; "***"; "--password"; "***"]
                                     ++ flags));
       Verbatim "ERROR" (add_credentials None (Some Samples.repo_with_login) ["svn"; "info"])] /\
    In "s3cret" (add_credentials None (Some Samples.repo_with_login) ["svn"; "info"]).
Proof.
  split; [vm_compute; reflexivity|].
  destruct (credentials_masked_at_info_shown_at_error None (Some Samples.repo_with_login)
              ["svn"; "info"] "alice" "s3cret")
    as (flags & Hflags & Hmasked & Hshown);
    [vm_compute; reflexivity | reflexivity | reflexivity | discriminate |].
  exists flags. split; [exact Hflags|].
  destruct (Hshown true "svn: E170013: Unable to connect to a repository"
                   ltac:(vm_compute; reflexivity)) as [_ Hin].
  split; [|exact Hin].
  rewrite <- (Hmasked true (CalledProcessError "svn: E170013: Unable to connect to a repository")
                "INFO" _ (or_introl eq_refl)).
  reflexivity.
Defined.

Lemma both_notify_distinct : NoDup (Samples.both_notify.*1).
Proof. apply (bool_decide_unpack _). vm_compute. exact I. Qed.

Lemma empty_change_list_advances_watermark_witness :
  (persisted (hook Samples.repos Samples.no_log "/repos/a" "5" Samples.fresh).1 "A" = 5 /\
   commit_dispatch (hook Samples.repos Samples.no_log "/repos/a" "5" Samples.fresh).2 = None) /\
  email_success (cycle Samples.both_notify Samples.log_of_c_missing Samples.fresh).2 = Some true /\
  all_changes (cycle Samples.both_notify Samples.log_of_c_missing Samples.fresh).2
  = [Samples.change_of "A" 5] /\
  persisted (cycle Samples.both_notify Samples.log_of_c_missing Samples.fresh).1 "C" = 7.
Proof.
  split.
  - apply (proj1 (empty_change_list_advances_watermark Samples.repos "A"
                    sample_repos_distinct
                    ltac:(apply (bool_decide_unpack _); vm_compute; exact I)
                    ltac:(vm_compute; reflexivity))
                 Samples.no_log "/repos/a" "5" 5
                 (list_to_map [("repository_path", "/repos/a"); ("notify_on_changes", "True")])
                 Samples.fresh);
      vm_compute; reflexivity.
  - destruct (proj2 (empty_change_list_advances_watermark Samples.both_notify "C"
                       both_notify_distinct
                       ltac:(apply (bool_decide_unpack _); vm_compute; exact I)
                       ltac:(vm_compute; reflexivity))
                    Samples.log_of_c_missing Samples.fresh 7
                    eq_refl ltac:(vm_compute; reflexivity) eq_refl)
      as (Hpayload & Hadvance & _).
    assert (Hok : email_success (cycle Samples.both_notify Samples.log_of_c_missing Samples.fresh).2 = Some true)
      by (vm_compute; reflexivity).
    split; [exact Hok|]. split.
    + rewrite Hpayload. vm_compute. reflexivity.
    + apply Hadvance; [exact Hok | reflexivity].
Defined.

Lemma run_svn_command_swallows_failures_witness :
  exists output, fst (Samples.run_locked 3 ["svn"; "info"] false (mkShell [])) = Return output.
Proof.
  apply (run_svn_command_swallows_failures Samples.always_locked (fun _ => true)
           (fun _ _ => false) None 2 ["svn"; "info"] None (Some "/wc") false (mkShell [])).
  intros n c. discriminate.
Defined.

Lemma collected_recipients_are_clean_witness :
  collect_recipients Samples.recipients_by_repo Samples.name_mapping (Some Samples.email_complete)
                     elements Samples.email_complete (group_by_repo [Samples.one_change])
  = Return Samples.collected /\
  forall a, a ∈ Samples.collected -> clean_address a.
Proof.
  assert (H : collect_recipients Samples.recipients_by_repo Samples.name_mapping
                (Some Samples.email_complete) elements Samples.email_complete
                (group_by_repo [Samples.one_change]) = Return Samples.collected)
    by (vm_compute; reflexivity).
  split; [exact H|].
  exact (collected_recipients_are_clean _ _ _ _ _ _ _ H).
Defined.

Lemma envelope_is_collected_recipients_witness :
  recipients_list (mkMessage "svn@example.org" (joined (elements Samples.collected))
                             (group_by_repo [Samples.one_change]))
  = elements Samples.collected.
Proof.
  apply (envelope_is_collected_recipients Samples.recipients_by_repo Samples.name_mapping
           (Some Samples.email_complete) elements Samples.email_complete
           (group_by_repo [Samples.one_change]) Samples.collected).
  - vm_compute. reflexivity.
  - intros s x. apply elem_of_elements.
Defined.

Lemma sample_name_keys_distinct :
  NoDup (List.flat_map name_keys Samples.name_rows ++ ["Procurement"; "Production"]).
Proof. apply (bool_decide_unpack _). vm_compute. exact I. Qed.

Lemma name_mapping_round_trip_witness :
  _load_repo_name_mapping (Some Samples.name_rows) !! "REPO_2" = Some ("Support" ++ warehouse) /\
  _load_repo_name_mapping (Some Samples.name_rows) !! ("Support" ++ warehouse) = Some "REPO_2" /\
  _load_repo_name_mapping (Some Samples.name_rows) !! "Support" = Some "REPO_2".
Proof.
  apply (name_mapping_round_trip Samples.name_rows " REPO_2" "Support" sample_name_keys_distinct).
  right. left. reflexivity.
Defined.

Lemma display_name_resolves_to_identifier_recipients_witness :
  _get_recipients_for_repository Samples.recipients_by_repo
    (_load_repo_name_mapping (Some Samples.name_rows)) (Some Samples.email_complete) elements "Purchasing"
  = Return (joined ["ann@example.org"; "bob@example.org"]).
Proof.
  apply (display_name_resolves_to_identifier_recipients Samples.recipients_by_repo
           (Some Samples.email_complete) elements Samples.name_rows "REPO_1" "Purchasing "
           ["ann@example.org"; "bob@example.org"] sample_name_keys_distinct).
  - left. reflexivity.
  - discriminate.
  - vm_compute. reflexivity.
  - vm_compute. reflexivity.
Defined.

Lemma quiet_pass_sends_status_report_only_witness :
  email_success
    (pass Samples.repos Samples.name_mapping (Some Samples.email_complete)
          Samples.flaky_smtp map_to_list "2024-05-01 08:00:00"
          Samples.idle Samples.fresh).1.2 = None /\
  (exists k, (k <= 3)%nat /\
     connections
       (pass Samples.repos Samples.name_mapping (Some Samples.email_complete)
             Samples.flaky_smtp map_to_list "2024-05-01 08:00:00"
             Samples.idle Samples.fresh).2.1.2 = List.seq 0 k) /\
  exists report,
    (pass Samples.repos Samples.name_mapping (Some Samples.email_complete)
          Samples.flaky_smtp map_to_list "2024-05-01 08:00:00"
          Samples.idle Samples.fresh).2.2 = Some report /\
    status_counts report = (2, 2, 0, 0)%nat /\ status_errors report = ["B"].
Proof.
  destruct (quiet_pass_sends_status_report_only
              Samples.repos Samples.name_mapping (Some Samples.email_complete)
              Samples.flaky_smtp map_to_list "2024-05-01 08:00:00"
              Samples.idle Samples.fresh)
    as (_ & Hrep & Hconn & _ & Hreport).
  { intros r l _. cbn [get_latest_revision Samples.idle].
    destruct (String.eqb r "A"); [|discriminate]. intros [= <-]. vm_compute. discriminate. }
  split; [now rewrite Hrep|]. split; [exact Hconn|].
  eexists. split; [vm_compute; reflexivity|].
  match goal with
  | |- status_counts ?report = _ /\ _ =>
      destruct (Hreport report ltac:(vm_compute; reflexivity)) as (Hcounts & Herrors & _)
  end.
  split; [exact Hcounts | exact Herrors].
Defined.

Lemma failing_repository_is_isolated_witness :
  errors (cycle Samples.repos Samples.idle Samples.fresh).2 = ["B"] /\
  changes_to_update (cycle Samples.repos Samples.idle Samples.fresh).2 = [].
Proof.
  destruct (failing_repository_is_isolated Samples.repos Samples.idle Samples.fresh
              sample_repos_distinct) as [-> ->].
  split; vm_compute; reflexivity.
Defined.

Lemma delivered_cycle_catches_up_witness :
  email_success (cycle Samples.repos Samples.mail_up Samples.fresh).2 = Some true /\
  persisted (cycle Samples.repos Samples.mail_up Samples.fresh).1 "A" = 5.
Proof.
  split; [vm_compute; reflexivity|].
  rewrite (delivered_cycle_catches_up Samples.repos Samples.mail_up Samples.fresh "A"
             sample_repos_distinct).
  - reflexivity.
  - apply (bool_decide_unpack _). vm_compute. exact I.
  - vm_compute. reflexivity.
  - reflexivity.
Defined.

Lemma recorded_commit_is_not_processed_twice_witness :
  persisted Samples.fresh "A"
  < persisted (hook Samples.repos Samples.mail_up "/repos/a" "5" Samples.fresh).1 "A" /\
  commit_dispatch
    (hook Samples.repos Samples.mail_down "/repos/a" "5"
          (hook Samples.repos Samples.mail_up "/repos/a" "5" Samples.fresh).1).2 = None.
Proof.
  assert (H : persisted Samples.fresh "A"
              < persisted (hook Samples.repos Samples.mail_up "/repos/a" "5" Samples.fresh).1 "A")
    by (vm_compute; reflexivity).
  split; [exact H|].
  apply (recorded_commit_is_not_processed_twice Samples.repos Samples.mail_up Samples.mail_down
           "/repos/a" "5" Samples.fresh "A"); [|exact H].
  apply (bool_decide_unpack _). vm_compute. exact I.
Defined.

Lemma unknown_path_moves_first_repository_witness :
  commit_repo (hook Samples.archive Samples.mail_up "/srv/elsewhere" "7" Samples.fresh).2 = Some "B" /\
  persisted (hook Samples.archive Samples.mail_up "/srv/elsewhere" "7" Samples.fresh).1 "B" = 7.
Proof.
  apply (unknown_path_moves_first_repository Samples.archive Samples.mail_up "/srv/elsewhere" "7" 7
           Samples.fresh "B" _ [] eq_refl).
  - intros n c p [[= <- <-]|[]] Hp. vm_compute in Hp. injection Hp as <-.
    split; vm_compute; reflexivity.
  - vm_compute. reflexivity.
  - vm_compute. reflexivity.
  - vm_compute. reflexivity.
  - reflexivity.
Defined.

Lemma sample_sections_distinct : NoDup (Samples.sections.*1).
Proof. apply (bool_decide_unpack _). vm_compute. exact I. Qed.

Lemma repositories_are_repo_sections_witness :
  (_get_repositories Samples.sections).*1 = ["main"] /\
  NoDup ((_get_repositories Samples.sections).*1).
Proof.
  split; [vm_compute; reflexivity|].
  apply (repositories_are_repo_sections Samples.sections sample_sections_distinct).
Defined.

Lemma unreachable_remote_yields_no_change_witness :
  RepositoryClient.get_changes ETModel.fromstring ETModel.tostring
    DateModel.fromisoformat DateModel.strftime
    (fun _ => "2024-05-01 08:00:00") "2024-05-01T08:00:00+08:00"
    "2024-05-01 08:00:00" "2024-05-01T08:00:00+08:00"
    true Samples.unreachable (fun _ => true) 0 7 Samples.remote_repo
  = Records [].
Proof.
  apply unreachable_remote_yields_no_change;
    [reflexivity | vm_compute; reflexivity | reflexivity].
Defined.

Lemma remote_outage_goes_unreported_witness :
  (pass Samples.remote_repos Samples.name_mapping (Some Samples.email_complete)
        Samples.flaky_smtp map_to_list "2024-05-01 08:00:00"
        (RepositoryClient.env_of ETModel.fromstring ETModel.tostring
           DateModel.fromisoformat DateModel.strftime
           (fun _ => "2024-05-01 08:00:00") "2024-05-01T08:00:00+08:00"
           "2024-05-01 08:00:00" "2024-05-01T08:00:00+08:00"
           true Samples.unreachable (fun _ => true)
           Samples.remote_repos (fun _ => true) (fun _ => true))
        Samples.fresh).1
  = (mkMonitor (_get_last_recorded_revisions Samples.remote_repos None) None,
     mkReport [] [] [] None) /\
  exists report,
    (pass Samples.remote_repos Samples.name_mapping (Some Samples.email_complete)
          Samples.flaky_smtp map_to_list "2024-05-01 08:00:00"
          (RepositoryClient.env_of ETModel.fromstring ETModel.tostring
             DateModel.fromisoformat DateModel.strftime
             (fun _ => "2024-05-01 08:00:00") "2024-05-01T08:00:00+08:00"
             "2024-05-01 08:00:00" "2024-05-01T08:00:00+08:00"
             true Samples.unreachable (fun _ => true)
             Samples.remote_repos (fun _ => true) (fun _ => true))
          Samples.fresh).2.2 = Some report /\
    status_counts report = (1, 1, 0, 0)%nat /\ status_errors report = [].
Proof.
  destruct (remote_outage_goes_unreported ETModel.fromstring ETModel.tostring
              DateModel.fromisoformat DateModel.strftime
              (fun _ => "2024-05-01 08:00:00") "2024-05-01T08:00:00+08:00"
              "2024-05-01 08:00:00" "2024-05-01T08:00:00+08:00"
              true Samples.unreachable (fun _ => true)
              Samples.name_mapping (Some Samples.email_complete) Samples.flaky_smtp
              map_to_list "2024-05-01 08:00:00"
              Samples.remote_repos (fun _ => true) (fun _ => true) Samples.fresh)
    as (Hquiet & _ & Hreport).
  - reflexivity.
  - intros n c [[= <- <-]|[]]. vm_compute. reflexivity.
  - reflexivity.
  - intros r. vm_compute. discriminate.
  - split; [exact Hquiet|].
    eexists. split; [vm_compute; reflexivity|].
    match goal with
    | |- status_counts ?report = _ /\ _ =>
        destruct (Hreport report ltac:(vm_compute; reflexivity)) as (Hcounts & Herrors & _)
    end.
    split; [exact Hcounts | exact Herrors].
Defined.

Lemma validated_config_is_complete_witness :
  _get_repositories (_validate_config "/opt/monitor/svn_wc/repo_1"
                                      (fun repo_name => "/opt/monitor/svn_wc/" ++ repo_name)
                                      Samples.sections).1 <> [] /\
  is_Some (config_of (_validate_config "/opt/monitor/svn_wc/repo_1"
                                       (fun repo_name => "/opt/monitor/svn_wc/" ++ repo_name)
                                       Samples.sections).1 "LOGGING").
Proof.
  destruct (validated_config_is_complete
              "/opt/monitor/svn_wc/repo_1"
              (fun repo_name => "/opt/monitor/svn_wc/" ++ repo_name)
              Samples.sections sample_sections_distinct) as (_ & Hsec & _ & Hrepos & _).
  split; [exact Hrepos|]. apply Hsec. right. left. reflexivity.
Defined.

Lemma detection_mode_defaults_to_remote_witness :
  _get_remote_check_setting (config_of Samples.sections "SYSTEM") = false /\
  _get_remote_check_setting
    (config_of (_validate_config "/opt/monitor/svn_wc/repo_1"
                                 (fun repo_name => "/opt/monitor/svn_wc/" ++ repo_name)
                                 Samples.sections).1 "SYSTEM") = true.
Proof.
  apply (detection_mode_defaults_to_remote
           "/opt/monitor/svn_wc/repo_1"
           (fun repo_name => "/opt/monitor/svn_wc/" ++ repo_name)
           Samples.sections sample_sections_distinct).
  vm_compute. reflexivity.
Defined.

Lemma detect_only_holds_watermarks_witness :
  credentials_configured Samples.email_without_password = false /\
  persisted (cycle Samples.repos Samples.detect_only Samples.fresh).1 "A"
  = persisted Samples.fresh "A".
Proof.
  split; [vm_compute; reflexivity|].
  apply (detect_only_holds_watermarks Samples.repos Samples.recipients_by_repo
           Samples.name_mapping Samples.email_without_password elements
           Samples.flaky_smtp Samples.detect_only Samples.fresh "A" sample_repos_distinct).
  - apply (bool_decide_unpack _). vm_compute. exact I.
  - vm_compute. reflexivity.
  - vm_compute. eauto.
  - vm_compute. eauto.
  - vm_compute. eauto.
  - vm_compute. reflexivity.
  - intros changes. reflexivity.
Defined.

Lemma remote_command_is_retried_until_unlocked_witness :
  _run_svn_command Samples.clears_after_two (fun _ => true) (fun _ _ => false) None
                   5 ["svn"; "info"; Samples.repo_url] None None false (mkShell [])
  = (Return "42",
     mkShell [["svn"; "info"; Samples.repo_url]; ["svn"; "info"; Samples.repo_url];
              ["svn"; "info"; Samples.repo_url]]).
Proof.
  apply (remote_command_is_retried_until_unlocked
           Samples.clears_after_two (fun _ => true) (fun _ _ => false) None
           2 5 ["svn"; "info"; Samples.repo_url] None (mkShell []) " 42 ").
  - lia.
  - intros i Hi. exists Samples.lock_error. split; [|vm_compute; reflexivity].
    destruct i as [|[|i]]; [reflexivity | reflexivity | lia].
  - reflexivity.
Defined.
